(** * Music tag editor: the tag/cover codec layer of [music_tag_bot.py]

    A shallow embedding of [MusicTagEditor.get_tags], [MusicTagEditor.set_tag]
    and [MusicTagEditor.set_cover], of the extension check of
    [handle_audio_file], and of the parts of the Python standard library,
    Pillow and mutagen these functions call.

    A Python [str] is a [string]: the sequence of its UTF-8 code units.  The
    separators, digits and ASCII letters the program inspects are single
    code units, and no code unit of a multi-byte character is below 128, so
    the byte-wise operations below agree with the character-wise ones of
    Python on them; white space outside ASCII is matched by its code
    units. *)

From Stdlib Require Import ZArith NArith QArith Qabs Qround Ascii String List Lia.
From Stdlib Require Import DecimalString Lqa.
From stdpp Require Import base option list strings gmap.

Local Open Scope Z_scope.
Local Open Scope string_scope.

(** ** Python strings and [os.path] *)

Module Py.

(** [str.lower], on the ASCII letters.  Characters outside ASCII are left
    alone: Python maps none of them to an ASCII letter that occurs in the
    extensions and keys compared below. *)
Definition lower_char (c : ascii) : ascii :=
  let n := nat_of_ascii c in
  if ((65 <=? n) && (n <=? 90))%nat then ascii_of_nat (n + 32) else c.

Fixpoint lower (s : string) : string :=
  match s with
  | EmptyString => EmptyString
  | String c s' => String (lower_char c) (lower s')
  end.

(** [s.rfind(c)] for a one-character [c]: the highest index holding [c],
    or [-1]. *)
Fixpoint rfind_from (c : ascii) (s : string) (i last : Z) : Z :=
  match s with
  | EmptyString => last
  | String a s' => rfind_from c s' (i + 1) (if Ascii.eqb a c then i else last)
  end.

Definition rfind (c : ascii) (s : string) : Z := rfind_from c s 0 (-1).

(** Slices [s[:n]] and [s[n:]] for [0 <= n]. *)
Fixpoint take (n : nat) (s : string) : string :=
  match n, s with
  | S n', String a s' => String a (take n' s')
  | _, _ => EmptyString
  end.

Fixpoint drop (n : nat) (s : string) : string :=
  match n, s with
  | S n', String _ s' => drop n' s'
  | _, _ => s
  end.

(** [sep.join(l)] *)
Fixpoint join (sep : string) (l : list string) : string :=
  match l with
  | [] => ""
  | [x] => x
  | x :: l' => x +:+ sep +:+ join sep l'
  end.

(** [s.split(c)] for a one-character separator [c]: the pieces between the
    occurrences of [c], never the empty list. *)
Fixpoint split (c : ascii) (s : string) : list string :=
  match s with
  | EmptyString => [""]
  | String a s' =>
      if Ascii.eqb a c then "" :: split c s'
      else match split c s' with
           | x :: l => String a x :: l
           | [] => [String a ""]
           end
  end.

(** The loop of [genericpath._splitext] that skips leading dots: [n] is the
    number of indices left between [filenameIndex] and [dotIndex]; the
    result tells whether the loop returned from inside (a character other
    than the dot was met). *)
Fixpoint splitext_scan (p : string) (filenameIndex : nat) (n : nat) : bool :=
  match n with
  | O => false
  | S n' =>
      match String.get filenameIndex p with
      | Some a =>
          if negb (Ascii.eqb a ".") then true
          else splitext_scan p (S filenameIndex) n'
      | None => true
      end
  end.

(** [os.path.splitext] (posixpath: sep "/", no altsep, extsep "."). *)
Definition splitext (p : string) : string * string :=
  let sepIndex := rfind "/" p in
  let dotIndex := rfind "." p in
  if (sepIndex <? dotIndex)%Z
     && splitext_scan p (Z.to_nat (sepIndex + 1))
                      (Z.to_nat (dotIndex - (sepIndex + 1)))
  then (take (Z.to_nat dotIndex) p, drop (Z.to_nat dotIndex) p)
  else (p, "").

End Py.

(** ** Format kinds and the extension dispatch *)

Inductive FormatKind := MP3 | FLAC | MP4 | OggVorbis | OggOpus.

#[global] Instance FormatKind_eq_dec : EqDecision FormatKind.
Proof. solve_decision. Defined.

(** [ext = os.path.splitext(filepath)[1].lower()], the first line of each of
    the three methods and of the check in [handle_audio_file]. *)
Definition ext_of (filepath : string) : string :=
  Py.lower (snd (Py.splitext filepath)).

(** The [if ext == ".mp3": ... elif ext == ".flac": ... elif ext == ".m4a":
    ... elif ext in [".ogg", ".opus"]: ...] chain shared by the three methods,
    with [OggVorbis(filepath) if ext == ".ogg" else OggOpus(filepath)]. *)
Definition codec_of_ext (ext : string) : option FormatKind :=
  if String.eqb ext ".mp3" then Some MP3
  else if String.eqb ext ".flac" then Some FLAC
  else if String.eqb ext ".m4a" then Some MP4
  else if existsb (String.eqb ext) [".ogg"; ".opus"] then
    Some (if String.eqb ext ".ogg" then OggVorbis else OggOpus)
  else None.

(** The list tested by [handle_audio_file]. *)
Definition SUPPORTED_EXTENSIONS : list string :=
  [".mp3"; ".flac"; ".m4a"; ".ogg"; ".opus"].

Definition ext_supported (ext : string) : bool :=
  existsb (String.eqb ext) SUPPORTED_EXTENSIONS.

(** ** Exceptions

    A Python computation that may raise is a [result], sequenced with the
    notation [x ← r; k] of its bind; [try_except] is the
    handler of the three methods, which catches every [Exception]. *)

Inductive exn := KeyError | ValueError | IndexError | OSError | MutagenError.

Inductive result (A : Type) :=
| Ok (a : A)
| Raise (e : exn).
Arguments Ok {A} a.
Arguments Raise {A} e.

#[global] Instance result_bind : MBind result := fun A B k r =>
  match r with
  | Ok a => k a
  | Raise e => Raise e
  end.

#[global] Instance exn_eq_dec : EqDecision exn.
Proof. solve_decision. Defined.

#[global] Instance result_eq_dec {A : Type} `{EqDecision A} : EqDecision (result A).
Proof. solve_decision. Defined.

(** ** Pillow *)

Module PIL.

Record Image := { mode : string; width : Z; height : Z }.

(** Image bytes, by what Pillow makes of them.  [Junk] stands for every
    byte string on which [Image.open], the loading of the pixels or the
    conversion to RGB raises: all three happen inside the [try] of
    [set_cover] before any container is opened, and all end it the same way.
    [Encoded fmt q img] is a file in format [fmt], written with quality
    setting [q], that decodes to [img]. *)
Inductive bytes :=
| Junk (raw : string)
| Encoded (format : string) (quality : Z) (img : Image).

(** [Image.open(io.BytesIO(image_data))] *)
Definition open (image_data : bytes) : result Image :=
  match image_data with
  | Junk _ => Raise OSError
  | Encoded _ _ img => Ok img
  end.

(** [img.convert(mode)] *)
Definition convert (img : Image) (m : string) : Image :=
  {| mode := m; width := width img; height := height img |}.

(** [round_aspect] of [Image.thumbnail]:
    [max(min(math.floor(number), math.ceil(number), key=key), 1)];
    [min] keeps its first argument unless the second has a strictly smaller
    key. *)
Definition round_aspect (number : Q) (key : Z -> Q) : Z :=
  Z.max (if Qle_bool (key (Qfloor number)) (key (Qceiling number))
         then Qfloor number else Qceiling number) 1.

(** [preserve_aspect_ratio] of [Image.thumbnail], for the requested size
    [(x, y)]; [None] is its bare [return].  Pillow computes [aspect] and the
    scaled side in binary floating point; here they are exact rationals. *)
Definition preserve_aspect_ratio (img : Image) (x y : Z) : option (Z * Z) :=
  if (width img <=? x)%Z && (height img <=? y)%Z then None
  else
    let aspect := (inject_Z (width img) / inject_Z (height img))%Q in
    if Qle_bool aspect (inject_Z x / inject_Z y)%Q then
      Some (round_aspect (inject_Z y * aspect)%Q
              (fun n => Qabs (aspect - inject_Z n / inject_Z y)%Q), y)
    else
      Some (x, round_aspect (inject_Z x / aspect)%Q
                 (fun n => if (n =? 0)%Z then 0%Q
                           else Qabs (aspect - inject_Z x / inject_Z n)%Q)).

(** [img.thumbnail(size, resample)]: the image is resized in place to the
    size [preserve_aspect_ratio] returns, and left alone when it returns
    nothing.  The resampling filter does not affect mode or size. *)
Definition thumbnail (img : Image) (size : Z * Z) : Image :=
  match preserve_aspect_ratio img (fst size) (snd size) with
  | None => img
  | Some (x, y) => {| mode := mode img; width := x; height := y |}
  end.

(** [RAWMODE] of [JpegImagePlugin]: the modes the JPEG writer accepts. *)
Definition RAWMODE : list string :=
  ["1"; "L"; "RGB"; "RGBX"; "CMYK"; "YCbCr"].

(** [img.save(output, format="JPEG", quality=q)] followed by
    [output.getvalue()]; any other mode is
    [OSError("cannot write mode ... as JPEG")]. *)
Definition save_JPEG (img : Image) (q : Z) : result bytes :=
  if existsb (String.eqb (mode img)) RAWMODE then Ok (Encoded "JPEG" q img)
  else Raise OSError.

End PIL.

(** ** White space

    The characters [str.isspace], [str.strip] and the class [\s] of [re]
    take for white space, each by its UTF-8 code units: U+0009 to U+000D,
    U+001C to U+0020, U+0085, U+00A0, U+1680, U+2000 to U+200A, U+2028,
    U+2029, U+202F, U+205F and U+3000.  Each of the longer ones starts with
    a lead byte, so in a [str] it is found at the start of a character
    only. *)
Definition code_units (l : list nat) : string :=
  string_of_list_ascii (map ascii_of_nat l).

Definition WHITESPACE : list string :=
  map code_units
    [[9]; [10]; [11]; [12]; [13]; [28]; [29]; [30]; [31]; [32];
     [194; 133]; [194; 160]; [225; 154; 128];
     [226; 128; 128]; [226; 128; 129]; [226; 128; 130]; [226; 128; 131];
     [226; 128; 132]; [226; 128; 133]; [226; 128; 134]; [226; 128; 135];
     [226; 128; 136]; [226; 128; 137]; [226; 128; 138];
     [226; 128; 168]; [226; 128; 169]; [226; 128; 175];
     [226; 129; 159]; [227; 128; 128]]%nat.

(** The number of code units of the white space character [text] starts
    with, and 0 when it starts with none. *)
Definition space_length (text : string) : nat :=
  match List.find (fun w => String.prefix w text) WHITESPACE with
  | Some w => String.length w
  | None => 0
  end.

(** ** mutagen *)

Module Mutagen.

(** *** What is left open

    Two functions of the libraries go by tables that change with the
    version installed, the character database of Python and the genre list
    of mutagen.  They are taken as they come, and nothing is assumed of
    them.

    [int_beyond s] is [int(s)] for a piece [s] of a time stamp that holds a
    code unit outside ASCII or more than 4300 code units: Python reads the
    decimal digits of every script the character database knows, and its
    recent versions refuse more than 4300 digits; [None] is [ValueError].

    [genres text] is the getter of [TCON.genres], which the loader runs on
    the text of the genre frame: the values that refer to the genre list of
    ID3v1, by number or in parentheses, are replaced by names.  It tests the
    values with [str.isdigit] and reads them with [int], and raises
    [ValueError] where the two disagree. *)
Class Library := {
  int_beyond : string -> option N;
  genres : list string -> result (list string) }.

(** *** ID3 time stamps ([mutagen.id3._specs.ID3TimeStamp])

    A stamp keeps the six numbers it parsed, not its text: the [text]
    property renders them again on every read. *)

Record ID3TimeStamp := {
  year : option N; month : option N; day : option N;
  hour : option N; minute : option N; second : option N }.

(** The first alternative of [re.compile('[-T:/.]|\\s+')]. *)
Definition is_stamp_sep (c : ascii) : bool :=
  existsb (Ascii.eqb c) ["-"; "T"; ":"; "/"; "."]%char.

(** [splitre.split(text)]: [cur] is the piece being read, reversed;
    [in_space] tells that the previous character belongs to a run of white
    space, which [\s+] consumes as one separator; [skip] counts the code
    units still to pass of the white space character being read. *)
Fixpoint re_split (text : string) (cur : string) (in_space : bool) (skip : nat)
  : list string :=
  match text with
  | EmptyString => [String.rev cur]
  | String c text' =>
      match skip with
      | S skip' => re_split text' cur in_space skip'
      | O =>
          if is_stamp_sep c then String.rev cur :: re_split text' "" false 0
          else
            match space_length text with
            | S n =>
                if in_space then re_split text' cur true n
                else String.rev cur :: re_split text' "" true n
            | O => re_split text' (String c cur) false 0
            end
      end
  end.

(** [int(s)] for a piece [s] of the split (so free of white space and of
    "-") made of at most 4300 ASCII characters: an optional "+", then decimal
    digits, single underscores allowed between digits; [None] is
    [ValueError]. *)
Definition digit_of (c : ascii) : option N :=
  let n := N_of_ascii c in
  if ((48 <=? n) && (n <=? 57))%N then Some (n - 48)%N else None.

Fixpoint int_digits (s : string) (acc : N) (after_digit : bool) : option N :=
  match s with
  | EmptyString => if after_digit then Some acc else None
  | String c s' =>
      match digit_of c with
      | Some d => int_digits s' (10 * acc + d)%N true
      | None =>
          if Ascii.eqb c "_" && after_digit then int_digits s' acc false
          else None
      end
  end.

Definition int_ascii (s : string) : option N :=
  match s with
  | String "+" s' => int_digits s' 0%N false
  | _ => int_digits s 0%N false
  end.

Definition is_plain (s : string) : bool :=
  forallb (fun c => (N_of_ascii c <? 128)%N) (list_ascii_of_string s)
  && (String.length s <=? 4300)%nat.

(** [int(s)] for a piece [s] of the split. *)
Definition int {library : Library} (s : string) : option N :=
  if is_plain s then int_ascii s else int_beyond s.

(** [ID3TimeStamp(text)], that is [set_text]:
    [splitre.split(text + ':::::')[:6]], each piece through [int]. *)
Definition stamp {library : Library} (text : string) : ID3TimeStamp :=
  let piece i := int (nth i (re_split (text +:+ ":::::") "" false 0) "") in
  {| year := piece 0%nat; month := piece 1%nat; day := piece 2%nat;
     hour := piece 3%nat; minute := piece 4%nat; second := piece 5%nat |}.

(** ['%04d' % n] and ['%02d' % n] *)
Definition format_d (w : nat) (n : N) : string :=
  let s := NilEmpty.string_of_uint (N.to_uint n) in
  string_of_list_ascii (repeat "0"%char (w - String.length s)) +:+ s.

(** The loop of [get_text]: it stops at the first missing part. *)
Fixpoint stamp_pieces (parts : list (option N)) (formats : list nat)
    (seps : list string) : list string :=
  match parts, formats, seps with
  | Some part :: parts', w :: formats', sep :: seps' =>
      (format_d w part +:+ sep) :: stamp_pieces parts' formats' seps'
  | _, _, _ => []
  end.

(** [s[:-1]] *)
Fixpoint drop_last (s : string) : string :=
  match s with
  | EmptyString => ""
  | String c EmptyString => ""
  | String c s' => String c (drop_last s')
  end.

(** [stamp.text], that is [get_text]. *)
Definition stamp_text (t : ID3TimeStamp) : string :=
  drop_last (String.concat ""
    (stamp_pieces [year t; month t; day t; hour t; minute t; second t]
                  [4; 2; 2; 2; 2; 2]%nat ["-"; "-"; " "; ":"; ":"; "x"])).

(** The numbers of a stamp that its text shows: those before the first one
    missing. *)
Fixpoint until_missing (parts : list (option N)) : list (option N) :=
  match parts with
  | Some part :: parts' => Some part :: until_missing parts'
  | _ => []
  end.

(** The stamp the loader builds from the text of a stamp.  A stamp goes to
    the file as its text, with "T" for the space, and the loader parses that
    text anew: it finds the numbers the text shows, and what the stamp held
    behind a missing number is lost. *)
Definition reparsed (t : ID3TimeStamp) : ID3TimeStamp :=
  let parts :=
    until_missing [year t; month t; day t; hour t; minute t; second t] in
  {| year := nth 0 parts None; month := nth 1 parts None;
     day := nth 2 parts None; hour := nth 3 parts None;
     minute := nth 4 parts None; second := nth 5 parts None |}.

(** *** ID3 frames and tags *)

Inductive Frame :=
| TextFrame (FrameID : string) (encoding : Z) (text : list string)
| TimeStampTextFrame (FrameID : string) (encoding : Z) (text : list ID3TimeStamp)
| APIC (encoding : Z) (mime : string) (type : Z) (desc : string) (data : PIL.bytes).

(** The text frame constructors called with [text=value], a [str]: the
    [MultiSpec] of a text frame splits it at its separator, NUL for plain
    text and "," for time stamps, and validates each piece. *)
Definition NUL : ascii := ascii_of_nat 0.

Definition TIT2 (encoding : Z) (text : string) : Frame :=
  TextFrame "TIT2" encoding (Py.split NUL text).
Definition TPE1 (encoding : Z) (text : string) : Frame :=
  TextFrame "TPE1" encoding (Py.split NUL text).
Definition TALB (encoding : Z) (text : string) : Frame :=
  TextFrame "TALB" encoding (Py.split NUL text).
Definition TCON (encoding : Z) (text : string) : Frame :=
  TextFrame "TCON" encoding (Py.split NUL text).
Definition TDRC {library : Library} (encoding : Z) (text : string) : Frame :=
  TimeStampTextFrame "TDRC" encoding (map stamp (Py.split "," text)).

(** [frame.HashKey]: the frame id, and for a picture the id, a colon and
    the description. *)
Definition HashKey (fr : Frame) : string :=
  match fr with
  | TextFrame id _ _ => id
  | TimeStampTextFrame id _ _ => id
  | APIC _ _ _ desc _ => "APIC:" +:+ desc
  end.

(** [str(frame)].  Picture frames define no [__str__]; their default
    rendering is never reached by [get_tags] on a tag read from a file, whose
    keys TIT2 ... TCON hold text frames. *)
Definition Frame_str (fr : Frame) : string :=
  match fr with
  | TextFrame _ _ text => Py.join (String NUL "") text
  | TimeStampTextFrame _ _ text => Py.join "," (map stamp_text text)
  | APIC _ _ _ desc _ => "APIC(desc=" +:+ desc +:+ ")"
  end.

(** An [ID3] tag is a dictionary from hash keys to frames. *)
Abbreviation ID3 := (gmap string Frame).

(** [tags.delall(key)] *)
Definition delall (key : string) (tags : ID3) : ID3 :=
  if decide (is_Some (tags !! key)) then delete key tags
  else filter (fun kv => String.prefix (key +:+ ":") (fst kv) = false) tags.

(** [save_frame] writes nothing for a text frame, time stamps included,
    whose [str] is empty. *)
Definition is_written (fr : Frame) : bool :=
  match fr with
  | TextFrame _ _ _ | TimeStampTextFrame _ _ _ =>
      negb (String.eqb (Frame_str fr) "")
  | APIC _ _ _ _ _ => true
  end.

(** A frame as the loader reads it back from the file: the texts of a text
    frame and a picture come back as they were written, the stamps of a
    time stamp frame as their texts are parsed. *)
Definition reread (fr : Frame) : Frame :=
  match fr with
  | TimeStampTextFrame id encoding text =>
      TimeStampTextFrame id encoding (map reparsed text)
  | _ => fr
  end.

(** The frames of a dictionary that reach the file, as they are read
    back. *)
Definition kept (tags : ID3) : ID3 :=
  reread <$> filter (fun kv : string * Frame => is_written (snd kv) = true) tags.

(** The picture part of [__update_common]: the three-letter image formats
    of ID3v2.2 become MIME types. *)
Definition update_mime (fr : Frame) : Frame :=
  match fr with
  | APIC encoding mime type desc data =>
      APIC encoding
        (if String.eqb mime "PNG" then "image/png"
         else if String.eqb mime "JPG" then "image/jpeg" else mime)
        type desc data
  | _ => fr
  end.

(** [__update_common], which [update_to_v24] runs at the end of every
    load: the text of the genre frame is replaced by the genres its getter
    parses from it, and the pictures get their MIME types. *)
Definition update_common {library : Library} (tags : ID3) : result ID3 :=
  match tags !! "TCON" with
  | Some (TextFrame id encoding text) =>
      match genres text with
      | Ok text => Ok (update_mime <$> <["TCON" := TextFrame id encoding text]> tags)
      | Raise e => Raise e
      end
  | _ => Ok (update_mime <$> tags)
  end.

(** What [audio.save()] followed by a later [MP3(filepath, ID3=ID3)] makes
    of the dictionary: the frames that are written go to the file without
    their dictionary keys, the loader files each frame under its [HashKey],
    and [update_to_v24] runs [__update_common].  The dictionaries the
    program saves hold no two frames with the same hash key, which the
    loader would merge: a loaded tag has every frame under its own hash key,
    [set_tag] puts a text frame under its own, and [set_cover] puts the
    picture under "APIC" after it has removed every picture.  The other
    steps of [update_to_v24] concern the frames of ID3v2.3 that version 2.4
    lacks (TYER, TDAT, TIME, TORY, TRDA, TSIZ among the text frames), which
    no loaded tag holds and [set_tag] never adds. *)
Definition ID3_reload {library : Library} (tags : ID3) : result ID3 :=
  update_common
    (list_to_map ((fun kv => (HashKey (snd kv), snd kv)) <$> map_to_list (kept tags))).

(** *** Vorbis comments ([mutagen._vorbis.VCommentDict]) *)

Abbreviation VComment := (list (string * string)).

Definition is_valid_key (key : string) : bool :=
  forallb (fun c => negb ((N_of_ascii c <? 32) || (125 <? N_of_ascii c)
                          || (N_of_ascii c =? 61))%N)
          (list_ascii_of_string key)
  && negb (String.eqb key "").

Definition key_is (key : string) (kv : string * string) : bool :=
  String.eqb (Py.lower (fst kv)) key.

Definition VC_getitem (key : string) (vc : VComment) : result (list string) :=
  if negb (is_valid_key key) then Raise ValueError
  else
    let key := Py.lower key in
    match map snd (List.filter (key_is key) vc) with
    | [] => Raise KeyError
    | values => Ok values
    end.

Definition VC_delitem (key : string) (vc : VComment) : result VComment :=
  if negb (is_valid_key key) then Raise ValueError
  else
    let key := Py.lower key in
    match List.filter (key_is key) vc with
    | [] => Raise KeyError
    | _ => Ok (List.filter (fun kv => negb (key_is key kv)) vc)
    end.

(** [tags[key] = values]; a value that is not a list is wrapped in one. *)
Definition VC_setitem (key : string) (values : list string) (vc : VComment)
  : result VComment :=
  if negb (is_valid_key key) then Raise ValueError
  else
    let vc := match VC_delitem key vc with Ok vc' => vc' | Raise _ => vc end in
    Ok (vc ++ map (fun value => (key, value)) values)%list.

(** *** FLAC pictures and MP4 values *)

Record Picture := {
  pic_type : Z; pic_mime : string; pic_desc : string; pic_data : PIL.bytes }.

(** What a loaded [FLAC] object holds: the Vorbis comment block, when the
    file has one, and the picture blocks. *)
Record FLACBlocks := { flac_tags : option VComment; flac_pictures : list Picture }.

Record MP4Cover := { cover_data : PIL.bytes; imageformat : Z }.
Definition FORMAT_JPEG : Z := 13.

(** The value an [MP4Tags] dictionary holds under an atom name, as the
    loader builds it: a list of strings for a text atom, a list of covers
    for [covr]. *)
Inductive MP4Value :=
| Texts (l : list string)
| Covers (l : list MP4Cover).

Abbreviation MP4Tags := (gmap string MP4Value).

(** *** Files

    A file on disk, by what the five loaders make of it.  [tags = None] is a
    file without a tag container.  Each loader raises on a file of another
    kind and on [Unparsable].  The tag of an MP3 file is its ID3v2 tag as
    the loader returns it; the file has no ID3v1 tag. *)
Inductive file :=
| MP3File (tags : option ID3)
| FLACFile (audio : FLACBlocks)
| MP4File (tags : option MP4Tags)
| OggVorbisFile (tags : VComment)
| OggOpusFile (tags : VComment)
| Unparsable.

(** The file [audio.save()] leaves, for the dictionary [tags] of an [MP3]
    object: an MP3 file with the tag the next load returns, or a file on
    which the next load raises.  A tag left without a frame is kept as an
    empty tag; [get_tags] reads, and [set_tag] and [set_cover] write, a file
    with an empty tag and a file without a tag alike. *)
Definition saved {library : Library} (tags : ID3) : file :=
  match ID3_reload tags with
  | Ok tags' => MP3File (Some tags')
  | Raise _ => Unparsable
  end.

Definition load_MP3 (f : file) : result (option ID3) :=
  match f with MP3File tags => Ok tags | _ => Raise MutagenError end.
Definition load_FLAC (f : file) : result FLACBlocks :=
  match f with FLACFile audio => Ok audio | _ => Raise MutagenError end.
Definition load_MP4 (f : file) : result (option MP4Tags) :=
  match f with MP4File tags => Ok tags | _ => Raise MutagenError end.
Definition load_OggVorbis (f : file) : result VComment :=
  match f with OggVorbisFile tags => Ok tags | _ => Raise MutagenError end.
Definition load_OggOpus (f : file) : result VComment :=
  match f with OggOpusFile tags => Ok tags | _ => Raise MutagenError end.

(** [FileType.get(key, default)]: [KeyError], also the one of a file without
    tags, gives the default; any other exception goes through. *)
Definition get {T V : Type} (getitem : string -> T -> result V)
    (tags : option T) (key : string) (default : V) : result V :=
  match tags with
  | None => Ok default
  | Some t =>
      match getitem key t with
      | Raise KeyError => Ok default
      | r => r
      end
  end.

(** [key in audio] *)
Definition contains {T V : Type} (getitem : string -> T -> result V)
    (tags : option T) (key : string) : result bool :=
  match tags with
  | None => Ok false
  | Some t =>
      match getitem key t with
      | Ok _ => Ok true
      | Raise KeyError => Ok false
      | Raise e => Raise e
      end
  end.

Definition dict_getitem {V : Type} (key : string) (d : gmap string V) : result V :=
  match d !! key with
  | Some v => Ok v
  | None => Raise KeyError
  end.

End Mutagen.

(** ** [MusicTagEditor] *)

Import Mutagen.

(** The values of the dictionary [get_tags] returns, and of [user_data]. *)
Inductive PyVal :=
| PyStr (s : string)
| PyBool (b : bool)
| PyCover (c : MP4Cover)
| PyInt (n : Z).

(** [str(x)] for [x] a frame or already a [str]. *)
Definition str (x : Frame + string) : string :=
  match x with
  | inl fr => Frame_str fr
  | inr s => s
  end.

Definition ID3_getitem (key : string) (tags : ID3) : result (Frame + string) :=
  fr ← dict_getitem key tags ; Ok (inl fr).

(** [l[0]] *)
Definition index0 (l : list string) : result PyVal :=
  match l with
  | s :: _ => Ok (PyStr s)
  | [] => Raise IndexError
  end.

Definition MP4_index0 (v : MP4Value) : result PyVal :=
  match v with
  | Texts (s :: _) => Ok (PyStr s)
  | Covers (c :: _) => Ok (PyCover c)
  | _ => Raise IndexError
  end.

(** [try: ... except Exception: return None] *)
Definition try_except {A : Type} (body : result A) : option A :=
  match body with
  | Ok a => Some a
  | Raise _ => None
  end.

(** The body of the Ogg branch of [get_tags], the same for both loaders. *)
Definition get_tags_ogg (audio : VComment) (tags : gmap string PyVal)
  : result (gmap string PyVal) :=
  title ← (l ← get VC_getitem (Some audio) "title" ["Not set"] ; index0 l) ;
  artist ← (l ← get VC_getitem (Some audio) "artist" ["Not set"] ; index0 l) ;
  album ← (l ← get VC_getitem (Some audio) "album" ["Not set"] ; index0 l) ;
  year ← (l ← get VC_getitem (Some audio) "date" ["Not set"] ; index0 l) ;
  genre ← (l ← get VC_getitem (Some audio) "genre" ["Not set"] ; index0 l) ;
  has_cover ← (b ← contains VC_getitem (Some audio) "metadata_block_picture" ;
                 if (b : bool) then Ok true
                 else contains VC_getitem (Some audio) "coverart") ;
  Ok (<["has_cover" := PyBool has_cover]>
      (<["genre" := genre]> (<["year" := year]> (<["album" := album]>
      (<["artist" := artist]> (<["title" := title]> tags)))))).

(** [MusicTagEditor.get_tags(filepath)], on the file [f] found at
    [filepath].  [None] is the [return None] of the handler. *)
Definition get_tags (filepath : string) (f : file) : option (gmap string PyVal) :=
  let ext := ext_of filepath in
  let tags : gmap string PyVal := ∅ in
  try_except
    match codec_of_ext ext with
    | Some MP3 =>
        audio ← load_MP3 f ;
        title ← get ID3_getitem audio "TIT2" (inr "Not set") ;
        artist ← get ID3_getitem audio "TPE1" (inr "Not set") ;
        album ← get ID3_getitem audio "TALB" (inr "Not set") ;
        year ← get ID3_getitem audio "TDRC" (inr "Not set") ;
        genre ← get ID3_getitem audio "TCON" (inr "Not set") ;
        has_cover ← match audio with
                      | Some t =>
                          if bool_decide (t = ∅) then Ok false
                          else contains dict_getitem (Some t) "APIC:"
                      | None => Ok false
                      end ;
        Ok (<["has_cover" := PyBool has_cover]>
            (<["genre" := PyStr (str genre)]> (<["year" := PyStr (str year)]>
            (<["album" := PyStr (str album)]> (<["artist" := PyStr (str artist)]>
            (<["title" := PyStr (str title)]> tags))))))
    | Some FLAC =>
        audio ← load_FLAC f ;
        title ← (l ← get VC_getitem (flac_tags audio) "title" ["Not set"] ; index0 l) ;
        artist ← (l ← get VC_getitem (flac_tags audio) "artist" ["Not set"] ; index0 l) ;
        album ← (l ← get VC_getitem (flac_tags audio) "album" ["Not set"] ; index0 l) ;
        year ← (l ← get VC_getitem (flac_tags audio) "date" ["Not set"] ; index0 l) ;
        genre ← (l ← get VC_getitem (flac_tags audio) "genre" ["Not set"] ; index0 l) ;
        Ok (<["has_cover" := PyBool (0 <? length (flac_pictures audio))%nat]>
            (<["genre" := genre]> (<["year" := year]> (<["album" := album]>
            (<["artist" := artist]> (<["title" := title]> tags))))))
    | Some MP4 =>
        audio ← load_MP4 f ;
        title ← (v ← get dict_getitem audio "©nam" (Texts ["Not set"]) ; MP4_index0 v) ;
        artist ← (v ← get dict_getitem audio "©ART" (Texts ["Not set"]) ; MP4_index0 v) ;
        album ← (v ← get dict_getitem audio "©alb" (Texts ["Not set"]) ; MP4_index0 v) ;
        year ← (v ← get dict_getitem audio "©day" (Texts ["Not set"]) ; MP4_index0 v) ;
        genre ← (v ← get dict_getitem audio "©gen" (Texts ["Not set"]) ; MP4_index0 v) ;
        has_cover ← contains dict_getitem audio "covr" ;
        Ok (<["has_cover" := PyBool has_cover]>
            (<["genre" := genre]> (<["year" := year]> (<["album" := album]>
            (<["artist" := artist]> (<["title" := title]> tags))))))
    | Some OggVorbis => audio ← load_OggVorbis f ; get_tags_ogg audio tags
    | Some OggOpus => audio ← load_OggOpus f ; get_tags_ogg audio tags
    | None => Ok tags
    end.

(** [audio[key] = value] on a [FLAC] object: [FileType.__setitem__] adds an
    empty tag when the file has none. *)
Definition FLAC_setitem (key value : string) (audio : FLACBlocks) : result FLACBlocks :=
  let vc := match flac_tags audio with Some vc => vc | None => [] end in
  vc' ← VC_setitem key [value] vc ;
  Ok {| flac_tags := Some vc'; flac_pictures := flac_pictures audio |}.

(** [audio[key] = value] on an [MP4] object.  [MP4Tags] keeps the value as
    given and renders it on [save]; a [str] becomes one data atom, which the
    loader reads back as a one-element list. *)
Definition MP4_setitem (key : string) (value : MP4Value) (audio : option MP4Tags)
  : MP4Tags :=
  <[key := value]> (match audio with Some t => t | None => ∅ end).

(** [tag_map] of the M4A branch. *)
Definition tag_map : gmap string string :=
  <["genre" := "©gen"]> (<["year" := "©day"]> (<["album" := "©alb"]>
  (<["artist" := "©ART"]> (<["title" := "©nam"]> ∅)))).

(** [try: ...; return True / except Exception: return False], with the
    file left as it was when the body raises (nothing reaches the disk
    before [audio.save()], the last step of every branch). *)
Definition commit (f : file) (body : result file) : bool * file :=
  match body with
  | Ok f' => (true, f')
  | Raise _ => (false, f)
  end.

(** [MusicTagEditor.set_tag(filepath, tag_name, value)] *)
Definition set_tag {library : Library} (filepath tag_name value : string) (f : file)
  : bool * file :=
  let ext := ext_of filepath in
  commit f
    match codec_of_ext ext with
    | Some MP3 =>
        audio ← load_MP3 f ;
        let tags : ID3 := match audio with Some t => t | None => ∅ end in
        let tags :=
          if String.eqb tag_name "title" then <["TIT2" := TIT2 3 value]> tags
          else if String.eqb tag_name "artist" then <["TPE1" := TPE1 3 value]> tags
          else if String.eqb tag_name "album" then <["TALB" := TALB 3 value]> tags
          else if String.eqb tag_name "year" then <["TDRC" := TDRC 3 value]> tags
          else if String.eqb tag_name "genre" then <["TCON" := TCON 3 value]> tags
          else tags in
        Ok (saved tags)
    | Some FLAC =>
        audio ← load_FLAC f ;
        audio ← (if existsb (String.eqb tag_name) ["title"; "artist"; "album"; "genre"]
                   then FLAC_setitem tag_name value audio
                   else if String.eqb tag_name "year" then FLAC_setitem "date" value audio
                   else Ok audio) ;
        Ok (FLACFile audio)
    | Some MP4 =>
        audio ← load_MP4 f ;
        key ← dict_getitem tag_name tag_map ;
        Ok (MP4File (Some (MP4_setitem key (Texts [value]) audio)))
    | Some OggVorbis =>
        audio ← load_OggVorbis f ;
        audio ← (if String.eqb tag_name "year" then VC_setitem "date" [value] audio
                   else VC_setitem tag_name [value] audio) ;
        Ok (OggVorbisFile audio)
    | Some OggOpus =>
        audio ← load_OggOpus f ;
        audio ← (if String.eqb tag_name "year" then VC_setitem "date" [value] audio
                   else VC_setitem tag_name [value] audio) ;
        Ok (OggOpusFile audio)
    | None => Ok f
    end.

(** The image steps at the head of [set_cover]: open, convert to RGB unless
    the mode is RGB or RGBA, shrink into 1000 x 1000 when larger, save as
    JPEG with quality 90. *)
Definition normalize (image_data : PIL.bytes) : result PIL.bytes :=
  img ← PIL.open image_data ;
  let img := if negb (existsb (String.eqb (PIL.mode img)) ["RGB"; "RGBA"])
             then PIL.convert img "RGB" else img in
  let img := if (1000 <? PIL.width img)%Z || (1000 <? PIL.height img)%Z
             then PIL.thumbnail img (1000, 1000) else img in
  PIL.save_JPEG img 90.

Section SetCover.

Context {library : Library}.

(** [base64.b64encode(picture.write()).decode("ascii")]: the serialised
    picture block as printable text.  Nothing below depends on what the text
    is. *)
Variable b64encode_picture : Picture -> string.

(** The Ogg branch of [set_cover], after the file is loaded. *)
Definition set_cover_ogg (image_data : PIL.bytes) (audio : VComment)
  : result VComment :=
  let picture := {| pic_type := 3; pic_mime := "image/jpeg";
                    pic_desc := "Cover"; pic_data := image_data |} in
  let picture_data := b64encode_picture picture in
  VC_setitem "metadata_block_picture" [picture_data] audio.

(** [MusicTagEditor.set_cover(filepath, image_data)] *)
Definition set_cover (filepath : string) (image_data : PIL.bytes) (f : file)
  : bool * file :=
  let ext := ext_of filepath in
  commit f
    (image_data ← normalize image_data ;
     match codec_of_ext ext with
     | Some MP3 =>
         audio ← load_MP3 f ;
         let tags : ID3 := match audio with Some t => t | None => ∅ end in
         let tags := delall "APIC" tags in
         let tags := <["APIC" := APIC 3 "image/jpeg" 3 "Cover" image_data]> tags in
         Ok (saved tags)
     | Some FLAC =>
         audio ← load_FLAC f ;
         let pictures : list Picture := [] in
         let picture := {| pic_type := 3; pic_mime := "image/jpeg";
                           pic_desc := "Cover"; pic_data := image_data |} in
         Ok (FLACFile {| flac_tags := flac_tags audio;
                         flac_pictures := pictures ++ [picture] |})
     | Some MP4 =>
         audio ← load_MP4 f ;
         Ok (MP4File (Some (MP4_setitem "covr"
               (Covers [{| cover_data := image_data; imageformat := FORMAT_JPEG |}])
               audio)))
     | Some OggVorbis =>
         audio ← load_OggVorbis f ;
         audio ← set_cover_ogg image_data audio ;
         Ok (OggVorbisFile audio)
     | Some OggOpus =>
         audio ← load_OggOpus f ;
         audio ← set_cover_ogg image_data audio ;
         Ok (OggOpusFile audio)
     | None => Ok f
     end).

End SetCover.

(** ** The conversation handler [handle_audio_file] *)

Inductive State := WAITING_FILE | SELECTING_TAG | EDITING_TAG | UPLOADING_COVER.

Definition CURRENT_FILE : string := "current_file".
Definition CURRENT_TAG : string := "current_tag".
Definition FILE_FORMAT : string := "file_format".
Definition MENU_MESSAGE_ID : string := "menu_message_id".

(** A Telegram attachment and the message that carries it. *)
Record Attachment := { file_name : string; file_unique_id : string }.
Record Message := { audio : option Attachment; document : option Attachment }.

(** The texts the handler sends, by their content. *)
Inductive Text :=
| PleaseSendAudio
| UnsupportedFileFormat
| DownloadingFile
| ErrorReadingTags
| CurrentTags (title artist album year genre : PyVal) (cover_set : bool)
| ErrorProcessingFile.

(** What the handler does to the outside, in order. *)
Inductive Event :=
| Reply (text : Text)
| Download (filepath : string)
| ReadTags (filepath : string).

(** [os.path.join(a, b)] *)
Definition path_join (a b : string) : string :=
  if String.prefix "/" b then b
  else if String.eqb a "" || String.eqb (Py.drop (String.length a - 1) a) "/"
       then a +:+ b
       else a +:+ "/" +:+ b.

(** Truth value of a dictionary entry in [if tags["has_cover"]]. *)
Definition truthy (v : PyVal) : bool :=
  match v with
  | PyStr s => negb (String.eqb s "")
  | PyBool b => b
  | PyCover _ => true
  | PyInt n => negb (n =? 0)%Z
  end.

(** The part of [handle_audio_file] inside its [try], after the status
    message is sent.  [downloaded] is what the download puts at [filepath],
    or the exception it raises; the result carries the next state, the
    events and the new [user_data]. *)
Definition handle_download (temp_dir : string) (file : Attachment) (ext : string)
    (downloaded : result Mutagen.file) (message_id : Z)
    (user_data : gmap string PyVal)
  : result (State * list Event * gmap string PyVal) :=
  let filepath := path_join temp_dir (file_unique_id file +:+ ext) in
  f ← downloaded ;
  let user_data := <[FILE_FORMAT := PyStr ext]>
                   (<[CURRENT_FILE := PyStr filepath]> user_data) in
  match get_tags filepath f with
  | None =>
      Ok (WAITING_FILE,
          [Download filepath; ReadTags filepath; Reply ErrorReadingTags],
          user_data)
  | Some tags =>
      has_cover ← dict_getitem "has_cover" tags ;
      title ← dict_getitem "title" tags ;
      artist ← dict_getitem "artist" tags ;
      album ← dict_getitem "album" tags ;
      year ← dict_getitem "year" tags ;
      genre ← dict_getitem "genre" tags ;
      Ok (SELECTING_TAG,
          [Download filepath; ReadTags filepath;
           Reply (CurrentTags title artist album year genre (truthy has_cover))],
          <[MENU_MESSAGE_ID := PyInt message_id]> user_data)
  end.

(** [if message.audio: file = message.audio elif message.document: file =
    message.document else: ...] *)
Definition attachment (message : Message) : option Attachment :=
  match audio message with
  | Some file => Some file
  | None => document message
  end.

(** [handle_audio_file(update, context)] *)
Definition handle_audio_file (temp_dir : string) (message : Message)
    (downloaded : result Mutagen.file) (message_id : Z)
    (user_data : gmap string PyVal)
  : State * list Event * gmap string PyVal :=
  match attachment message with
  | None => (WAITING_FILE, [Reply PleaseSendAudio], user_data)
  | Some file =>
      let filename := file_name file in
      let ext := ext_of filename in
      if negb (ext_supported ext) then
        (WAITING_FILE, [Reply UnsupportedFileFormat], user_data)
      else
        match handle_download temp_dir file ext downloaded message_id user_data with
        | Ok (state, events, user_data') =>
            (state, Reply DownloadingFile :: events, user_data')
        | Raise _ =>
            (WAITING_FILE, [Reply DownloadingFile; Reply ErrorProcessingFile],
             match downloaded with
             | Ok _ =>
                 <[FILE_FORMAT := PyStr ext]>
                 (<[CURRENT_FILE :=
                      PyStr (path_join temp_dir (file_unique_id file +:+ ext))]>
                  user_data)
             | Raise _ => user_data
             end)
        end
  end.

(** ** Notions of the specification, in terms of the code *)

(** Format Detector: the extension check of [handle_audio_file], then the
    branch the codec layer takes. *)
Definition detect (filename : string) : option FormatKind :=
  if ext_supported (ext_of filename) then codec_of_ext (ext_of filename)
  else None.

(** The extension that selects each kind. *)
Definition kind_extension (k : FormatKind) : string :=
  match k with
  | MP3 => ".mp3" | FLAC => ".flac" | MP4 => ".m4a"
  | OggVorbis => ".ogg" | OggOpus => ".opus"
  end.

(** The closed set of fields and the [tag_name] each goes by. *)
Inductive FieldKey := Title | Artist | Album | Year | Genre.

#[global] Instance FieldKey_eq_dec : EqDecision FieldKey.
Proof. solve_decision. Defined.

Definition tag_name_of (k : FieldKey) : string :=
  match k with
  | Title => "title" | Artist => "artist" | Album => "album"
  | Year => "year" | Genre => "genre"
  end.


(** The kind of container a file holds. *)
Definition kind_of_file (f : file) : option FormatKind :=
  match f with
  | MP3File _ => Some MP3
  | FLACFile _ => Some FLAC
  | MP4File _ => Some MP4
  | OggVorbisFile _ => Some OggVorbis
  | OggOpusFile _ => Some OggOpus
  | Unparsable => None
  end.

(** A tag as the ID3 loader builds it: every frame sits under its own
    [HashKey]; the time stamp frames are those of ID3v2.4, the other text
    frames carry another id that starts with "T", none of them one of the
    ids [update_to_v24] removes nor TXXX, whose hash key is longer; and no
    picture bears an image format of ID3v2.2. *)
Definition TIMESTAMP_IDS : list string := ["TDEN"; "TDOR"; "TDRC"; "TDRL"; "TDTG"].

Definition REMOVED_IDS : list string :=
  ["TYER"; "TDAT"; "TIME"; "TORY"; "TRDA"; "TSIZ"; "TXXX"].

Definition frame_ok (fr : Frame) : bool :=
  match fr with
  | TextFrame id _ _ =>
      String.prefix "T" id
      && negb (existsb (String.eqb id) TIMESTAMP_IDS)
      && negb (existsb (String.eqb id) REMOVED_IDS)
  | TimeStampTextFrame id _ _ => existsb (String.eqb id) TIMESTAMP_IDS
  | APIC _ mime _ _ _ => negb (existsb (String.eqb mime) ["PNG"; "JPG"])
  end.

Definition ID3_wf (tags : ID3) : Prop :=
  forallb (fun kv => String.eqb (HashKey (snd kv)) (fst kv) && frame_ok (snd kv))
          (map_to_list tags) = true.

(** The genre of the tag is at rest: the loader, which parses the text of
    the genre frame anew on every load, leaves it as it is.  On a tag whose
    genre is not at rest every save changes the genre the next load finds,
    or leaves a file on which the next load raises. *)
Definition genre_at_rest {library : Library} (tags : ID3) : bool :=
  match tags !! "TCON" with
  | Some (TextFrame _ _ text) => bool_decide (genres text = Ok text)
  | _ => true
  end.

(** The files the properties below are about: an MP3 file holds a tag as
    the loader builds it, with the genre at rest. *)
Definition file_wf {library : Library} (f : file) : Prop :=
  match f with
  | MP3File (Some tags) =>
      forallb (fun kv => String.eqb (HashKey (snd kv)) (fst kv) && frame_ok (snd kv))
              (map_to_list tags)
      && genre_at_rest tags = true
  | _ => True
  end.

Definition is_APIC (fr : Frame) : bool :=
  match fr with
  | APIC _ _ _ _ _ => true
  | _ => false
  end.





(** One field of the record [get_tags] returns, if it returns one. *)
Definition read_field (filepath : string) (f : file) (key : string) : option PyVal :=
  match get_tags filepath f with
  | Some tags => tags !! key
  | None => None
  end.

(** A year written as four decimal digits. *)
Definition is_digit (c : ascii) : bool :=
  existsb (Ascii.eqb c) ["0"; "1"; "2"; "3"; "4"; "5"; "6"; "7"; "8"; "9"]%char.

Definition is_year4 (value : string) : bool :=
  match value with
  | String a (String b (String c (String d EmptyString))) =>
      is_digit a && is_digit b && is_digit c && is_digit d
  | _ => false
  end.

(** The key each format keeps a field under: the frame ids read and written
    by the MP3 branches, the atom names of the M4A branches, and the comment
    names of the FLAC and Ogg branches. *)
Definition storage_key (kind : FormatKind) (k : FieldKey) : string :=
  match kind, k with
  | MP3, Title => "TIT2" | MP3, Artist => "TPE1" | MP3, Album => "TALB"
  | MP3, Year => "TDRC" | MP3, Genre => "TCON"
  | MP4, Title => "©nam" | MP4, Artist => "©ART" | MP4, Album => "©alb"
  | MP4, Year => "©day" | MP4, Genre => "©gen"
  | _, Title => "title" | _, Artist => "artist" | _, Album => "album"
  | _, Year => "date" | _, Genre => "genre"
  end.

(** The expression [get_tags] evaluates for one field, given the key. *)
Definition read_stored (f : file) (key : string) : result PyVal :=
  match f with
  | MP3File tags =>
      x ← get ID3_getitem tags key (inr "Not set") ; Ok (PyStr (str x))
  | FLACFile audio =>
      l ← get VC_getitem (flac_tags audio) key ["Not set"] ; index0 l
  | MP4File tags =>
      v ← get dict_getitem tags key (Texts ["Not set"]) ; MP4_index0 v
  | OggVorbisFile vc | OggOpusFile vc =>
      l ← get VC_getitem (Some vc) key ["Not set"] ; index0 l
  | Unparsable => Raise MutagenError
  end.

(** The expression [get_tags] evaluates for [has_cover]. *)
Definition read_cover (f : file) : result bool :=
  match f with
  | MP3File (Some t) =>
      if bool_decide (t = ∅) then Ok false
      else contains dict_getitem (Some t) "APIC:"
  | MP3File None => Ok false
  | FLACFile audio => Ok (0 <? length (flac_pictures audio))%nat
  | MP4File tags => contains dict_getitem tags "covr"
  | OggVorbisFile vc | OggOpusFile vc =>
      b ← contains VC_getitem (Some vc) "metadata_block_picture" ;
      if (b : bool) then Ok true else contains VC_getitem (Some vc) "coverart"
  | Unparsable => Raise MutagenError
  end.

(** The dictionary [get_tags] builds from the six values. *)
Definition tag_record (title artist album year genre : PyVal) (has_cover : bool)
  : gmap string PyVal :=
  <["has_cover" := PyBool has_cover]>
  (<["genre" := genre]> (<["year" := year]> (<["album" := album]>
  (<["artist" := artist]> (<["title" := title]> ∅))))).

(** What [get_tags] returns for a text frame whose text is [s] once the
    tag has been saved: a frame whose text is empty is not written, and the
    field reads as one that is not set. *)
Definition unless_empty (s : string) : string :=
  if String.eqb s "" then "Not set" else s.

(** What a text written to a field reads back as.  In the FLAC, M4A and Ogg
    formats it is the text itself.  In an MP3 file an empty text is not
    stored; the year is a list of time stamps and reads back as the stamps
    render; the genre reads back as the loader parses it, and when the
    loader raises on it there is nothing to read. *)
Definition stored_text {library : Library} (kind : FormatKind) (k : FieldKey) (value : string)
  : result string :=
  match kind, k with
  | MP3, Year =>
      Ok (unless_empty (Py.join "," (map stamp_text (map stamp (Py.split "," value)))))
  | MP3, Genre =>
      if String.eqb value "" then Ok "Not set"
      else text ← genres (Py.split NUL value) ; Ok (Py.join (String NUL "") text)
  | MP3, _ => Ok (unless_empty value)
  | _, _ => Ok value
  end.

(** What a value [get_tags] returned reads as once the file has been
    saved again. *)
Definition resaved (kind : FormatKind) (v : PyVal) : PyVal :=
  match kind, v with
  | MP3, PyStr s => PyStr (unless_empty s)
  | _, _ => v
  end.


(** ** Sample files and images

    The examples run with a library that reads no number beyond plain ASCII
    and finds no genre to replace. *)

Definition sample_library : Library :=
  {| int_beyond := fun _ => None; genres := fun text => Ok text |}.

(** A library whose genre parser raises on the text "²", as the one of
    mutagen does: [str.isdigit] takes the superscript for a digit and [int]
    refuses it. *)
Definition refusing_library : Library :=
  {| int_beyond := fun _ => None;
     genres := fun text =>
       if existsb (String.eqb "²") text then Raise ValueError else Ok text |}.

Section Samples.

#[local] Existing Instance sample_library.

Definition sample_cover : PIL.bytes :=
  PIL.Encoded "PNG" 6 {| PIL.mode := "P"; PIL.width := 2000; PIL.height := 1500 |}.

Definition sample_jpeg : PIL.bytes :=
  PIL.Encoded "JPEG" 90 {| PIL.mode := "RGB"; PIL.width := 300; PIL.height := 300 |}.

(** An MP3 file with an artist, a year and two pictures, one of them with
    an empty description. *)
Definition sample_mp3 : file :=
  MP3File (Some (<["APIC:back" := APIC 3 "image/png" 4 "back" sample_cover]>
                 (<["APIC:" := APIC 0 "image/jpeg" 3 "" sample_jpeg]>
                 (<["TDRC" := TDRC 3 "1987-12-28"]>
                 (<["TPE1" := TPE1 3 "Nina"]> ∅))))).


Definition sample_flac : file :=
  FLACFile {| flac_tags := Some [("TITLE", "Old"); ("artist", "Nina"); ("ARTIST", "Band")];
              flac_pictures := [{| pic_type := 3; pic_mime := "image/png";
                                   pic_desc := ""; pic_data := sample_cover |}] |}.

Definition sample_m4a : file :=
  MP4File (Some (<["covr" := Covers [{| cover_data := sample_jpeg; imageformat := 13 |};
                                     {| cover_data := sample_cover; imageformat := 14 |}]]>
                 (<["©nam" := Texts ["Old"]]> ∅))).

(** An Ogg Vorbis file with a title and a cover under the legacy name. *)
Definition sample_ogg : file :=
  OggVorbisFile [("TITLE", "Old"); ("coverart", "aGVsbG8=")].

End Samples.

(** ** Further notions used in the properties of the codec layer *)

(** The comments of a FLAC or Ogg file, in file order. *)
Definition comments_of (f : file) : list (string * string) :=
  match f with
  | FLACFile audio => match flac_tags audio with Some vc => vc | None => [] end
  | OggVorbisFile vc | OggOpusFile vc => vc
  | _ => []
  end.

(** The frame the MP3 branch of [set_tag] builds for a field. *)
Definition field_frame {library : Library} (k : FieldKey) (value : string) : Frame :=
  match k with
  | Title => TIT2 3 value | Artist => TPE1 3 value | Album => TALB 3 value
  | Year => TDRC 3 value | Genre => TCON 3 value
  end.

(** The frame the next load returns for the frame [set_tag] builds for a
    field: none when the frame is not written, and for the genre the frame
    with the text as the loader parses it. *)
Definition reloaded_field {library : Library} (k : FieldKey) (value : string)
  : result (option Frame) :=
  if is_written (field_frame k value) then
    match k with
    | Genre =>
        text ← genres (Py.split NUL value) ; Ok (Some (TextFrame "TCON" 3 text))
    | _ => Ok (Some (reread (field_frame k value)))
    end
  else Ok None.

(** A dictionary with the frame under [key] replaced or removed. *)
Definition with_frame (key : string) (fr : option Frame) (tags : ID3) : ID3 :=
  match fr with
  | Some fr => <[key := fr]> tags
  | None => delete key tags
  end.

(** ** Further notions used in the properties of the handlers *)

(** [c in s] for a character [c]. *)
Fixpoint has_char (c : ascii) (s : string) : bool :=
  match s with
  | EmptyString => false
  | String a s' => Ascii.eqb a c || has_char c s'
  end.

(** ** The other conversation handlers

    The handlers act on the files stored on disk, a dictionary from paths
    to files, and on [user_data].  Under [CURRENT_FILE] and [CURRENT_TAG]
    the handlers only ever store a [str] (lines 292, 434 and 446), which is
    how these keys are read here. *)

Abbreviation Disk := (gmap string file).

(** [context.user_data.get(key)], for the keys that hold a [str]. *)
Definition user_str (user_data : gmap string PyVal) (key : string) : option string :=
  match user_data !! key with
  | Some (PyStr s) => Some s
  | _ => None
  end.

(** The file the tests [if not filepath or not os.path.exists(filepath)] and
    [if filepath and os.path.exists(filepath)] let through, with its path. *)
Definition current_file (disk : Disk) (user_data : gmap string PyVal)
  : option (string * file) :=
  match user_str user_data CURRENT_FILE with
  | Some filepath =>
      if String.eqb filepath "" then None
      else match disk !! filepath with
           | Some f => Some (filepath, f)
           | None => None
           end
  | None => None
  end.

(** The texts these handlers send, by their content. *)
Inductive Note :=
| Welcome
| FileNotFound
| TagsMenu (title artist album year genre : PyVal) (cover_set : bool)
| PreparingFile
| SendAnother
| AskCover
| AskValue (label : string)
| TagUpdated (tag_name : string)
| TagFailed (tag_name : option string)
| WhatNext
| FileNotFoundAudio
| PleaseSendImage
| ProcessingImage
| CoverUpdated (cover_set : bool)
| CoverFailed
| ErrorProcessingImage
| Cancelled.

(** What these handlers do to the chat, in order.  Deleting a message sits
    in a [try] whose failure is ignored; the other calls to Telegram are
    taken to go through, but for the download of an image, which
    [handle_cover_upload] guards. *)
Inductive Action :=
| Answer
| DeleteMessage
| Say (text : Note)
| SendDocument (document : file) (filename : string).

(** An exception that leaves a handler. *)
Inductive Raised := RaisedKeyError | RaisedTypeError | RaisedAttributeError.

(** The end of a handler call: the state returned or the exception raised,
    what was sent, and the disk and [user_data] it leaves. *)
Record Outcome := {
  next : Raised + State;
  actions : list Action;
  files : Disk;
  data : gmap string PyVal }.

(** [os.path.basename(p)] *)
Definition basename (p : string) : string :=
  Py.drop (Z.to_nat (Py.rfind "/" p + 1)) p.

(** [s.replace("edit_", "")]: every occurrence of "edit_", read from the
    left, is left out; [skip] counts the characters of an occurrence still
    to pass. *)
Fixpoint remove_edit_ (s : string) (skip : nat) : string :=
  match s with
  | EmptyString => ""
  | String a s' =>
      match skip with
      | S skip' => remove_edit_ s' skip'
      | O =>
          if String.prefix "edit_" s then remove_edit_ s' 4
          else String a (remove_edit_ s' 0)
      end
  end.

(** [tag_labels] of [tag_selection]. *)
Definition tag_labels : gmap string string :=
  <["genre" := "Genre"]> (<["year" := "Year"]> (<["album" := "Album"]>
  (<["artist" := "Artist"]> (<["title" := "Title"]> ∅)))).

(** Leaves out the longest prefix of [s] made of strings of [ws]; [skip]
    counts the characters of the string being passed. *)
Fixpoint strip_prefix (ws : list string) (s : string) (skip : nat) : string :=
  match s with
  | EmptyString => ""
  | String a s' =>
      match skip with
      | S skip' => strip_prefix ws s' skip'
      | O =>
          match List.find (fun w => String.prefix w s) ws with
          | Some w => strip_prefix ws s' (String.length w - 1)
          | None => s
          end
      end
  end.

(** [s.strip()] *)
Definition strip (s : string) : string :=
  let s := strip_prefix WHITESPACE s 0 in
  String.rev (strip_prefix (map String.rev WHITESPACE) (String.rev s) 0).

(** [start] *)
Definition start (disk : Disk) (user_data : gmap string PyVal) : Outcome :=
  {| next := inr WAITING_FILE; actions := [Say Welcome];
     files := disk; data := user_data |}.

(** The text [tag_selection] builds from the dictionary of [get_tags]:
    [tags["has_cover"]] first, then the five fields. *)
Definition tags_menu (tags : gmap string PyVal) : result Note :=
  has_cover ← dict_getitem "has_cover" tags ;
  title ← dict_getitem "title" tags ;
  artist ← dict_getitem "artist" tags ;
  album ← dict_getitem "album" tags ;
  year ← dict_getitem "year" tags ;
  genre ← dict_getitem "genre" tags ;
  Ok (TagsMenu title artist album year genre (truthy has_cover)).

(** [tag_selection], by [query.data]. *)
Definition tag_selection (query_data : string) (disk : Disk)
    (user_data : gmap string PyVal) : Outcome :=
  if String.eqb query_data "edit_more" then
    match current_file disk user_data with
    | None =>
        {| next := inr WAITING_FILE;
           actions := [Answer; DeleteMessage; Say FileNotFound];
           files := disk; data := user_data |}
    | Some (filepath, f) =>
        match get_tags filepath f with
        | None =>
            {| next := inl RaisedTypeError; actions := [Answer; DeleteMessage];
               files := disk; data := user_data |}
        | Some tags =>
            match tags_menu tags with
            | Ok menu =>
                {| next := inr SELECTING_TAG;
                   actions := [Answer; DeleteMessage; Say menu];
                   files := disk; data := user_data |}
            | Raise _ =>
                {| next := inl RaisedKeyError; actions := [Answer; DeleteMessage];
                   files := disk; data := user_data |}
            end
        end
    end
  else if String.eqb query_data "done" then
    match current_file disk user_data with
    | Some (filepath, f) =>
        {| next := inr WAITING_FILE;
           actions := [Answer; DeleteMessage; Say PreparingFile;
                       SendDocument f (basename filepath); DeleteMessage;
                       Say SendAnother];
           files := delete filepath disk; data := ∅ |}
    | None =>
        {| next := inr WAITING_FILE; actions := [Answer];
           files := disk; data := user_data |}
    end
  else if String.eqb query_data "edit_cover" then
    {| next := inr UPLOADING_COVER;
       actions := [Answer; DeleteMessage; Say AskCover];
       files := disk; data := <[CURRENT_TAG := PyStr "cover"]> user_data |}
  else
    let tag_name := remove_edit_ query_data 0 in
    let user_data := <[CURRENT_TAG := PyStr tag_name]> user_data in
    match tag_labels !! tag_name with
    | Some label =>
        {| next := inr EDITING_TAG;
           actions := [Answer; DeleteMessage; Say (AskValue label)];
           files := disk; data := user_data |}
    | None =>
        {| next := inl RaisedKeyError; actions := [Answer; DeleteMessage];
           files := disk; data := user_data |}
    end.

(** [MusicTagEditor.set_tag(filepath, None, value)], the call
    [handle_tag_edit] makes when [CURRENT_TAG] is not set.  [None] equals no
    field name, so an MP3 or FLAC file is only saved again; [tag_map[None]]
    is a KeyError and a comment named [None] a TypeError, both caught like
    a failed load. *)
Definition set_tag_None {library : Library} (filepath : string) (f : file) : bool * file :=
  match codec_of_ext (ext_of filepath) with
  | Some MP3 =>
      commit f
        (audio ← load_MP3 f ;
         Ok (saved (match audio with Some t => t | None => ∅ end)))
  | Some FLAC => commit f (audio ← load_FLAC f ; Ok (FLACFile audio))
  | Some MP4 | Some OggVorbis | Some OggOpus => (false, f)
  | None => (true, f)
  end.

(** [handle_tag_edit], by [update.message.text]. *)
Definition handle_tag_edit {library : Library} (text : string) (disk : Disk)
    (user_data : gmap string PyVal) : Outcome :=
  let new_value := strip text in
  let tag_name := user_str user_data CURRENT_TAG in
  match current_file disk user_data with
  | None =>
      {| next := inr WAITING_FILE; actions := [Say FileNotFound];
         files := disk; data := user_data |}
  | Some (filepath, f) =>
      match tag_name with
      | Some tag_name =>
          let r := set_tag filepath tag_name new_value f in
          {| next := inr SELECTING_TAG;
             actions := [Say (if fst r then TagUpdated tag_name
                              else TagFailed (Some tag_name));
                         Say WhatNext];
             files := <[filepath := snd r]> disk; data := user_data |}
      | None =>
          let r := set_tag_None filepath f in
          if fst r then
            {| next := inl RaisedAttributeError; actions := [];
               files := <[filepath := snd r]> disk; data := user_data |}
          else
            {| next := inr SELECTING_TAG;
               actions := [Say (TagFailed None); Say WhatNext];
               files := <[filepath := snd r]> disk; data := user_data |}
      end
  end.

(** The message [handle_cover_upload] receives: the sizes of a photo and a
    document, either of which may be missing. *)
Record ImageMessage := {
  photo : list Attachment;
  image_document : option Attachment }.

(** [tags and tags.get("has_cover")], as a truth value. *)
Definition cover_status (tags : option (gmap string PyVal)) : bool :=
  match tags with
  | None => false
  | Some t =>
      if bool_decide (t = ∅) then false
      else match t !! "has_cover" with
           | Some v => truthy v
           | None => false
           end
  end.

Section Handlers.

Context {library : Library}.

Variable b64encode_picture : Picture → string.

(** [handle_cover_upload]; [downloaded] is what the download of the image
    yields, bytes or an exception. *)
Definition handle_cover_upload (message : ImageMessage)
    (downloaded : result PIL.bytes) (disk : Disk)
    (user_data : gmap string PyVal) : Outcome :=
  match current_file disk user_data with
  | None =>
      {| next := inr WAITING_FILE; actions := [Say FileNotFoundAudio];
         files := disk; data := user_data |}
  | Some (filepath, f) =>
      match photo message, image_document message with
      | [], None =>
          {| next := inr UPLOADING_COVER; actions := [Say PleaseSendImage];
             files := disk; data := user_data |}
      | _, _ =>
          match downloaded with
          | Raise _ =>
              {| next := inr UPLOADING_COVER;
                 actions := [Say ProcessingImage; Say ErrorProcessingImage];
                 files := disk; data := user_data |}
          | Ok image_bytes =>
              let r := set_cover b64encode_picture filepath image_bytes f in
              let tags := get_tags filepath (snd r) in
              {| next := inr SELECTING_TAG;
                 actions := [Say ProcessingImage;
                             Say (if fst r then CoverUpdated (cover_status tags)
                                  else CoverFailed);
                             Say WhatNext];
                 files := <[filepath := snd r]> disk; data := user_data |}
          end
      end
  end.

End Handlers.

(** [cancel] *)
Definition cancel (disk : Disk) (user_data : gmap string PyVal) : Outcome :=
  {| next := inr WAITING_FILE; actions := [Say Cancelled];
     files := match current_file disk user_data with
              | Some (filepath, _) => delete filepath disk
              | None => disk
              end;
     data := ∅ |}.

(** The texts that report a failure or ask for the input again. *)
Definition is_failure (text : Note) : bool :=
  match text with
  | FileNotFound | FileNotFoundAudio | TagFailed _ | PleaseSendImage
  | CoverFailed | ErrorProcessingImage => true
  | _ => false
  end.

(** * Properties *)

(** ** Strings and extensions *)

Section Properties.

Context {library : Library}.

Section StringFacts.

Local Ltac by_cases_on_char a :=
  destruct a as [[] [] [] [] [] [] [] []]; reflexivity.

Lemma lower_char_idem a : Py.lower_char (Py.lower_char a) = Py.lower_char a.
Proof. by_cases_on_char a. Qed.

Lemma lower_char_eqb_dot a : Ascii.eqb (Py.lower_char a) "." = Ascii.eqb a ".".
Proof. by_cases_on_char a. Qed.

Lemma lower_char_eqb_slash a : Ascii.eqb (Py.lower_char a) "/" = Ascii.eqb a "/".
Proof. by_cases_on_char a. Qed.

Lemma lower_idem s : Py.lower (Py.lower s) = Py.lower s.
Proof. induction s as [|a s IH]; simpl; [done|]. by rewrite lower_char_idem, IH. Qed.

Lemma rfind_from_lower c s i last :
  (∀ a, Ascii.eqb (Py.lower_char a) c = Ascii.eqb a c) →
  Py.rfind_from c (Py.lower s) i last = Py.rfind_from c s i last.
Proof.
  intros Hc. revert i last.
  induction s as [|a s IH]; intros i last; simpl; [done|].
  by rewrite Hc, IH.
Qed.

Lemma get_lower n s :
  String.get n (Py.lower s) = Py.lower_char <$> String.get n s.
Proof.
  revert n. induction s as [|a s IH]; intros [|n]; simpl; auto.
Qed.

Lemma splitext_scan_lower p i n :
  Py.splitext_scan (Py.lower p) i n = Py.splitext_scan p i n.
Proof.
  revert i. induction n as [|n IH]; intros i; simpl; [done|].
  rewrite get_lower. destruct (String.get i p) as [a|]; simpl; [|done].
  by rewrite lower_char_eqb_dot, IH.
Qed.

Lemma take_lower n s : Py.take n (Py.lower s) = Py.lower (Py.take n s).
Proof.
  revert n. induction s as [|a s IH]; intros [|n]; simpl; try done.
  by rewrite IH.
Qed.

Lemma drop_lower n s : Py.drop n (Py.lower s) = Py.lower (Py.drop n s).
Proof.
  revert n. induction s as [|a s IH]; intros [|n]; simpl; try done.
Qed.

(** Lowering a path lowers both halves of its split: the positions of "/"
    and "." do not depend on letter case. *)
Lemma splitext_lower p :
  Py.splitext (Py.lower p)
  = (Py.lower (fst (Py.splitext p)), Py.lower (snd (Py.splitext p))).
Proof.
  unfold Py.splitext, Py.rfind.
  rewrite !rfind_from_lower
    by (apply lower_char_eqb_slash || apply lower_char_eqb_dot).
  rewrite splitext_scan_lower.
  destruct (_ && _); simpl; [|done].
  by rewrite take_lower, drop_lower.
Qed.

Lemma ext_of_lower p : ext_of (Py.lower p) = ext_of p.
Proof. unfold ext_of. rewrite splitext_lower; simpl. apply lower_idem. Qed.

Lemma string_eqb_true (s t : string) : String.eqb s t = true ↔ s = t.
Proof. apply String.eqb_eq. Qed.

Lemma string_eqb_false (s t : string) : String.eqb s t = false ↔ s ≠ t.
Proof. apply String.eqb_neq. Qed.

(** The codec branch exists exactly for the extensions [handle_audio_file]
    lets through. *)
Lemma codec_of_ext_supported ext :
  ext_supported ext = negb (bool_decide (codec_of_ext ext = None)).
Proof.
  unfold ext_supported, codec_of_ext, SUPPORTED_EXTENSIONS; simpl.
  destruct (String.eqb ext ".mp3"); [done|].
  destruct (String.eqb ext ".flac"); [done|].
  destruct (String.eqb ext ".m4a"); [done|].
  destruct (String.eqb ext ".ogg"); [done|].
  by destruct (String.eqb ext ".opus").
Qed.

Lemma codec_of_ext_None ext :
  ext_supported ext = false ↔ codec_of_ext ext = None.
Proof.
  rewrite codec_of_ext_supported, negb_false_iff. apply bool_decide_eq_true.
Qed.

End StringFacts.

Lemma detect_Some f k : detect f = Some k ↔ ext_of f = kind_extension k.
Proof.
  unfold detect. rewrite codec_of_ext_supported.
  destruct (codec_of_ext (ext_of f)) as [k'|] eqn:Hc; simpl.
  - revert Hc. unfold codec_of_ext; simpl.
    destruct (String.eqb _ ".mp3") eqn:E1;
      [apply string_eqb_true in E1|apply string_eqb_false in E1].
    { intros [= <-]. rewrite E1. split; [by intros [= <-]|]. by destruct k. }
    destruct (String.eqb _ ".flac") eqn:E2;
      [apply string_eqb_true in E2|apply string_eqb_false in E2].
    { intros [= <-]. rewrite E2. split; [by intros [= <-]|]. by destruct k. }
    destruct (String.eqb _ ".m4a") eqn:E3;
      [apply string_eqb_true in E3|apply string_eqb_false in E3].
    { intros [= <-]. rewrite E3. split; [by intros [= <-]|]. by destruct k. }
    destruct (String.eqb _ ".ogg") eqn:E4;
      [apply string_eqb_true in E4|apply string_eqb_false in E4].
    { intros [= <-]. rewrite E4. split; [by intros [= <-]|]. by destruct k. }
    destruct (String.eqb _ ".opus") eqn:E5;
      [apply string_eqb_true in E5|apply string_eqb_false in E5]; [|done].
    intros [= <-]. rewrite E5. split; [by intros [= <-]|]. by destruct k.
  - split; [done|]. intros He. rewrite He in Hc. by destruct k.
Qed.

Lemma detect_None f : detect f = None ↔ ¬ In (ext_of f) SUPPORTED_EXTENSIONS.
Proof.
  unfold detect. destruct (ext_supported (ext_of f)) eqn:Hs.
  - pose proof Hs as Hs'. rewrite codec_of_ext_supported in Hs'.
    apply negb_true_iff, bool_decide_eq_false in Hs'.
    split; [done|]. intros Hn. exfalso. apply Hn.
    apply existsb_exists in Hs as (e & He & Heq).
    apply string_eqb_true in Heq. by subst.
  - split; [|done]. intros _ Hin.
    assert (ext_supported (ext_of f) = true) as Ht; [|congruence].
    apply existsb_exists. exists (ext_of f). split; [done|].
    by apply string_eqb_true.
Qed.

(** C8. Format detection depends on the file name only through its
    extension and not on letter case; "song.MP3" and "song.mp3" are both MP3
    and "song.wav" is unsupported; a name is unsupported exactly when its
    lowered extension is outside the fixed list, and then
    [handle_audio_file] answers that the format is unsupported and stays in
    WAITING_FILE without downloading or reading the file. *)
Theorem detect_extension_case_insensitive :
  (∀ f g, snd (Py.splitext f) = snd (Py.splitext g) → detect f = detect g)
  ∧ (∀ f g, Py.lower f = Py.lower g → detect f = detect g)
  ∧ detect "song.MP3" = Some MP3
  ∧ detect "song.mp3" = Some MP3
  ∧ detect "song.wav" = None
  ∧ (∀ f k, detect f = Some k ↔ ext_of f = kind_extension k)
  ∧ (∀ f, detect f = None ↔ ¬ In (ext_of f) SUPPORTED_EXTENSIONS)
  ∧ (∀ temp_dir message file downloaded message_id user_data,
       attachment message = Some file →
       detect (file_name file) = None →
       handle_audio_file temp_dir message downloaded message_id user_data
       = (WAITING_FILE, [Reply UnsupportedFileFormat], user_data)).
Proof.
  split_and!; try reflexivity.
  - intros f g Hext. unfold detect, ext_of. by rewrite Hext.
  - intros f g Hlow. unfold detect.
    by rewrite <-(ext_of_lower f), <-(ext_of_lower g), Hlow.
  - apply detect_Some.
  - apply detect_None.
  - intros temp_dir message file downloaded message_id user_data Hatt Hdet.
    unfold handle_audio_file. rewrite Hatt.
    assert (ext_supported (ext_of (file_name file)) = false) as ->; [|done].
    apply codec_of_ext_None. unfold detect in Hdet.
    destruct (ext_supported _) eqn:Hs; [done|]. by apply codec_of_ext_None.
Qed.

(** ** The image steps of [set_cover] *)

Section ImageFacts.

Local Open Scope Q_scope.

(** [round_aspect] returns a positive integer less than one away from the
    number it rounds. *)
Lemma round_aspect_near (v : Q) (key : Z → Q) :
  0 < v →
  (1 ≤ PIL.round_aspect v key)%Z
  ∧ inject_Z (PIL.round_aspect v key) < v + 1
  ∧ v - 1 < inject_Z (PIL.round_aspect v key).
Proof.
  intros Hv. unfold PIL.round_aspect.
  pose proof (Qfloor_le v) as Hf1. pose proof (Qlt_floor v) as Hf2.
  pose proof (Qle_ceiling v) as Hc1. pose proof (Qceiling_lt v) as Hc2.
  rewrite inject_Z_plus in Hf2.
  unfold Zminus in Hc2. rewrite inject_Z_plus in Hc2.
  change (inject_Z 1) with 1 in Hf2. change (inject_Z (-1)) with (-1) in Hc2.
  set (c := if Qle_bool _ _ then _ else _).
  assert (inject_Z c <= v ∧ v < inject_Z c + 1
          ∨ v <= inject_Z c ∧ inject_Z c + -1 < v) as Hc.
  { subst c. destruct (Qle_bool _ _); [left|right]; split; assumption. }
  clearbody c. split; [lia|].
  destruct (Z.max_spec c 1) as [[Hlt ->]|[Hge ->]].
  - change (inject_Z 1) with 1.
    assert (inject_Z c <= 0) as Hc0.
    { change 0 with (inject_Z 0). rewrite <- Zle_Qle. lia. }
    destruct Hc as [[? ?]|[? ?]]; split; lra.
  - destruct Hc as [[? ?]|[? ?]]; split; lra.
Qed.

Lemma inject_Z_pos z : (0 < z)%Z → 0 < inject_Z z.
Proof. intros. change 0 with (inject_Z 0). by rewrite <- Zlt_Qlt. Qed.

(** The size [thumbnail] gives an image that exceeds 1000 x 1000: both sides
    between 1 and 1000, and the cross product of old and new sizes off by
    less than the longer old side, that is, the shorter new side less than
    one pixel away from its exact proportional length. *)
Lemma thumbnail_size m w h :
  (0 < w)%Z → (0 < h)%Z → (1000 < w ∨ 1000 < h)%Z →
  let t := PIL.thumbnail {| PIL.mode := m; PIL.width := w; PIL.height := h |}
                         (1000, 1000)%Z in
  PIL.mode t = m
  ∧ (1 ≤ PIL.width t ≤ 1000)%Z ∧ (1 ≤ PIL.height t ≤ 1000)%Z
  ∧ (Z.abs (PIL.width t * h - PIL.height t * w) < Z.max w h)%Z.
Proof.
  intros Hw Hh Hbig. unfold PIL.thumbnail, PIL.preserve_aspect_ratio; simpl.
  assert ((w <=? 1000)%Z && (h <=? 1000)%Z = false) as ->.
  { apply andb_false_iff. rewrite !Z.leb_gt. lia. }
  pose proof (inject_Z_pos w Hw) as HW. pose proof (inject_Z_pos h Hh) as HH.
  set (W := inject_Z w) in *. set (H := inject_Z h) in *.
  assert (W / H * H == W) as HA by (field; lra).
  assert (0 < W / H) as HApos by (apply Qlt_shift_div_l; lra).
  assert (1000 / (W / H) * W == 1000 * H) as HB by (field; lra).
  assert (0 < 1000 / (W / H)) as HBpos by (apply Qlt_shift_div_l; lra).
  set (A := W / H) in *.
  assert (1000 / 1000 == 1) as Hone by reflexivity.
  change (inject_Z 1000) with 1000.
  destruct (Qle_bool A (1000 / 1000)) eqn:Hle; simpl.
  - apply Qle_bool_iff in Hle.
    assert (A <= 1) as Hle1 by (rewrite Hone in Hle; exact Hle).
    match goal with |- context [PIL.round_aspect ?v ?k] =>
      destruct (round_aspect_near v k) as (H1 & H2 & H3); [lra|];
      set (x := PIL.round_aspect v k) in * end.
    assert (inject_Z x < 1001) as Hx by lra.
    change 1001 with (inject_Z 1001) in Hx. rewrite <- Zlt_Qlt in Hx.
    split; [reflexivity|]. split; [lia|]. split; [lia|].
    assert (inject_Z x * H - 1000 * W < H
            ∧ - H < inject_Z x * H - 1000 * W) as [Hu Hl].
    { split; nra. }
    assert (x * h - 1000 * w < h ∧ - h < x * h - 1000 * w)%Z as [Hu' Hl'].
    { rewrite !Zlt_Qlt. unfold Zminus.
      rewrite !inject_Z_plus, !inject_Z_opp, !inject_Z_mult.
      change (inject_Z 1000) with 1000. fold W H. split; lra. }
    lia.
  - assert (¬ A <= 1000 / 1000) as Hgt.
    { intros Hc. apply Qle_bool_iff in Hc. congruence. }
    assert (1 < A) as Hgt1.
    { apply Qnot_le_lt. intros Hc. apply Hgt. rewrite Hone. exact Hc. }
    assert (1000 / A <= 1000) as HBle.
    { apply Qle_shift_div_r; [lra|]. nra. }
    set (B := 1000 / A) in *.
    match goal with |- context [PIL.round_aspect ?v ?k] =>
      destruct (round_aspect_near v k) as (H1 & H2 & H3); [lra|];
      set (y := PIL.round_aspect v k) in * end.
    assert (inject_Z y < 1001) as Hy by lra.
    change 1001 with (inject_Z 1001) in Hy. rewrite <- Zlt_Qlt in Hy.
    split; [reflexivity|]. split; [lia|]. split; [lia|].
    assert (1000 * H - inject_Z y * W < W
            ∧ - W < 1000 * H - inject_Z y * W) as [Hu Hl].
    { split; nra. }
    assert (1000 * h - y * w < w ∧ - w < 1000 * h - y * w)%Z as [Hu' Hl'].
    { rewrite !Zlt_Qlt. unfold Zminus.
      rewrite !inject_Z_plus, !inject_Z_opp, !inject_Z_mult.
      change (inject_Z 1000) with 1000. fold W H. split; lra. }
    lia.
Qed.

End ImageFacts.

Lemma thumbnail_mode img size : PIL.mode (PIL.thumbnail img size) = PIL.mode img.
Proof. unfold PIL.thumbnail. by destruct (PIL.preserve_aspect_ratio _ _ _) as [[x y]|]. Qed.

(** [normalize] on bytes that decode: the mode becomes RGB unless it is RGB
    or RGBA already, the size goes through [thumbnail] when a side exceeds
    1000, and the JPEG writer has the last word. *)
Lemma normalize_Encoded fmt q m w h :
  normalize (PIL.Encoded fmt q {| PIL.mode := m; PIL.width := w; PIL.height := h |})
  = let m1 := if negb (existsb (String.eqb m) ["RGB"; "RGBA"]) then "RGB" else m in
    let img := {| PIL.mode := m1; PIL.width := w; PIL.height := h |} in
    PIL.save_JPEG (if (1000 <? w)%Z || (1000 <? h)%Z
                   then PIL.thumbnail img (1000, 1000) else img) 90.
Proof. unfold normalize; simpl. by destruct (negb _). Qed.

(** C6. An image that decodes in mode RGBA is not converted: it reaches the
    JPEG writer with its alpha channel, the writer raises, and [set_cover]
    returns [False] with the file untouched, for every path and file. *)
Theorem normalize_RGBA_fails b64 path fmt q w h f :
  let image_data :=
    PIL.Encoded fmt q {| PIL.mode := "RGBA"; PIL.width := w; PIL.height := h |} in
  normalize image_data = Raise OSError
  ∧ set_cover b64 path image_data f = (false, f).
Proof.
  assert (normalize (PIL.Encoded fmt q
            {| PIL.mode := "RGBA"; PIL.width := w; PIL.height := h |})
          = Raise OSError) as Hn.
  { rewrite normalize_Encoded; simpl. unfold PIL.save_JPEG.
    destruct (_ || _); [rewrite thumbnail_mode|]; reflexivity. }
  simpl. split; [exact Hn|]. unfold set_cover. by rewrite Hn.
Qed.

(** C7. The image steps keep the size of an image that fits in 1000 x 1000
    and bring a larger one to sides between 1 and 1000 with the proportions
    kept up to the rounding of the shorter side to a whole pixel; they
    produce a result for every decoded image whose mode is not RGBA. *)
Theorem normalize_size fmt q m w h :
  (0 < w)%Z → (0 < h)%Z →
  let image_data :=
    PIL.Encoded fmt q {| PIL.mode := m; PIL.width := w; PIL.height := h |} in
  (m ≠ "RGBA" → ∃ out, normalize image_data = Ok out)
  ∧ ∀ out, normalize image_data = Ok out →
      ∃ img, out = PIL.Encoded "JPEG" 90 img
        ∧ ((w ≤ 1000)%Z → (h ≤ 1000)%Z → PIL.width img = w ∧ PIL.height img = h)
        ∧ ((1000 < w ∨ 1000 < h)%Z →
             (1 ≤ PIL.width img ≤ 1000)%Z ∧ (1 ≤ PIL.height img ≤ 1000)%Z
             ∧ (Z.abs (PIL.width img * h - PIL.height img * w) < Z.max w h)%Z).
Proof.
  intros Hw Hh image_data. subst image_data. rewrite normalize_Encoded.
  cbv zeta.
  set (m1 := if negb _ then "RGB" else m).
  set (img := {| PIL.mode := m1; PIL.width := w; PIL.height := h |}).
  set (img' := if (1000 <? w)%Z || (1000 <? h)%Z
               then PIL.thumbnail img (1000, 1000) else img).
  assert (PIL.mode img' = m1) as Hmode.
  { subst img'. destruct (_ || _); [by rewrite thumbnail_mode|done]. }
  simpl. split.
  - intros Hm. unfold PIL.save_JPEG. rewrite Hmode.
    assert (existsb (String.eqb m1) PIL.RAWMODE = true) as ->; [|by eexists].
    subst m1; simpl.
    destruct (String.eqb m "RGB") eqn:E1; simpl.
    { apply string_eqb_true in E1. by subst m. }
    destruct (String.eqb m "RGBA") eqn:E2; simpl; [|done].
    apply string_eqb_true in E2. done.
  - intros out. unfold PIL.save_JPEG.
    destruct (existsb (String.eqb (PIL.mode img')) PIL.RAWMODE); [|done].
    intros [= <-]. exists img'. split; [done|]. subst img'. split.
    + intros Hw1 Hh1.
      assert ((1000 <? w)%Z || (1000 <? h)%Z = false) as ->; [|done].
      apply orb_false_iff. rewrite !Z.ltb_ge. lia.
    + intros Hbig.
      assert ((1000 <? w)%Z || (1000 <? h)%Z = true) as ->.
      { apply orb_true_iff. rewrite !Z.ltb_lt. lia. }
      by destruct (thumbnail_size m1 w h Hw Hh Hbig) as (_ & ? & ? & ?).
Qed.

(** ** Paths with an unsupported extension *)

(** C10, as found in the code. On a path whose lowered extension is outside
    the five, [get_tags] returns the empty dictionary and [set_tag] returns
    [True], neither looking at the file; [set_cover] leaves the file alone
    too, and returns [True] exactly when the image steps succeed, [False]
    when they raise. *)
Theorem unsupported_extension_no_codec path f :
  ext_supported (ext_of path) = false →
  get_tags path f = Some ∅
  ∧ (∀ tag_name value, set_tag path tag_name value f = (true, f))
  ∧ (∀ b64 image_data,
       set_cover b64 path image_data f
       = (match normalize image_data with Ok _ => true | Raise _ => false end, f)).
Proof.
  intros Hext. apply codec_of_ext_None in Hext. split_and!.
  - unfold get_tags. by rewrite Hext.
  - intros tag_name value. unfold set_tag. by rewrite Hext.
  - intros b64 image_data. unfold set_cover. rewrite Hext.
    by destruct (normalize image_data).
Qed.

(** ** What [get_tags] reads *)

(** [get_tags] on a file of the kind its path announces: the five fields
    through [read_stored] under the keys of the kind, then the cover test. *)
Lemma get_tags_read path f kind :
  codec_of_ext (ext_of path) = Some kind →
  kind_of_file f = Some kind →
  get_tags path f
  = try_except (
      title ← read_stored f (storage_key kind Title) ;
      artist ← read_stored f (storage_key kind Artist) ;
      album ← read_stored f (storage_key kind Album) ;
      year ← read_stored f (storage_key kind Year) ;
      genre ← read_stored f (storage_key kind Genre) ;
      has_cover ← read_cover f ;
      Ok (tag_record title artist album year genre has_cover)).
Proof.
  intros Hc Hk. unfold get_tags. rewrite Hc.
  destruct f as [tags|audio|tags|vc|vc|]; simplify_eq/=.
  - destruct (get ID3_getitem tags "TIT2" _); simpl; [|done].
    destruct (get ID3_getitem tags "TPE1" _); simpl; [|done].
    destruct (get ID3_getitem tags "TALB" _); simpl; [|done].
    destruct (get ID3_getitem tags "TDRC" _); simpl; [|done].
    destruct (get ID3_getitem tags "TCON" _); simpl; [|done].
    by destruct tags.
  - done.
  - done.
  - done.
  - done.
Qed.

(** On a file of another kind the loader raises. *)
Lemma get_tags_other_kind path f kind :
  codec_of_ext (ext_of path) = Some kind →
  kind_of_file f ≠ Some kind →
  get_tags path f = None.
Proof.
  intros Hc Hk. unfold get_tags. rewrite Hc.
  by destruct kind, f.
Qed.

Lemma tag_record_lookup title artist album year genre has_cover :
  let r := tag_record title artist album year genre has_cover in
  r !! "title" = Some title ∧ r !! "artist" = Some artist
  ∧ r !! "album" = Some album ∧ r !! "year" = Some year
  ∧ r !! "genre" = Some genre ∧ r !! "has_cover" = Some (PyBool has_cover).
Proof. unfold tag_record. by simplify_map_eq. Qed.

(** ** ID3 tags *)

Section ID3Facts.

Implicit Types (tags t : gmap string Frame) (key : string) (fr a : Frame).

Lemma ID3_wf_lookup tags key fr :
  ID3_wf tags → tags !! key = Some fr → HashKey fr = key ∧ frame_ok fr = true.
Proof.
  unfold ID3_wf. rewrite forallb_forall. intros Hwf Hl.
  specialize (Hwf (key, fr)). simpl in Hwf.
  rewrite andb_true_iff, string_eqb_true in Hwf. apply Hwf.
  apply list_elem_of_In. by apply elem_of_map_to_list.
Qed.

Lemma ID3_wf_intro tags :
  (∀ key fr, tags !! key = Some fr → HashKey fr = key ∧ frame_ok fr = true) →
  ID3_wf tags.
Proof.
  intros H. unfold ID3_wf. rewrite forallb_forall. intros [key fr] Hin; simpl.
  apply list_elem_of_In, elem_of_map_to_list in Hin.
  destruct (H _ _ Hin) as [-> ->]. by rewrite String.eqb_refl.
Qed.

Lemma ID3_wf_empty : ID3_wf ∅.
Proof. reflexivity. Qed.

Lemma ID3_wf_insert tags key fr :
  ID3_wf tags → HashKey fr = key → frame_ok fr = true →
  ID3_wf (<[key := fr]> tags).
Proof.
  intros Hwf Hk Hok. apply ID3_wf_intro. intros key' fr'.
  rewrite lookup_insert_Some. intros [[<- <-]|[_ Hl]]; [done|].
  by eapply ID3_wf_lookup.
Qed.

Lemma file_wf_MP3 (audio : option ID3) :
  file_wf (MP3File audio) ↔
  ID3_wf (match audio with Some t => t | None => ∅ end)
  ∧ genre_at_rest (match audio with Some t => t | None => ∅ end) = true.
Proof.
  destruct audio as [t|]; simpl.
  - unfold ID3_wf. by rewrite andb_true_iff.
  - split; [|done]. intros _. split; reflexivity.
Qed.

Lemma genre_at_rest_lookup tags id encoding text :
  genre_at_rest tags = true →
  tags !! "TCON" = Some (TextFrame id encoding text) →
  genres text = Ok text.
Proof.
  unfold genre_at_rest. intros H Hl. rewrite Hl in H.
  by apply bool_decide_eq_true in H.
Qed.

Lemma genre_at_rest_same tags tags' :
  tags' !! "TCON" = tags !! "TCON" → genre_at_rest tags' = genre_at_rest tags.
Proof. unfold genre_at_rest. by intros ->. Qed.

(** *** The frames that are written, as they are read back *)

Lemma stamp_text_reparsed s : stamp_text (reparsed s) = stamp_text s.
Proof. by destruct s as [[?|] [?|] [?|] [?|] [?|] [?|]]. Qed.

Lemma reparsed_idem s : reparsed (reparsed s) = reparsed s.
Proof. by destruct s as [[?|] [?|] [?|] [?|] [?|] [?|]]. Qed.

Lemma Frame_str_reread fr : Frame_str (reread fr) = Frame_str fr.
Proof.
  destruct fr as [|id e text|]; [done| |done]. simpl. f_equal.
  rewrite map_map. apply map_ext. apply stamp_text_reparsed.
Qed.

Lemma is_written_reread fr : is_written (reread fr) = is_written fr.
Proof.
  destruct fr as [|id e text|]; [done| |done].
  unfold is_written. by rewrite (Frame_str_reread (TimeStampTextFrame id e text)).
Qed.

Lemma HashKey_reread fr : HashKey (reread fr) = HashKey fr.
Proof. by destruct fr. Qed.

Lemma frame_ok_reread fr : frame_ok (reread fr) = frame_ok fr.
Proof. by destruct fr. Qed.

Lemma reread_idem fr : reread (reread fr) = reread fr.
Proof.
  destruct fr as [|id e text|]; [done| |done]. simpl. f_equal.
  rewrite map_map. apply map_ext. apply reparsed_idem.
Qed.

Lemma kept_lookup t key :
  kept t !! key
  = match t !! key with
    | Some fr => if is_written fr then Some (reread fr) else None
    | None => None
    end.
Proof.
  unfold kept. rewrite lookup_fmap.
  destruct (t !! key) as [fr|] eqn:Hl.
  - destruct (is_written fr) eqn:Hw.
    + by rewrite (proj2 (map_lookup_filter_Some _ t key fr)).
    + rewrite (proj2 (map_lookup_filter_None _ t key)); [done|].
      right. intros fr'. rewrite Hl. intros [= <-]. simpl. by rewrite Hw.
  - rewrite (proj2 (map_lookup_filter_None _ t key)); [done|]. by left.
Qed.

Lemma kept_lookup_Some t key fr :
  kept t !! key = Some fr ↔
  ∃ fr0, t !! key = Some fr0 ∧ is_written fr0 = true ∧ fr = reread fr0.
Proof.
  rewrite kept_lookup. destruct (t !! key) as [fr0|].
  - destruct (is_written fr0) eqn:Hw; split.
    + intros [= <-]. by exists fr0.
    + by intros (? & [= <-] & _ & ->).
    + done.
    + intros (? & [= <-] & Hw' & _). congruence.
  - split; [done|]. by intros (? & ? & _).
Qed.

Lemma kept_lookup_None t key :
  kept t !! key = None ↔
  t !! key = None ∨ ∃ fr, t !! key = Some fr ∧ is_written fr = false.
Proof.
  rewrite kept_lookup. destruct (t !! key) as [fr0|].
  - destruct (is_written fr0) eqn:Hw; split.
    + done.
    + intros [?|(? & [= <-] & ?)]; [done|congruence].
    + intros _. right. by exists fr0.
    + done.
  - split; [by left|done].
Qed.

Lemma kept_wf t : ID3_wf t → ID3_wf (kept t).
Proof.
  intros Hwf. apply ID3_wf_intro.
  intros key fr (fr0 & Hl & _ & ->)%kept_lookup_Some.
  rewrite HashKey_reread, frame_ok_reread. by eapply ID3_wf_lookup.
Qed.

Lemma kept_idem t : kept (kept t) = kept t.
Proof.
  apply map_eq. intros key. rewrite (kept_lookup (kept t)), (kept_lookup t).
  destruct (t !! key) as [fr|]; [|done].
  destruct (is_written fr) eqn:Hw; [|done].
  by rewrite is_written_reread, Hw, reread_idem.
Qed.

Lemma kept_insert t key fr :
  kept (<[key := fr]> t)
  = if is_written fr then <[key := reread fr]> (kept t) else delete key (kept t).
Proof.
  unfold kept. destruct (is_written fr) eqn:Hw.
  - by rewrite map_filter_insert_True, fmap_insert.
  - rewrite map_filter_insert_False by (simpl; by rewrite Hw).
    by rewrite map_filter_delete, fmap_delete.
Qed.

Lemma kept_delete t key : kept (delete key t) = delete key (kept t).
Proof. unfold kept. by rewrite map_filter_delete, fmap_delete. Qed.

Lemma genre_at_rest_kept t : genre_at_rest t = true → genre_at_rest (kept t) = true.
Proof.
  intros H. unfold genre_at_rest.
  destruct (kept t !! "TCON") as [fr|] eqn:Hl; [|done].
  apply kept_lookup_Some in Hl as (fr0 & Hl & _ & ->).
  destruct fr0 as [id e text| |]; try done.
  apply bool_decide_eq_true. by eapply genre_at_rest_lookup.
Qed.

(** *** Saving and loading *)

(** A tag whose frames sit under their hash keys comes back under the same
    keys. *)
Lemma rekey_wf tags :
  ID3_wf tags →
  list_to_map ((λ kv : string * Frame, (HashKey kv.2, kv.2)) <$> map_to_list tags)
  = tags.
Proof.
  intros Hwf. rewrite <-(list_to_map_to_list tags) at 2. f_equal.
  rewrite <-(list_fmap_id (map_to_list tags)) at 2.
  apply list_fmap_ext. intros i [key fr] Hl; simpl. f_equal.
  eapply ID3_wf_lookup; [done|].
  apply elem_of_map_to_list. by eapply list_elem_of_lookup_2.
Qed.

Lemma update_mime_ok fr : frame_ok fr = true → update_mime fr = fr.
Proof.
  destruct fr as [| |e mime ty desc data]; [done..|]. simpl.
  rewrite orb_false_r, negb_true_iff, orb_false_iff. by intros [-> ->].
Qed.

Lemma update_mime_wf tags : ID3_wf tags → update_mime <$> tags = tags.
Proof.
  intros Hwf. rewrite <-(map_fmap_id tags) at 2. apply map_fmap_ext.
  intros key fr Hl. apply update_mime_ok. by eapply ID3_wf_lookup.
Qed.

Lemma update_common_at_rest tags :
  ID3_wf tags → genre_at_rest tags = true → update_common tags = Ok tags.
Proof.
  intros Hwf Hrest. unfold update_common.
  destruct (tags !! "TCON") as [[id e text| |]|] eqn:Hl;
    try by rewrite update_mime_wf.
  rewrite (genre_at_rest_lookup _ _ _ _ Hrest Hl).
  by rewrite insert_id, update_mime_wf.
Qed.

Lemma ID3_reload_keyed tags :
  ID3_wf tags → ID3_reload tags = update_common (kept tags).
Proof. intros Hwf. unfold ID3_reload. by rewrite rekey_wf by by apply kept_wf. Qed.


(** A frame other than the genre, put under its hash key. *)
Lemma ID3_reload_insert tags key fr :
  ID3_wf tags → genre_at_rest tags = true →
  HashKey fr = key → frame_ok fr = true → key ≠ "TCON" →
  ID3_reload (<[key := fr]> tags)
  = Ok (if is_written fr then <[key := reread fr]> (kept tags)
        else delete key (kept tags)).
Proof.
  intros Hwf Hrest Hk Hok Hne.
  rewrite ID3_reload_keyed by by apply ID3_wf_insert.
  rewrite kept_insert. pose proof (kept_wf _ Hwf) as Hwf'.
  pose proof (genre_at_rest_kept _ Hrest) as Hrest'.
  destruct (is_written fr).
  - apply update_common_at_rest.
    { apply ID3_wf_insert; [done|by rewrite HashKey_reread|].
      by rewrite frame_ok_reread. }
    rewrite <-Hrest'. apply genre_at_rest_same. by rewrite lookup_insert_ne.
  - apply update_common_at_rest.
    + apply ID3_wf_intro. intros key' fr' [_ Hl]%lookup_delete_Some.
      by eapply ID3_wf_lookup.
    + rewrite <-Hrest'. apply genre_at_rest_same. by rewrite lookup_delete_ne.
Qed.

(** A genre frame: the loader parses its text. *)
Lemma ID3_reload_insert_TCON tags encoding text :
  ID3_wf tags →
  ID3_reload (<["TCON" := TextFrame "TCON" encoding text]> tags)
  = if is_written (TextFrame "TCON" encoding text)
    then match genres text with
         | Ok text' => Ok (<["TCON" := TextFrame "TCON" encoding text']> (kept tags))
         | Raise e => Raise e
         end
    else Ok (delete "TCON" (kept tags)).
Proof.
  intros Hwf. rewrite ID3_reload_keyed by by apply ID3_wf_insert.
  rewrite kept_insert. pose proof (kept_wf _ Hwf) as Hwf'.
  destruct (is_written _).
  - unfold update_common. cbn [reread]. rewrite lookup_insert_eq.
    destruct (genres text) as [text'|]; [|done].
    rewrite insert_insert_eq. by rewrite update_mime_wf by by apply ID3_wf_insert.
  - apply update_common_at_rest.
    + apply ID3_wf_intro. intros key' fr' [_ Hl]%lookup_delete_Some.
      by eapply ID3_wf_lookup.
    + unfold genre_at_rest. by rewrite lookup_delete_eq.
Qed.

Lemma prefix_APIC_HashKey a :
  is_APIC a = true → String.prefix "APIC:" (HashKey a) = true.
Proof. destruct a as [| |? ? ? desc ?]; [done|done|]. by destruct desc. Qed.

Lemma ID3_wf_no_APIC_key tags : ID3_wf tags → tags !! "APIC" = None.
Proof.
  intros Hwf. destruct (tags !! "APIC") as [fr|] eqn:Hl; [|done].
  destruct (ID3_wf_lookup _ _ _ Hwf Hl) as [Hk Hok].
  destruct fr; simpl in *; by subst.
Qed.

(** [delall("APIC")] on a loaded tag: no frame is left under a key that
    starts with "APIC:", hence no picture frame, and the other keys keep
    their frames. *)
Lemma delall_APIC tags :
  ID3_wf tags →
  let t := delall "APIC" tags in
  ID3_wf t ∧ t !! "APIC" = None
  ∧ (∀ key fr, t !! key = Some fr →
       String.prefix "APIC:" key = false ∧ is_APIC fr = false)
  ∧ (∀ key, String.prefix "APIC:" key = false → t !! key = tags !! key).
Proof.
  intros Hwf. pose proof (ID3_wf_no_APIC_key _ Hwf) as Hno.
  unfold delall. rewrite decide_False by (rewrite Hno; by intros [? ?]).
  simpl. split_and!.
  - apply ID3_wf_intro. intros key fr [Hl _]%map_lookup_filter_Some.
    by eapply ID3_wf_lookup.
  - apply map_lookup_filter_None. left. done.
  - intros key fr [Hl Hp]%map_lookup_filter_Some. simpl in Hp. split; [done|].
    destruct (is_APIC fr) eqn:Ha; [|done].
    destruct (ID3_wf_lookup _ _ _ Hwf Hl) as [<- _].
    by rewrite prefix_APIC_HashKey in Hp.
  - intros key Hp. destruct (tags !! key) as [fr|] eqn:Hl.
    + by apply map_lookup_filter_Some.
    + apply map_lookup_filter_None. by left.
Qed.

Lemma delall_APIC_filter tags :
  tags !! "APIC" = None →
  delall "APIC" tags
  = filter (λ kv : string * Frame, String.prefix "APIC:" kv.1 = false) tags.
Proof.
  intros Hno. unfold delall. by rewrite decide_False by (rewrite Hno; by intros [? ?]).
Qed.

Lemma lookup_filter_APIC tags key :
  filter (λ kv : string * Frame, String.prefix "APIC:" kv.1 = false) tags !! key
  = if String.prefix "APIC:" key then None else tags !! key.
Proof.
  destruct (String.prefix "APIC:" key) eqn:Hp.
  - apply map_lookup_filter_None. right. intros fr _. simpl. by rewrite Hp.
  - destruct (tags !! key) as [fr|] eqn:Hl.
    + by apply map_lookup_filter_Some.
    + apply map_lookup_filter_None. by left.
Qed.

Lemma kept_delall tags :
  ID3_wf tags → kept (delall "APIC" tags) = delall "APIC" (kept tags).
Proof.
  intros Hwf.
  rewrite !delall_APIC_filter
    by (apply ID3_wf_no_APIC_key; done || by apply kept_wf).
  apply map_eq. intros key.
  rewrite kept_lookup, !lookup_filter_APIC, kept_lookup.
  by destruct (String.prefix "APIC:" key).
Qed.

(** The new picture frame is put under the key "APIC" and comes back from
    the file under its hash key. *)
Lemma ID3_reload_insert_APIC t a :
  ID3_wf t → genre_at_rest t = true → t !! "APIC" = None →
  (∀ key fr, t !! key = Some fr → String.prefix "APIC:" key = false) →
  is_APIC a = true → frame_ok a = true →
  ID3_reload (<["APIC" := a]> t) = Ok (<[HashKey a := a]> (kept t)).
Proof.
  intros Hwf Hrest Hno Hpre Ha Hok. unfold ID3_reload.
  assert (is_written a = true) as Hw by by destruct a.
  assert (reread a = a) as Hre by by destruct a.
  rewrite kept_insert, Hw, Hre.
  pose proof (kept_wf _ Hwf) as Hwf'.
  assert (kept t !! "APIC" = None) as Hno'.
  { apply kept_lookup_None. by left. }
  set (g := λ kv : string * Frame, (HashKey kv.2, kv.2)).
  assert (g <$> map_to_list (<["APIC" := a]> (kept t))
          ≡ₚ (HashKey a, a) :: map_to_list (kept t)) as Hperm.
  { rewrite (map_to_list_insert (kept t) "APIC" a Hno'). rewrite fmap_cons.
    f_equiv. rewrite <-(list_fmap_id (map_to_list (kept t))) at 2.
    erewrite list_fmap_ext; [done|]. intros i [key fr] Hl; simpl.
    unfold g; simpl. f_equal. eapply ID3_wf_lookup; [done|].
    apply elem_of_map_to_list. by eapply list_elem_of_lookup_2. }
  assert (list_to_map (g <$> map_to_list (<["APIC" := a]> (kept t)))
          = <[HashKey a := a]> (kept t)) as ->.
  { trans (list_to_map ((HashKey a, a) :: map_to_list (kept t)) : gmap string Frame).
    - apply list_to_map_proper; [|done].
      rewrite Hperm; simpl. apply NoDup_cons. split.
      + intros ([key fr] & Hk & Hin)%list_elem_of_fmap. simpl in Hk. subst key.
        apply elem_of_map_to_list, kept_lookup_Some in Hin as (fr0 & Hin & _ & _).
        apply Hpre in Hin. by rewrite prefix_APIC_HashKey in Hin.
      + apply NoDup_fst_map_to_list.
    - simpl. by rewrite list_to_map_to_list. }
  apply update_common_at_rest; [by apply ID3_wf_insert|].
  rewrite <-(genre_at_rest_kept _ Hrest). apply genre_at_rest_same.
  apply lookup_insert_ne. intros Heq.
  pose proof (prefix_APIC_HashKey a Ha) as Hp. by rewrite Heq in Hp.
Qed.

End ID3Facts.

(** ** Splitting and joining *)

Lemma split_cons c s : ∃ x l, Py.split c s = x :: l.
Proof.
  destruct s as [|a s]; simpl; [by eexists _, _|].
  destruct (Ascii.eqb a c); [by eexists _, _|].
  destruct (Py.split c s); by eexists _, _.
Qed.

Lemma join_cons_char sep a x l :
  Py.join sep (String a x :: l) = String a (Py.join sep (x :: l)).
Proof. by destruct l. Qed.

(** Joining the pieces of a split with the separator gives the text back. *)
Lemma join_split c s : Py.join (String c "") (Py.split c s) = s.
Proof.
  induction s as [|a s IH]; simpl; [done|].
  destruct (Ascii.eqb a c) eqn:E.
  - apply Ascii.eqb_eq in E. subst a.
    destruct (split_cons c s) as (x & l & Hs). rewrite Hs in *.
    change (Py.join (String c "") ("" :: x :: l))
      with ("" +:+ String c "" +:+ Py.join (String c "") (x :: l)).
    by rewrite IH.
  - destruct (split_cons c s) as (x & l & Hs). rewrite Hs in *.
    by rewrite join_cons_char, IH.
Qed.

(** ** Vorbis comments *)

Section VorbisFacts.

Implicit Types (vc : list (string * string)) (key value : string).

Lemma filter_negb_nil {A} (P : A → bool) (l : list A) :
  List.filter P l = [] → List.filter (λ x, negb (P x)) l = l.
Proof.
  induction l as [|x l IH]; simpl; [done|].
  destruct (P x); simpl; [done|]. intros H. by rewrite IH.
Qed.

Lemma filter_filter_negb_same {A} (P : A → bool) (l : list A) :
  List.filter P (List.filter (λ x, negb (P x)) l) = [].
Proof.
  induction l as [|x l IH]; simpl; [done|].
  destruct (P x) eqn:E; simpl; [done|]. by rewrite E.
Qed.

Lemma filter_filter_negb_other {A} (P Q : A → bool) (l : list A) :
  (∀ x, P x = true → Q x = false) →
  List.filter P (List.filter (λ x, negb (Q x)) l) = List.filter P l.
Proof.
  intros HPQ. induction l as [|x l IH]; simpl; [done|].
  destruct (Q x) eqn:EQ; simpl.
  - destruct (P x) eqn:EP; [|done]. apply HPQ in EP. congruence.
  - by rewrite IH.
Qed.

Lemma VC_delitem_or_keep key vc :
  is_valid_key key = true →
  match VC_delitem key vc with Ok vc' => vc' | Raise _ => vc end
  = List.filter (λ kv, negb (key_is (Py.lower key) kv)) vc.
Proof.
  intros Hv. unfold VC_delitem. rewrite Hv; simpl.
  destruct (List.filter (key_is _) vc) eqn:E; [|done].
  by rewrite filter_negb_nil.
Qed.



Lemma VC_getitem_set_same key value vc :
  is_valid_key key = true →
  VC_getitem key
    (List.filter (λ kv, negb (key_is (Py.lower key) kv)) vc
     ++ [(key, value)])%list
  = Ok [value].
Proof.
  intros Hv. unfold VC_getitem. rewrite Hv; simpl.
  rewrite List.filter_app, filter_filter_negb_same; simpl.
  unfold key_is at 1; simpl. by rewrite String.eqb_refl.
Qed.

Lemma VC_getitem_set_other key key' value vc :
  Py.lower key' ≠ Py.lower key →
  VC_getitem key'
    (List.filter (λ kv, negb (key_is (Py.lower key) kv)) vc
     ++ [(key, value)])%list
  = VC_getitem key' vc.
Proof.
  intros Hne. unfold VC_getitem. destruct (negb (is_valid_key key')); [done|].
  rewrite List.filter_app, filter_filter_negb_other.
  - simpl. unfold key_is at 2; simpl.
    assert (String.eqb (Py.lower key) (Py.lower key') = false) as ->.
    { by apply string_eqb_false. }
    by rewrite app_nil_r.
  - intros [k x]. unfold key_is; simpl.
    rewrite string_eqb_true, string_eqb_false. by intros ->.
Qed.

(** A file without comment block reads like one with an empty block. *)
Lemma get_VC_default (tags : option (list (string * string))) key (d : list string) :
  is_valid_key key = true →
  get VC_getitem (Some (match tags with Some vc => vc | None => [] end)) key d
  = get VC_getitem tags key d.
Proof. intros Hv. destruct tags as [vc|]; [done|]. simpl. unfold VC_getitem. by rewrite Hv. Qed.

End VorbisFacts.

(** ** Writing one field *)

Section SetTagFacts.

Lemma unless_empty_ne s : s ≠ "" → unless_empty s = s.
Proof. intros Hs. unfold unless_empty. by rewrite (proj2 (string_eqb_false s "")). Qed.


Lemma read_stored_MP3 (audio : option ID3) K :
  read_stored (MP3File audio) K
  = Ok (PyStr (match (match audio with Some t => t | None => ∅ end) !! K with
               | Some fr => Frame_str fr
               | None => "Not set"
               end)).
Proof.
  unfold read_stored, get, ID3_getitem, dict_getitem.
  destruct audio as [t|]; simpl; [|by rewrite lookup_empty].
  by destruct (t !! K).
Qed.

Lemma read_cover_MP3 (audio : option ID3) :
  read_cover (MP3File audio)
  = Ok (match (match audio with Some t => t | None => ∅ end) !! "APIC:" with
        | Some _ => true
        | None => false
        end).
Proof.
  unfold read_cover, contains, dict_getitem.
  destruct audio as [t|]; [|by rewrite lookup_empty].
  case_bool_decide as Ht; [by rewrite Ht, lookup_empty|].
  by destruct (t !! "APIC:").
Qed.

Lemma is_written_false fr : is_written fr = false → Frame_str fr = "".
Proof.
  destruct fr; simpl; try done;
    rewrite negb_false_iff; by intros ?%string_eqb_true.
Qed.

Lemma is_written_true fr :
  is_written fr = true → unless_empty (Frame_str fr) = Frame_str fr.
Proof.
  destruct fr as [id e text|id e text|e mime ty desc data]; simpl.
  - rewrite negb_true_iff. intros ?%string_eqb_false. by apply unless_empty_ne.
  - rewrite negb_true_iff. intros ?%string_eqb_false. by apply unless_empty_ne.
  - intros _. vm_compute. reflexivity.
Qed.

(** What a key of the tag reads as after the tag is saved. *)
Lemma kept_lookup_str (t : gmap string Frame) K :
  match kept t !! K with Some fr => Frame_str fr | None => "Not set" end
  = unless_empty (match t !! K with Some fr => Frame_str fr | None => "Not set" end).
Proof.
  rewrite kept_lookup. destruct (t !! K) as [fr|] eqn:Hl; [|done].
  destruct (is_written fr) eqn:Hw.
  - by rewrite Frame_str_reread, is_written_true.
  - by rewrite is_written_false.
Qed.

Lemma read_stored_kept (audio : option ID3) K :
  read_stored (MP3File (Some (kept (match audio with Some t => t | None => ∅ end)))) K
  = (v ← read_stored (MP3File audio) K ; Ok (resaved MP3 v)).
Proof.
  rewrite !read_stored_MP3. cbn [mbind result_bind resaved].
  by rewrite kept_lookup_str.
Qed.

Lemma kept_lookup_APIC (t : gmap string Frame) :
  ID3_wf t →
  match kept t !! "APIC:" with Some _ => true | None => false end
  = match t !! "APIC:" with Some _ => true | None => false end.
Proof.
  intros Hwf. destruct (t !! "APIC:") as [fr|] eqn:Hl.
  - destruct (ID3_wf_lookup _ _ _ Hwf Hl) as [Hk Hok].
    assert (is_written fr = true) as Hw.
    { destruct fr as [id ? ?|id ? ?|]; simpl in *; [subst id; done..|done]. }
    by rewrite kept_lookup, Hl, Hw.
  - by rewrite kept_lookup, Hl.
Qed.

Lemma read_cover_kept (audio : option ID3) :
  ID3_wf (match audio with Some t => t | None => ∅ end) →
  read_cover (MP3File (Some (kept (match audio with Some t => t | None => ∅ end))))
  = read_cover (MP3File audio).
Proof. intros Hwf. rewrite !read_cover_MP3. by rewrite kept_lookup_APIC. Qed.

Lemma with_frame_lookup key fr (t : gmap string Frame) :
  with_frame key fr t !! key = fr.
Proof.
  destruct fr; simpl; [apply lookup_insert_eq|apply lookup_delete_eq].
Qed.

Lemma with_frame_lookup_ne key key' fr (t : gmap string Frame) :
  key ≠ key' → with_frame key fr t !! key' = t !! key'.
Proof.
  intros Hne. destruct fr; simpl;
    [by apply lookup_insert_ne|by apply lookup_delete_ne].
Qed.

Lemma with_frame_twice key fr fr' (t : gmap string Frame) :
  with_frame key fr' (with_frame key fr t) = with_frame key fr' t.
Proof.
  destruct fr, fr'; simpl.
  - apply insert_insert_eq.
  - apply delete_insert_eq.
  - apply insert_delete_eq.
  - apply map_eq. intros i. destruct (decide (key = i)) as [->|];
      [by rewrite !lookup_delete_eq|by rewrite !lookup_delete_ne].
Qed.

Lemma with_frame_wf key fr (t : gmap string Frame) :
  ID3_wf t →
  (∀ fr', fr = Some fr' → HashKey fr' = key ∧ frame_ok fr' = true) →
  ID3_wf (with_frame key fr t).
Proof.
  intros Hwf Hfr. destruct fr as [fr'|]; simpl.
  - destruct (Hfr fr' eq_refl). by apply ID3_wf_insert.
  - apply ID3_wf_intro. intros key' fr'' [_ Hl]%lookup_delete_Some.
    by eapply ID3_wf_lookup.
Qed.

Lemma field_frame_key k value : HashKey (field_frame k value) = storage_key MP3 k.
Proof. by destruct k. Qed.

Lemma field_frame_ok k value : frame_ok (field_frame k value) = true.
Proof. by destruct k. Qed.

Lemma field_frame_genre value :
  field_frame Genre value = TextFrame "TCON" 3 (Py.split NUL value).
Proof. done. Qed.

Lemma field_frame_str k value :
  k ≠ Year → Frame_str (field_frame k value) = value.
Proof. intros Hk. destruct k; try done; apply join_split. Qed.

(** The MP3 branch of [set_tag] puts the frame of the field in the tag and
    saves it. *)
Lemma set_tag_MP3 path k value (audio : option ID3) :
  codec_of_ext (ext_of path) = Some MP3 →
  set_tag path (tag_name_of k) value (MP3File audio)
  = (true, saved (<[storage_key MP3 k := field_frame k value]>
                    (match audio with Some t => t | None => ∅ end))).
Proof. intros Hc. unfold set_tag. rewrite Hc. by destruct k. Qed.

(** The tag the next load returns after a field is written. *)
Lemma saved_field k value (t : gmap string Frame) :
  ID3_wf t → (k ≠ Genre → genre_at_rest t = true) →
  saved (<[storage_key MP3 k := field_frame k value]> t)
  = match reloaded_field k value with
    | Ok fr => MP3File (Some (with_frame (storage_key MP3 k) fr (kept t)))
    | Raise _ => Unparsable
    end.
Proof.
  intros Hwf Hrest. unfold saved, reloaded_field.
  destruct (decide (k = Genre)) as [->|Hk].
  - rewrite field_frame_genre.
    change (storage_key MP3 Genre) with "TCON".
    rewrite ID3_reload_insert_TCON by done.
    destruct (is_written _); [|done].
    cbn [mbind result_bind]. by destruct (genres _).
  - rewrite (ID3_reload_insert t _ _ Hwf (Hrest Hk) (field_frame_key k value)
               (field_frame_ok k value)) by by destruct k.
    destruct (is_written _); by destruct k.
Qed.

Lemma is_written_field k value :
  is_written (field_frame k value)
  = negb (String.eqb (Frame_str (field_frame k value)) "").
Proof. by destruct k. Qed.

(** What the written field reads as. *)
Lemma reloaded_field_str k value :
  stored_text MP3 k value
  = (fr ← reloaded_field k value ;
     Ok (match fr with Some fr => Frame_str fr | None => "Not set" end)).
Proof.
  unfold reloaded_field. rewrite is_written_field.
  destruct k.
  - rewrite field_frame_str by done. cbn [stored_text]. unfold unless_empty.
    destruct (String.eqb value ""); simpl; [done|]. by rewrite join_split.
  - rewrite field_frame_str by done. cbn [stored_text]. unfold unless_empty.
    destruct (String.eqb value ""); simpl; [done|]. by rewrite join_split.
  - rewrite field_frame_str by done. cbn [stored_text]. unfold unless_empty.
    destruct (String.eqb value ""); simpl; [done|]. by rewrite join_split.
  - change (stored_text MP3 Year value)
      with (Ok (unless_empty (Frame_str (field_frame Year value)))).
    unfold unless_empty.
    destruct (String.eqb (Frame_str (field_frame Year value)) ""); [done|].
    cbn [negb mbind result_bind]. by rewrite Frame_str_reread.
  - rewrite field_frame_str by done. cbn [stored_text].
    destruct (String.eqb value ""); simpl; [done|]. by destruct (genres _).
Qed.

Lemma get_VC_set_same (tags : option (list (string * string))) key value d :
  is_valid_key key = true →
  get VC_getitem
    (Some (List.filter (λ kv, negb (key_is (Py.lower key) kv))
             (match tags with Some vc => vc | None => [] end)
           ++ [(key, value)])%list) key d
  = Ok [value].
Proof. intros Hv. unfold get. by rewrite VC_getitem_set_same. Qed.

Lemma get_VC_set_other (tags : option (list (string * string))) key key' value d :
  is_valid_key key' = true → Py.lower key' ≠ Py.lower key →
  get VC_getitem
    (Some (List.filter (λ kv, negb (key_is (Py.lower key) kv))
             (match tags with Some vc => vc | None => [] end)
           ++ [(key, value)])%list) key' d
  = get VC_getitem tags key' d.
Proof.
  intros Hv Hne. rewrite <-(get_VC_default tags) by done.
  unfold get. by rewrite VC_getitem_set_other.
Qed.

Lemma contains_VC_set_other vc key key' value :
  Py.lower key' ≠ Py.lower key →
  contains VC_getitem
    (Some (List.filter (λ kv, negb (key_is (Py.lower key) kv)) vc
           ++ [(key, value)])%list) key'
  = contains VC_getitem (Some vc) key'.
Proof. intros Hne. unfold contains. by rewrite VC_getitem_set_other. Qed.

(** The comment list [set_tag] leaves in a FLAC or Ogg file. *)
Lemma set_tag_FLAC path k value audio :
  codec_of_ext (ext_of path) = Some FLAC →
  set_tag path (tag_name_of k) value (FLACFile audio)
  = (true, FLACFile
       {| flac_tags :=
            Some (List.filter (λ kv, negb (key_is (Py.lower (storage_key FLAC k)) kv))
                    (match flac_tags audio with Some vc => vc | None => [] end)
                  ++ [(storage_key FLAC k, value)])%list;
          flac_pictures := flac_pictures audio |}).
Proof.
  intros Hc. unfold set_tag. rewrite Hc.
  destruct k; simpl; by rewrite VC_delitem_or_keep by reflexivity.
Qed.

Lemma set_tag_OggVorbis path k value vc :
  codec_of_ext (ext_of path) = Some OggVorbis →
  set_tag path (tag_name_of k) value (OggVorbisFile vc)
  = (true, OggVorbisFile
       (List.filter (λ kv, negb (key_is (Py.lower (storage_key OggVorbis k)) kv)) vc
        ++ [(storage_key OggVorbis k, value)])%list).
Proof.
  intros Hc. unfold set_tag. rewrite Hc.
  destruct k; simpl; by rewrite VC_delitem_or_keep by reflexivity.
Qed.

Lemma set_tag_OggOpus path k value vc :
  codec_of_ext (ext_of path) = Some OggOpus →
  set_tag path (tag_name_of k) value (OggOpusFile vc)
  = (true, OggOpusFile
       (List.filter (λ kv, negb (key_is (Py.lower (storage_key OggOpus k)) kv)) vc
        ++ [(storage_key OggOpus k, value)])%list).
Proof.
  intros Hc. unfold set_tag. rewrite Hc.
  destruct k; simpl; by rewrite VC_delitem_or_keep by reflexivity.
Qed.

Lemma set_tag_MP4 path k value tags :
  codec_of_ext (ext_of path) = Some MP4 →
  set_tag path (tag_name_of k) value (MP4File tags)
  = (true, MP4File (Some (<[storage_key MP4 k := Texts [value]]>
                            (match tags with Some t => t | None => ∅ end)))).
Proof. intros Hc. unfold set_tag. rewrite Hc. by destruct k. Qed.

Lemma read_stored_MP4_insert (tags : option (gmap string MP4Value)) K v K' :
  read_stored (MP4File (Some (<[K := v]> (match tags with Some t => t | None => ∅ end)))) K'
  = if decide (K = K') then MP4_index0 v else read_stored (MP4File tags) K'.
Proof.
  unfold read_stored, get, dict_getitem. rewrite lookup_insert.
  case_decide; [done|]. destruct tags as [t|]; [done|]. by rewrite lookup_empty.
Qed.

Lemma read_cover_MP4_insert (tags : option (gmap string MP4Value)) K v :
  K ≠ "covr" →
  read_cover (MP4File (Some (<[K := v]> (match tags with Some t => t | None => ∅ end))))
  = read_cover (MP4File tags).
Proof.
  intros HK. unfold read_cover, contains, dict_getitem.
  rewrite lookup_insert_ne by done.
  destruct tags as [t|]; [done|]. by rewrite lookup_empty.
Qed.

Lemma storage_key_valid kind k :
  kind ≠ MP3 → kind ≠ MP4 → is_valid_key (storage_key kind k) = true.
Proof. by destruct kind, k. Qed.

Lemma storage_key_lower_ne kind k k' :
  k' ≠ k → Py.lower (storage_key kind k') ≠ Py.lower (storage_key kind k).
Proof. by destruct kind, k, k'. Qed.

Lemma storage_key_ne kind k k' : k' ≠ k → storage_key kind k ≠ storage_key kind k'.
Proof. by destruct kind, k, k'. Qed.

Lemma resaved_other kind v : kind ≠ MP3 → resaved kind v = v.
Proof. by destruct kind. Qed.

Lemma bind_resaved_other kind (r : result PyVal) :
  kind ≠ MP3 → (v ← r ; Ok (resaved kind v)) = r.
Proof. intros Hk. destruct r; [|done]. simpl. by rewrite resaved_other. Qed.

Lemma stored_text_other kind k value :
  kind ≠ MP3 → stored_text kind k value = Ok value.
Proof. by destruct kind, k. Qed.

(** Writing a field of a file succeeds.  When the text can be read back,
    the file is of the same kind, the field reads as the stored text, every
    other field reads as it does once the file is saved, and the cover test
    reads as before; otherwise the file is one the loaders refuse. *)
Lemma set_tag_field path f kind k value :
  codec_of_ext (ext_of path) = Some kind →
  kind_of_file f = Some kind →
  file_wf f →
  ∃ f', set_tag path (tag_name_of k) value f = (true, f')
    ∧ match stored_text kind k value with
      | Ok s =>
          kind_of_file f' = Some kind
          ∧ read_stored f' (storage_key kind k) = Ok (PyStr s)
          ∧ (∀ k', k' ≠ k →
               read_stored f' (storage_key kind k')
               = (v ← read_stored f (storage_key kind k') ;
                  Ok (resaved kind v)))
          ∧ read_cover f' = read_cover f
      | Raise _ => f' = Unparsable
      end.
Proof.
  intros Hc Hk Hwf.
  destruct f as [tags|audio|tags|vc|vc|]; try discriminate Hk;
    injection Hk as <-.
  - apply file_wf_MP3 in Hwf as [Hwf Hrest].
    rewrite (set_tag_MP3 _ _ _ _ Hc), saved_field by done.
    rewrite reloaded_field_str.
    destruct (reloaded_field k value) as [fr|]; cbn [mbind result_bind];
      eexists; (split; [done|]); [|done].
    split_and!.
    + done.
    + by rewrite read_stored_MP3, with_frame_lookup.
    + intros k' Hne. rewrite <-read_stored_kept, !read_stored_MP3.
      rewrite with_frame_lookup_ne; [done|]. by apply (storage_key_ne MP3 k k').
    + rewrite <-(read_cover_kept tags) by done. rewrite !read_cover_MP3.
      rewrite with_frame_lookup_ne; [done|]. by destruct k.
  - rewrite (set_tag_FLAC _ _ _ _ Hc), stored_text_other by done.
    eexists. split; [done|]. split_and!; try done.
    + unfold read_stored; cbn [flac_tags].
      by rewrite get_VC_set_same by by apply storage_key_valid.
    + intros k' Hne. rewrite bind_resaved_other by done.
      unfold read_stored; cbn [flac_tags].
      by rewrite get_VC_set_other
        by (by apply storage_key_valid || by apply storage_key_lower_ne).
  - rewrite (set_tag_MP4 _ _ _ _ Hc), stored_text_other by done.
    eexists. split; [done|]. split_and!; try done.
    + by rewrite read_stored_MP4_insert, decide_True.
    + intros k' Hne. rewrite bind_resaved_other by done.
      rewrite read_stored_MP4_insert, decide_False; [done|].
      by apply (storage_key_ne MP4 k k').
    + apply read_cover_MP4_insert. by destruct k.
  - rewrite (set_tag_OggVorbis _ _ _ _ Hc), stored_text_other by done.
    eexists. split; [done|]. split_and!; try done.
    + unfold read_stored.
      by rewrite (get_VC_set_same (Some vc)) by by apply storage_key_valid.
    + intros k' Hne. rewrite bind_resaved_other by done. unfold read_stored.
      by rewrite (get_VC_set_other (Some vc))
        by (by apply storage_key_valid || by apply storage_key_lower_ne).
    + unfold read_cover. by rewrite !contains_VC_set_other by by destruct k.
  - rewrite (set_tag_OggOpus _ _ _ _ Hc), stored_text_other by done.
    eexists. split; [done|]. split_and!; try done.
    + unfold read_stored.
      by rewrite (get_VC_set_same (Some vc)) by by apply storage_key_valid.
    + intros k' Hne. rewrite bind_resaved_other by done. unfold read_stored.
      by rewrite (get_VC_set_other (Some vc))
        by (by apply storage_key_valid || by apply storage_key_lower_ne).
    + unfold read_cover. by rewrite !contains_VC_set_other by by destruct k.
Qed.

End SetTagFacts.

(** ** Reading after writing a field *)

Lemma get_tags_Some path f kind r :
  codec_of_ext (ext_of path) = Some kind →
  kind_of_file f = Some kind →
  get_tags path f = Some r ↔
  ∃ title artist album year genre has_cover,
    read_stored f (storage_key kind Title) = Ok title
    ∧ read_stored f (storage_key kind Artist) = Ok artist
    ∧ read_stored f (storage_key kind Album) = Ok album
    ∧ read_stored f (storage_key kind Year) = Ok year
    ∧ read_stored f (storage_key kind Genre) = Ok genre
    ∧ read_cover f = Ok has_cover
    ∧ r = tag_record title artist album year genre has_cover.
Proof.
  intros Hc Hk. rewrite (get_tags_read _ _ _ Hc Hk). split.
  - destruct (read_stored f (storage_key kind Title)) as [title|]; [|done].
    destruct (read_stored f (storage_key kind Artist)) as [artist|]; [|done].
    destruct (read_stored f (storage_key kind Album)) as [album|]; [|done].
    destruct (read_stored f (storage_key kind Year)) as [year|]; [|done].
    destruct (read_stored f (storage_key kind Genre)) as [genre|]; [|done].
    destruct (read_cover f) as [has_cover|]; [|done].
    intros [= <-]. by eexists _, _, _, _, _, _.
  - intros (title & artist & album & year & genre & has_cover
            & -> & -> & -> & -> & -> & -> & ->). done.
Qed.


(** A file [get_tags] can read is of the kind the path announces. *)
Lemma get_tags_Some_kind path f kind r :
  codec_of_ext (ext_of path) = Some kind →
  get_tags path f = Some r →
  kind_of_file f = Some kind.
Proof.
  intros Hc. unfold get_tags. rewrite Hc.
  destruct kind, f; try done.
Qed.

Lemma field_name_ne k k' : k' ≠ k → tag_name_of k' ≠ tag_name_of k.
Proof. by destruct k, k'. Qed.

Lemma resaved_record kind title artist album year genre has_cover :
  resaved kind <$> tag_record title artist album year genre has_cover
  = tag_record (resaved kind title) (resaved kind artist) (resaved kind album)
      (resaved kind year) (resaved kind genre) has_cover.
Proof. unfold tag_record. rewrite !fmap_insert, fmap_empty. by destruct kind. Qed.

(** The record after a write whose text can be read back: the one before,
    as it reads once the file is saved, with the written field replaced. *)
Lemma get_tags_after_set_tag path f kind k value r s :
  codec_of_ext (ext_of path) = Some kind →
  file_wf f →
  get_tags path f = Some r →
  stored_text kind k value = Ok s →
  ∃ f', set_tag path (tag_name_of k) value f = (true, f')
    ∧ kind_of_file f' = Some kind
    ∧ get_tags path f'
      = Some (<[tag_name_of k := PyStr s]> (resaved kind <$> r)).
Proof.
  intros Hc Hwf Hr Hs.
  pose proof (get_tags_Some_kind _ _ _ _ Hc Hr) as Hk.
  destruct (set_tag_field path f kind k value Hc Hk Hwf) as (f' & Hset & Hf').
  rewrite Hs in Hf'. destruct Hf' as (Hk' & Hsame & Hother & Hcover).
  exists f'. split_and!; try done.
  apply (get_tags_Some _ _ _ _ Hc Hk) in Hr
    as (title & artist & album & year & genre & has_cover
        & Ht & Ha & Hal & Hy & Hg & Hcov & ->).
  apply (get_tags_Some _ _ _ _ Hc Hk').
  rewrite Hcover, Hcov, resaved_record.
  destruct k.
  - rewrite Hsame, !Hother, Ha, Hal, Hy, Hg by done.
    by eexists _, _, _, _, _, _.
  - rewrite Hsame, !Hother, Ht, Hal, Hy, Hg by done.
    by eexists _, _, _, _, _, _.
  - rewrite Hsame, !Hother, Ht, Ha, Hy, Hg by done.
    by eexists _, _, _, _, _, _.
  - rewrite Hsame, !Hother, Ht, Ha, Hal, Hg by done.
    by eexists _, _, _, _, _, _.
  - rewrite Hsame, !Hother, Ht, Ha, Hal, Hy by done.
    by eexists _, _, _, _, _, _.
Qed.

(** A write whose text the loader refuses returns [True] and leaves a file
    that [get_tags] cannot read. *)
Lemma get_tags_after_refused path f kind k value e :
  codec_of_ext (ext_of path) = Some kind →
  kind_of_file f = Some kind →
  file_wf f →
  stored_text kind k value = Raise e →
  set_tag path (tag_name_of k) value f = (true, Unparsable)
  ∧ get_tags path Unparsable = None.
Proof.
  intros Hc Hk Hwf Hs.
  destruct (set_tag_field path f kind k value Hc Hk Hwf) as (f' & Hset & Hf').
  rewrite Hs in Hf'. subst f'. split; [done|].
  by apply (get_tags_other_kind _ _ kind).
Qed.

(** ** What a written text reads back as *)

Lemma is_digit_In c :
  is_digit c = true →
  In c ["0"; "1"; "2"; "3"; "4"; "5"; "6"; "7"; "8"; "9"]%char.
Proof.
  unfold is_digit. intros (d & Hin & Heq)%existsb_exists.
  apply Ascii.eqb_eq in Heq. by subst.
Qed.

Lemma stored_text_year4_all :
  let digits := ["0"; "1"; "2"; "3"; "4"; "5"; "6"; "7"; "8"; "9"]%char in
  forallb (λ a, forallb (λ b, forallb (λ c, forallb (λ d,
    match stored_text MP3 Year (String a (String b (String c (String d "")))) with
    | Ok s => String.eqb s (String a (String b (String c (String d ""))))
    | Raise _ => false
    end)
    digits) digits) digits) digits = true.
Proof. vm_compute. reflexivity. Qed.

(** A year of four digits is one time stamp with a year and nothing else,
    and renders as written. *)
Lemma stored_text_year4 value :
  is_year4 value = true → stored_text MP3 Year value = Ok value.
Proof.
  destruct value as [|a [|b [|c [|d [|? ?]]]]]; try done.
  unfold is_year4. rewrite !andb_true_iff. intros [[[Ha Hb] Hc] Hd].
  apply is_digit_In in Ha, Hb, Hc, Hd.
  pose proof stored_text_year4_all as Hall. cbv zeta in Hall.
  rewrite forallb_forall in Hall. specialize (Hall a Ha).
  rewrite forallb_forall in Hall. specialize (Hall b Hb).
  rewrite forallb_forall in Hall. specialize (Hall c Hc).
  rewrite forallb_forall in Hall. specialize (Hall d Hd).
  destruct (stored_text MP3 Year _) as [s|]; [|done].
  by apply string_eqb_true in Hall as ->.
Qed.

(** The title, the artist and the album of an MP3 file read back as
    written, but for the empty text. *)
Lemma stored_text_plain k value :
  k ≠ Year → k ≠ Genre → value ≠ "" → stored_text MP3 k value = Ok value.
Proof.
  intros Hy Hg Hv. destruct k; try done; simpl; by rewrite unless_empty_ne.
Qed.

Lemma stored_text_as_written kind k value s :
  stored_text kind k value = Ok s →
  kind ≠ MP3
  ∨ (k ≠ Year ∧ k ≠ Genre ∧ value ≠ "")
  ∨ (k = Year ∧ is_year4 value = true) →
  s = value.
Proof.
  intros Hs [H|[(Hy & Hg & Hv)|[-> H]]].
  - rewrite stored_text_other in Hs by done. by injection Hs.
  - destruct (decide (kind = MP3)) as [->|Hk].
    + rewrite stored_text_plain in Hs by done. by injection Hs.
    + rewrite stored_text_other in Hs by done. by injection Hs.
  - destruct (decide (kind = MP3)) as [->|Hk].
    + rewrite stored_text_year4 in Hs by done. by injection Hs.
    + rewrite stored_text_other in Hs by done. by injection Hs.
Qed.

(** ** Claims on [set_tag] followed by [get_tags] *)



(** C9, as found in the code. Writing a field of an MP3 file that has no
    tag container succeeds, and leaves a container with a frame for the
    field when the text is stored.  [get_tags] then returns "Not set" for the four fields not written and [False] for
    [has_cover], and for the written field the written text when it is a
    title, an artist or an album that is not empty, or a year of four
    digits; an empty text reads as "Not set", another year as the time
    stamps render it, which is "Not set" when they render nothing, and a
    genre as the loader parses it; when the loader raises on the genre,
    [get_tags] returns [None]. *)
Theorem set_tag_fresh_MP3 path k value :
  codec_of_ext (ext_of path) = Some MP3 →
  ∃ f',
    set_tag path (tag_name_of k) value (MP3File None) = (true, f')
    ∧ match stored_text MP3 k value with
      | Ok s =>
          ∃ r',
            kind_of_file f' = Some MP3
            ∧ get_tags path f' = Some r'
            ∧ r' !! tag_name_of k = Some (PyStr s)
            ∧ ((k ≠ Year ∧ k ≠ Genre ∧ value ≠ "")
               ∨ (k = Year ∧ is_year4 value = true) →
               s = value)
            ∧ (∀ k', k' ≠ k → r' !! tag_name_of k' = Some (PyStr "Not set"))
            ∧ r' !! "has_cover" = Some (PyBool false)
            ∧ (s ≠ "Not set" →
               ∃ tags, f' = MP3File (Some tags)
                       ∧ is_Some (tags !! storage_key MP3 k))
      | Raise _ => get_tags path f' = None
      end.
Proof.
  intros Hc.
  assert (get_tags path (MP3File None)
          = Some (tag_record (PyStr "Not set") (PyStr "Not set") (PyStr "Not set")
                    (PyStr "Not set") (PyStr "Not set") false)) as Hr.
  { by rewrite (get_tags_read _ _ MP3). }
  destruct (stored_text MP3 k value) as [s|e] eqn:Hs.
  - destruct (get_tags_after_set_tag path (MP3File None) MP3 k value _ s Hc I Hr Hs)
      as (f' & Hset & Hk' & Hget).
    exists f'. split; [done|].
    rewrite set_tag_MP3, saved_field in Hset by (done || apply ID3_wf_empty).
    pose proof Hs as Hs'. rewrite reloaded_field_str in Hs'.
    destruct (reloaded_field k value) as [fr|]; [|done].
    injection Hset as <-. injection Hs' as <-.
    eexists. split_and!; [done|done| | | | |].
    + by rewrite lookup_insert_eq.
    + intros Hcase. apply (stored_text_as_written MP3 k value _ Hs). by right.
    + intros k' Hne.
      rewrite lookup_insert_ne by (intros Heq; by apply (field_name_ne k k')).
      by destruct k'.
    + rewrite lookup_insert_ne by by destruct k. done.
    + intros Hset. eexists. split; [done|]. rewrite with_frame_lookup.
      by destruct fr.
  - destruct (get_tags_after_refused path (MP3File None) MP3 k value e Hc eq_refl I Hs)
      as [Hset Hnone].
    by exists Unparsable.
Qed.

(** ** Writing a cover *)

Section SetCoverFacts.

Variable b64 : Picture → string.

Local Opaque delall ID3_reload.

(** The file a cover write leaves, format by format. *)
Lemma set_cover_MP3 path image_data jpeg tags :
  codec_of_ext (ext_of path) = Some MP3 →
  normalize image_data = Ok jpeg →
  file_wf (MP3File tags) →
  set_cover b64 path image_data (MP3File tags)
  = (true, MP3File (Some (<["APIC:Cover" := APIC 3 "image/jpeg" 3 "Cover" jpeg]>
                            (delall "APIC"
                               (kept (match tags with Some t => t | None => ∅ end)))))).
Proof.
  intros Hc Hn Hwf. unfold set_cover. rewrite Hc, Hn; simpl.
  apply file_wf_MP3 in Hwf as [Hwf0 Hrest].
  destruct (delall_APIC _ Hwf0) as (Hwf1 & Hno & Hpre & Hsame).
  unfold saved. rewrite ID3_reload_insert_APIC; [|done| |done| |done..].
  - by rewrite kept_delall.
  - rewrite (genre_at_rest_same (match tags with Some t => t | None => ∅ end));
      [done|by apply Hsame].
  - intros key fr Hl. by destruct (Hpre key fr Hl).
Qed.






(** A cover write that returns [True] went through the image steps and was
    made on a file of the kind the path announces. *)
Lemma set_cover_true path image_data f f' kind :
  codec_of_ext (ext_of path) = Some kind →
  set_cover b64 path image_data f = (true, f') →
  (∃ jpeg, normalize image_data = Ok jpeg) ∧ kind_of_file f = Some kind.
Proof.
  intros Hc. unfold set_cover. rewrite Hc.
  destruct (normalize image_data) as [jpeg|]; [|done].
  intros Hset. split; [by eexists|].
  destruct kind, f; try done.
Qed.

End SetCoverFacts.

Section CoverClaims.

Variable b64 : Picture → string.

Lemma read_stored_MP3_Ok tags key : ∃ v, read_stored (MP3File tags) key = Ok v.
Proof.
  unfold read_stored, get, ID3_getitem, dict_getitem.
  destruct tags as [t|]; simpl; [|by eexists].
  destruct (t !! key); simpl; by eexists.
Qed.

Lemma get_tags_MP3_has_cover path tags has_cover :
  codec_of_ext (ext_of path) = Some MP3 →
  read_cover (MP3File tags) = Ok has_cover →
  ∃ r, get_tags path (MP3File tags) = Some r
       ∧ r !! "has_cover" = Some (PyBool has_cover).
Proof.
  intros Hc Hcov.
  destruct (read_stored_MP3_Ok tags (storage_key MP3 Title)) as [title Ht].
  destruct (read_stored_MP3_Ok tags (storage_key MP3 Artist)) as [artist Ha].
  destruct (read_stored_MP3_Ok tags (storage_key MP3 Album)) as [album Hal].
  destruct (read_stored_MP3_Ok tags (storage_key MP3 Year)) as [year Hy].
  destruct (read_stored_MP3_Ok tags (storage_key MP3 Genre)) as [genre Hg].
  exists (tag_record title artist album year genre has_cover). split.
  - apply (get_tags_Some _ _ MP3); [done..|]. by eexists _, _, _, _, _, _.
  - apply tag_record_lookup.
Qed.

(** C1, at the MP3 branch. After a cover write that returned [True] the tag
    holds the new picture under the key "APIC:Cover" and nothing under
    "APIC:", the key [get_tags] tests: [get_tags] reads the file and reports
    [has_cover = False]. *)
Theorem set_cover_MP3_has_cover_false path image_data tags f' :
  codec_of_ext (ext_of path) = Some MP3 →
  file_wf (MP3File tags) →
  set_cover b64 path image_data (MP3File tags) = (true, f') →
  read_cover f' = Ok false
  ∧ ∃ r, get_tags path f' = Some r ∧ r !! "has_cover" = Some (PyBool false).
Proof.
  intros Hc Hwf Hset.
  destruct (set_cover_true _ _ _ _ _ _ Hc Hset) as [[jpeg Hn] _].
  rewrite (set_cover_MP3 _ _ _ _ _ Hc Hn Hwf) in Hset. injection Hset as <-.
  assert (ID3_wf (kept (match tags with Some t => t | None => ∅ end))) as Hwf0.
  { apply kept_wf. by apply file_wf_MP3 in Hwf as [? _]. }
  destruct (delall_APIC _ Hwf0) as (_ & _ & Hpre & _).
  match goal with |- ?P ∧ _ => assert P as Hcov end.
  { unfold read_cover, contains, dict_getitem.
    rewrite bool_decide_eq_false_2 by apply insert_non_empty.
    rewrite lookup_insert_ne by done.
    destruct (delall "APIC" _ !! "APIC:") as [fr|] eqn:Hl; [|done].
    by destruct (Hpre _ _ Hl). }
  split; [done|]. by apply get_tags_MP3_has_cover.
Qed.

End CoverClaims.

Section PictureCount.

Variable b64 : Picture → string.




End PictureCount.

(** ** Field names outside the five *)



(** An MP3 file with an empty tag and one without a tag are read and
    written alike. *)
Lemma MP3_empty_tag_alike b64 path tag_name value image_data jpeg :
  codec_of_ext (ext_of path) = Some MP3 →
  normalize image_data = Ok jpeg →
  get_tags path (MP3File (Some ∅)) = get_tags path (MP3File None)
  ∧ set_tag path tag_name value (MP3File (Some ∅))
    = set_tag path tag_name value (MP3File None)
  ∧ set_cover b64 path image_data (MP3File (Some ∅))
    = set_cover b64 path image_data (MP3File None).
Proof.
  intros Hc Hn. split_and!.
  - by rewrite !(get_tags_read _ _ MP3) by done.
  - unfold set_tag. rewrite Hc. reflexivity.
  - unfold set_cover. rewrite Hc, Hn. reflexivity.
Qed.




(** * Further properties of the codec layer *)

Section CodecErrors.

Variable b64 : Picture → string.

(** X1. When the file at the path is not what the extension announces, the
    loader raises inside each method: [get_tags] returns [None], [set_tag]
    and [set_cover] return [False], and the file is left as it was. *)
Theorem wrong_kind_is_reported path f kind tag_name value image_data :
  codec_of_ext (ext_of path) = Some kind →
  kind_of_file f ≠ Some kind →
  get_tags path f = None
  ∧ set_tag path tag_name value f = (false, f)
  ∧ set_cover b64 path image_data f = (false, f).
Proof.
  intros Hc Hk. split_and!.
  - by apply (get_tags_other_kind _ _ kind).
  - unfold set_tag. rewrite Hc. by destruct kind, f.
  - unfold set_cover. rewrite Hc.
    destruct (normalize image_data); [|done]. by destruct kind, f.
Qed.

End CodecErrors.

Lemma read_stored_vorbis_Ok (tags : option (list (string * string))) key :
  is_valid_key key = true →
  ∃ value, (l ← get VC_getitem tags key ["Not set"] ; index0 l) = Ok (PyStr value).
Proof.
  intros Hv. unfold get, VC_getitem. destruct tags as [vc|]; [|by eexists].
  rewrite Hv; simpl.
  destruct (map snd (List.filter _ vc)) as [|x l]; by eexists.
Qed.

Lemma contains_vorbis_Ok vc key :
  is_valid_key key = true →
  ∃ b, contains VC_getitem (Some vc) key = Ok b.
Proof.
  intros Hv. unfold contains, VC_getitem. rewrite Hv; simpl.
  destruct (map snd (List.filter _ vc)); by eexists.
Qed.

Lemma read_stored_Ok f kind k :
  kind ≠ MP4 → kind_of_file f = Some kind →
  ∃ value, read_stored f (storage_key kind k) = Ok (PyStr value).
Proof.
  intros Hkind Hk.
  destruct f as [tags|audio|tags|vc|vc|]; try discriminate Hk;
    injection Hk as <-; try done.
  - destruct (read_stored_MP3_Ok tags (storage_key MP3 k)) as [v Hv].
    revert Hv. unfold read_stored.
    destruct (get ID3_getitem tags _ _); simpl; [|done]. by eexists.
  - apply read_stored_vorbis_Ok. by destruct k.
  - apply (read_stored_vorbis_Ok (Some vc)). by destruct k.
  - apply (read_stored_vorbis_Ok (Some vc)). by destruct k.
Qed.

Lemma read_cover_Ok f kind :
  kind_of_file f = Some kind → ∃ b, read_cover f = Ok b.
Proof.
  intros Hk. destruct f as [tags|audio|tags|vc|vc|]; try discriminate Hk.
  - destruct tags as [t|]; simpl; [|by eexists].
    case_bool_decide; [by eexists|]. unfold contains, dict_getitem.
    destruct (t !! "APIC:"); by eexists.
  - by eexists.
  - unfold read_cover, contains, dict_getitem.
    destruct tags as [t|]; [|by eexists]. destruct (t !! "covr"); by eexists.
  - unfold read_cover.
    destruct (contains_vorbis_Ok vc "metadata_block_picture") as [[] ->];
      [done|by eexists|]; simpl.
    by apply contains_vorbis_Ok.
  - unfold read_cover.
    destruct (contains_vorbis_Ok vc "metadata_block_picture") as [[] ->];
      [done|by eexists|]; simpl.
    by apply contains_vorbis_Ok.
Qed.

Lemma get_tags_total path f kind :
  codec_of_ext (ext_of path) = Some kind →
  kind_of_file f = Some kind →
  kind ≠ MP4 → ∃ r, get_tags path f = Some r.
Proof.
  intros Hc Hk Hkind.
  destruct (read_stored_Ok f kind Title Hkind Hk) as [title Ht].
  destruct (read_stored_Ok f kind Artist Hkind Hk) as [artist Ha].
  destruct (read_stored_Ok f kind Album Hkind Hk) as [album Hal].
  destruct (read_stored_Ok f kind Year Hkind Hk) as [year Hy].
  destruct (read_stored_Ok f kind Genre Hkind Hk) as [genre Hg].
  destruct (read_cover_Ok f kind Hk) as [b Hb].
  eexists. apply (get_tags_Some _ _ kind); [done..|].
  by eexists _, _, _, _, _, _.
Qed.

(** X2. [get_tags] on an MP3, FLAC or Ogg file of the announced kind always
    returns a record; on an M4A file it returns [None] exactly when one of
    the five atoms is present with no value. *)
Theorem get_tags_reads_or_empty_atom path f kind :
  codec_of_ext (ext_of path) = Some kind →
  kind_of_file f = Some kind →
  (kind ≠ MP4 → ∃ r, get_tags path f = Some r)
  ∧ (∀ tags, f = MP4File tags →
       get_tags path f = None ↔
       ∃ t k, tags = Some t
              ∧ (t !! storage_key MP4 k = Some (Texts [])
                 ∨ t !! storage_key MP4 k = Some (Covers []))).
Proof.
  intros Hc Hk. split.
  - intros Hkind.
    destruct (read_stored_Ok f kind Title Hkind Hk) as [title Ht].
    destruct (read_stored_Ok f kind Artist Hkind Hk) as [artist Ha].
    destruct (read_stored_Ok f kind Album Hkind Hk) as [album Hal].
    destruct (read_stored_Ok f kind Year Hkind Hk) as [year Hy].
    destruct (read_stored_Ok f kind Genre Hkind Hk) as [genre Hg].
    destruct (read_cover_Ok f kind Hk) as [b Hb].
    eexists. apply (get_tags_Some _ _ kind); [done..|].
    by eexists _, _, _, _, _, _.
  - intros tags ->. injection Hk as <-.
    assert (∀ k, (∃ v, read_stored (MP4File tags) (storage_key MP4 k) = Ok v)
                 ∨ ∃ t, tags = Some t
                        ∧ (t !! storage_key MP4 k = Some (Texts [])
                           ∨ t !! storage_key MP4 k = Some (Covers []))) as Hread.
    { intros k. unfold read_stored, get, dict_getitem.
      destruct tags as [t|]; [|left; by eexists].
      destruct (t !! storage_key MP4 k) as [[[|x l]|[|c l]]|] eqn:Hl; simpl;
        try (left; by eexists); right; eexists; by eauto. }
    assert (∀ t k, tags = Some t →
              t !! storage_key MP4 k = Some (Texts [])
              ∨ t !! storage_key MP4 k = Some (Covers []) →
              read_stored (MP4File tags) (storage_key MP4 k) = Raise IndexError)
      as Hraise.
    { intros t k -> Hl. unfold read_stored, get, dict_getitem.
      by destruct Hl as [-> | ->]. }
    destruct (read_cover_Ok (MP4File tags) MP4 eq_refl) as [b Hb].
    rewrite (get_tags_read path (MP4File tags) MP4 Hc eq_refl), Hb. split.
    + intros Hnone.
      destruct (Hread Title) as [[v1 H1]|(t & -> & H1)]; [|by eexists _, Title].
      destruct (Hread Artist) as [[v2 H2]|(t & -> & H2)]; [|by eexists _, Artist].
      destruct (Hread Album) as [[v3 H3]|(t & -> & H3)]; [|by eexists _, Album].
      destruct (Hread Year) as [[v4 H4]|(t & -> & H4)]; [|by eexists _, Year].
      destruct (Hread Genre) as [[v5 H5]|(t & -> & H5)]; [|by eexists _, Genre].
      by rewrite H1, H2, H3, H4, H5 in Hnone.
    + intros (t & k & Ht & Hl). pose proof (Hraise t k Ht Hl) as Hr.
      destruct (read_stored (MP4File tags) (storage_key MP4 Title)) as [v1|] eqn:H1;
        [|reflexivity].
      destruct (read_stored (MP4File tags) (storage_key MP4 Artist)) as [v2|] eqn:H2;
        [|reflexivity].
      destruct (read_stored (MP4File tags) (storage_key MP4 Album)) as [v3|] eqn:H3;
        [|reflexivity].
      destruct (read_stored (MP4File tags) (storage_key MP4 Year)) as [v4|] eqn:H4;
        [|reflexivity].
      destruct (read_stored (MP4File tags) (storage_key MP4 Genre)) as [v5|] eqn:H5;
        [|reflexivity].
      destruct k; congruence.
Qed.

(** ** Writes of fields, composed *)

Lemma filter_idem {A} (P : A → bool) (l : list A) :
  List.filter P (List.filter P l) = List.filter P l.
Proof.
  induction l as [|x l IH]; simpl; [done|].
  destruct (P x) eqn:E; simpl; [|done]. by rewrite E, IH.
Qed.

(** Setting a comment twice leaves what setting it once with the second
    value leaves. *)
Lemma vorbis_set_twice key v1 v2 (vc : list (string * string)) :
  (List.filter (λ kv, negb (key_is (Py.lower key) kv))
     (List.filter (λ kv, negb (key_is (Py.lower key) kv)) vc ++ [(key, v1)])
   ++ [(key, v2)])%list
  = (List.filter (λ kv, negb (key_is (Py.lower key) kv)) vc ++ [(key, v2)])%list.
Proof.
  rewrite List.filter_app, filter_idem. simpl.
  unfold key_is at 2; simpl. rewrite String.eqb_refl; simpl.
  by rewrite app_nil_r.
Qed.

Lemma reloaded_field_frame k value fr :
  reloaded_field k value = Ok (Some fr) →
  HashKey fr = storage_key MP3 k ∧ frame_ok fr = true.
Proof.
  unfold reloaded_field. destruct (is_written _); [|done].
  destruct k; try (intros [= <-]; done).
  destruct (genres _); simpl; [|done]. by intros [= <-].
Qed.

(** A frame put under a key hides what an earlier save left there. *)
Lemma with_frame_kept_twice key fr fr' (t : gmap string Frame) :
  with_frame key fr' (kept (with_frame key fr t)) = with_frame key fr' (kept t).
Proof.
  destruct fr as [fr1|]; simpl.
  - rewrite kept_insert. destruct (is_written fr1).
    + apply (with_frame_twice key (Some (reread fr1))).
    + apply (with_frame_twice key None).
  - rewrite kept_delete. apply (with_frame_twice key None).
Qed.





(** X3. The last write of a field wins: when the file is still one of its
    kind after the first write, writing the field again leaves the file,
    and the return value, that the second write alone leaves, whatever the
    extension and the kind of the file.  A first write can leave a file of
    no kind, one that the loaders refuse, and then the second write returns
    [False] and leaves the file alone. *)
Theorem set_tag_last_write_wins path f k v1 v2 :
  file_wf f →
  let f1 := snd (set_tag path (tag_name_of k) v1 f) in
  (kind_of_file f1 = kind_of_file f →
   set_tag path (tag_name_of k) v2 f1 = set_tag path (tag_name_of k) v2 f)
  ∧ (kind_of_file f1 ≠ kind_of_file f →
     f1 = Unparsable ∧ set_tag path (tag_name_of k) v2 f1 = (false, f1)).
Proof.
  intros Hwf.
  destruct (codec_of_ext (ext_of path)) as [kind|] eqn:Hc.
  2:{ unfold set_tag. by rewrite Hc. }
  destruct kind, f as [tags|audio|tags|vc|vc|];
    try (unfold set_tag; rewrite Hc; split; [reflexivity|done]).
  - apply file_wf_MP3 in Hwf as [Hwf Hrest].
    rewrite (set_tag_MP3 _ _ v1 _ Hc), saved_field by done.
    destruct (reloaded_field k v1) as [fr1|] eqn:E1; cbn [snd].
    2:{ split; [done|]. intros _. split; [done|].
        unfold set_tag. rewrite Hc. by destruct k. }
    split; [intros _|done].
    rewrite (set_tag_MP3 _ _ v2 (Some _) Hc), (set_tag_MP3 _ _ v2 tags Hc).
    f_equal. rewrite !saved_field; try done.
    + destruct (reloaded_field k v2) as [fr2|]; [|done].
      by rewrite with_frame_kept_twice, kept_idem.
    + apply with_frame_wf; [by apply kept_wf|].
      intros fr' ->. by apply (reloaded_field_frame k v1).
    + intros Hne.
      rewrite (genre_at_rest_same (kept (match tags with
                                         | Some t => t
                                         | None => ∅
                                         end))).
      * by apply genre_at_rest_kept.
      * apply with_frame_lookup_ne. by destruct k.
  - rewrite (set_tag_FLAC _ _ v1 _ Hc); cbn [snd]. split; [intros _|done].
    rewrite !(set_tag_FLAC _ _ _ _ Hc); cbn [flac_tags flac_pictures].
    by rewrite vorbis_set_twice.
  - rewrite (set_tag_MP4 _ _ v1 _ Hc); cbn [snd]. split; [intros _|done].
    rewrite !(set_tag_MP4 _ _ _ _ Hc). by rewrite insert_insert_eq.
  - rewrite (set_tag_OggVorbis _ _ v1 _ Hc); cbn [snd]. split; [intros _|done].
    rewrite !(set_tag_OggVorbis _ _ _ _ Hc). by rewrite vorbis_set_twice.
  - rewrite (set_tag_OggOpus _ _ v1 _ Hc); cbn [snd]. split; [intros _|done].
    rewrite !(set_tag_OggOpus _ _ _ _ Hc). by rewrite vorbis_set_twice.
Qed.



(** ** Cover writes and the text fields *)

Section CoverFrame.

Variable b64 : Picture → string.

Lemma read_field_of_stored path f kind k r value :
  codec_of_ext (ext_of path) = Some kind →
  kind_of_file f = Some kind →
  get_tags path f = Some r →
  read_stored f (storage_key kind k) = Ok value →
  r !! tag_name_of k = Some value.
Proof.
  intros Hc Hk Hr Hv.
  apply (get_tags_Some _ _ _ _ Hc Hk) in Hr
    as (title & artist & album & year & genre & has_cover
        & Ht & Ha & Hal & Hy & Hg & _ & ->).
  destruct k; simpl; unfold tag_record; simplify_map_eq; congruence.
Qed.






End CoverFrame.

(** ** Comments of FLAC and Ogg files *)

Lemma comments_of_set_tag path f kind k value :
  codec_of_ext (ext_of path) = Some kind →
  kind ≠ MP3 → kind ≠ MP4 →
  kind_of_file f = Some kind →
  set_tag path (tag_name_of k) value f
  = (true, snd (set_tag path (tag_name_of k) value f))
  ∧ comments_of (snd (set_tag path (tag_name_of k) value f))
    = (List.filter (λ kv, negb (key_is (storage_key kind k) kv)) (comments_of f)
       ++ [(storage_key kind k, value)])%list.
Proof.
  intros Hc H3 H4 Hk.
  destruct f as [tags|audio|tags|vc|vc|]; try discriminate Hk;
    injection Hk as <-; try done.
  - rewrite (set_tag_FLAC _ _ _ _ Hc). split; [done|]. by destruct k.
  - rewrite (set_tag_OggVorbis _ _ _ _ Hc). split; [done|]. by destruct k.
  - rewrite (set_tag_OggOpus _ _ _ _ Hc). split; [done|]. by destruct k.
Qed.

(** X8. In a FLAC or Ogg file a field write replaces the field wholesale: it
    succeeds, drops every comment that bears the field's name in any letter
    case, however many there were, keeps all other comments in their order
    and appends one comment with the new value. *)
Theorem set_tag_vorbis_replaces_all path f kind k value :
  codec_of_ext (ext_of path) = Some kind →
  kind ≠ MP3 → kind ≠ MP4 →
  kind_of_file f = Some kind →
  let f' := snd (set_tag path (tag_name_of k) value f) in
  fst (set_tag path (tag_name_of k) value f) = true
  ∧ List.filter (key_is (storage_key kind k)) (comments_of f')
    = [(storage_key kind k, value)]
  ∧ List.filter (λ kv, negb (key_is (storage_key kind k) kv)) (comments_of f')
    = List.filter (λ kv, negb (key_is (storage_key kind k) kv)) (comments_of f).
Proof.
  intros Hc H3 H4 Hk.
  destruct (comments_of_set_tag path f kind k value Hc H3 H4 Hk) as [Hs Hcom].
  simpl. rewrite Hcom, Hs. split; [done|].
  rewrite !List.filter_app, filter_filter_negb_same, filter_idem; simpl.
  assert (key_is (storage_key kind k) (storage_key kind k, value) = true) as ->.
  { unfold key_is; simpl. apply string_eqb_true. by destruct kind, k. }
  simpl. by rewrite app_nil_r.
Qed.

(** X9. In a FLAC or Ogg file [get_tags] finds a field under its name in any
    letter case and returns the value of the first such comment; with no
    such comment it returns "Not set". *)
Theorem get_tags_vorbis_first_value path f kind k :
  codec_of_ext (ext_of path) = Some kind →
  kind ≠ MP3 → kind ≠ MP4 →
  kind_of_file f = Some kind →
  (∀ before name value after,
     comments_of f = (before ++ (name, value) :: after)%list →
     Py.lower name = storage_key kind k →
     (∀ kv, In kv before → Py.lower (fst kv) ≠ storage_key kind k) →
     read_field path f (tag_name_of k) = Some (PyStr value))
  ∧ ((∀ kv, In kv (comments_of f) → Py.lower (fst kv) ≠ storage_key kind k) →
     read_field path f (tag_name_of k) = Some (PyStr "Not set")).
Proof.
  intros Hc H3 H4 Hk.
  destruct (get_tags_total path f kind Hc Hk H4) as [r Hr].
  assert (∀ value,
            (l ← get VC_getitem (Some (comments_of f)) (storage_key kind k)
                   ["Not set"] ; index0 l) = Ok (PyStr value) →
            read_field path f (tag_name_of k) = Some (PyStr value)) as Hfield.
  { intros value Hv. unfold read_field. rewrite Hr.
    apply (read_field_of_stored path f kind k r _ Hc Hk Hr).
    destruct f as [tags|audio|tags|vc|vc|]; try discriminate Hk;
      injection Hk as <-; try done.
    unfold read_stored. rewrite <-Hv. unfold comments_of.
    by rewrite get_VC_default by by destruct k. }
  assert (is_valid_key (storage_key kind k) = true) as Hvalid
    by by apply storage_key_valid.
  assert (Py.lower (storage_key kind k) = storage_key kind k) as Hlow
    by by destruct kind, k.
  assert (∀ l : list (string * string),
            (∀ kv, In kv l → Py.lower (fst kv) ≠ storage_key kind k) →
            List.filter (key_is (storage_key kind k)) l = []) as Hnone.
  { intros l Hl. induction l as [|kv l IH]; simpl; [done|].
    assert (key_is (storage_key kind k) kv = false) as ->.
    { apply string_eqb_false, Hl. by left. }
    apply IH. intros kv' Hin. apply Hl. by right. }
  split.
  - intros before name value after Hcom Hname Hbefore. apply Hfield.
    unfold get, VC_getitem. rewrite Hvalid, Hlow, Hcom; simpl.
    rewrite List.filter_app, (Hnone before Hbefore); simpl.
    unfold key_is at 1; simpl. rewrite Hname, String.eqb_refl. done.
  - intros Hall. apply Hfield.
    unfold get, VC_getitem. rewrite Hvalid, Hlow; simpl.
    by rewrite (Hnone _ Hall).
Qed.

(** ** The cover test of the MP3 branch *)

(** X10. On an MP3 file [get_tags] reports a cover exactly when the tag holds a
    picture frame whose description is empty; picture frames with a
    description, however many, are not seen. *)
Theorem get_tags_MP3_cover_iff_empty_desc path tags :
  codec_of_ext (ext_of path) = Some MP3 →
  ID3_wf tags →
  (read_field path (MP3File (Some tags)) "has_cover" = Some (PyBool true)
   ↔ ∃ encoding mime type data,
       tags !! "APIC:" = Some (APIC encoding mime type "" data))
  ∧ (read_field path (MP3File (Some tags)) "has_cover" = Some (PyBool false)
     ↔ tags !! "APIC:" = None).
Proof.
  intros Hc Hwf.
  assert (∀ b, read_cover (MP3File (Some tags)) = Ok b →
               read_field path (MP3File (Some tags)) "has_cover" = Some (PyBool b))
    as Hfield.
  { intros b Hb. unfold read_field.
    by destruct (get_tags_MP3_has_cover path (Some tags) b Hc Hb) as (r & -> & ?). }
  destruct (tags !! "APIC:") as [fr|] eqn:Hl.
  - assert (read_cover (MP3File (Some tags)) = Ok true) as Hb.
    { unfold read_cover, contains, dict_getitem.
      rewrite bool_decide_eq_false_2, Hl; [done|].
      intros ->. by rewrite lookup_empty in Hl. }
    rewrite (Hfield _ Hb). split; split; try done.
    intros _. destruct (ID3_wf_lookup _ _ _ Hwf Hl) as [Hk Hok].
    destruct fr as [id ? ?|id ? ?|encoding mime type desc data]; simpl in *.
    + by subst id.
    + by subst id.
    + injection Hk as Hd. change (desc = "") in Hd. subst desc.
      by eexists _, _, _, _.
  - assert (read_cover (MP3File (Some tags)) = Ok false) as Hb.
    { unfold read_cover, contains, dict_getitem. rewrite Hl.
      by case_bool_decide. }
    rewrite (Hfield _ Hb). split; split; try done.
    by intros (? & ? & ? & ? & ?).
Qed.

(** ** More on the image steps *)

Section ImageShape.

Local Open Scope Q_scope.

(** [thumbnail] on an image that exceeds 1000 x 1000 sets the longer side
    to 1000 and does not lengthen the shorter one. *)
Lemma thumbnail_shape m w h :
  (0 < w)%Z → (0 < h)%Z → (1000 < w ∨ 1000 < h)%Z →
  let t := PIL.thumbnail {| PIL.mode := m; PIL.width := w; PIL.height := h |}
                         (1000, 1000)%Z in
  ((w ≤ h)%Z → PIL.height t = 1000%Z ∧ (PIL.width t ≤ w)%Z)
  ∧ ((h < w)%Z → PIL.width t = 1000%Z ∧ (PIL.height t ≤ h)%Z).
Proof.
  intros Hw Hh Hbig. unfold PIL.thumbnail, PIL.preserve_aspect_ratio; simpl.
  assert ((w <=? 1000)%Z && (h <=? 1000)%Z = false) as ->.
  { apply andb_false_iff. rewrite !Z.leb_gt. lia. }
  pose proof (inject_Z_pos w Hw) as HW. pose proof (inject_Z_pos h Hh) as HH.
  assert (inject_Z w <= inject_Z h ↔ (w ≤ h)%Z) as Hle_iff
    by (by rewrite <- Zle_Qle).
  assert ((1000 < h)%Z → 1000 < inject_Z h) as Hbigh.
  { intros. change 1000 with (inject_Z 1000). by rewrite <- Zlt_Qlt. }
  assert ((1000 < w)%Z → 1000 < inject_Z w) as Hbigw.
  { intros. change 1000 with (inject_Z 1000). by rewrite <- Zlt_Qlt. }
  set (W := inject_Z w) in *. set (H := inject_Z h) in *.
  assert (W / H * H == W) as HA by (field; lra).
  assert (0 < W / H) as HApos by (apply Qlt_shift_div_l; lra).
  assert (1000 / (W / H) * W == 1000 * H) as HB by (field; lra).
  assert (0 < 1000 / (W / H)) as HBpos by (apply Qlt_shift_div_l; lra).
  set (A := W / H) in *.
  assert (1000 / 1000 == 1) as Hone by reflexivity.
  change (inject_Z 1000) with 1000.
  destruct (Qle_bool A (1000 / 1000)) eqn:Hle; simpl.
  - apply Qle_bool_iff in Hle.
    assert (A <= 1) as Hle1 by (rewrite Hone in Hle; exact Hle).
    assert (W <= H) as HWH by nra.
    apply Hle_iff in HWH. split; [|lia]. intros _. split; [done|].
    assert (1000 < H) as HH1000 by (apply Hbigh; lia).
    match goal with |- context [PIL.round_aspect ?v ?k] =>
      destruct (round_aspect_near v k) as (H1 & H2 & H3); [lra|];
      set (x := PIL.round_aspect v k) in * end.
    assert (1000 * A < W) as Hv by nra.
    assert (inject_Z x < inject_Z (w + 1)) as Hx.
    { rewrite inject_Z_plus. fold W. change (inject_Z 1) with 1. lra. }
    rewrite <- Zlt_Qlt in Hx. lia.
  - assert (¬ A <= 1000 / 1000) as Hgt.
    { intros Hc. apply Qle_bool_iff in Hc. congruence. }
    assert (1 < A) as Hgt1.
    { apply Qnot_le_lt. intros Hc. apply Hgt. rewrite Hone. exact Hc. }
    assert (¬ W <= H) as HWH by nra.
    rewrite Hle_iff in HWH. split; [lia|]. intros _. split; [done|].
    assert (1000 < W) as HW1000 by (apply Hbigw; lia).
    set (B := 1000 / A) in *.
    match goal with |- context [PIL.round_aspect ?v ?k] =>
      destruct (round_aspect_near v k) as (H1 & H2 & H3); [lra|];
      set (y := PIL.round_aspect v k) in * end.
    assert (B < H) as Hv by nra.
    assert (inject_Z y < inject_Z (h + 1)) as Hy.
    { rewrite inject_Z_plus. fold H. change (inject_Z 1) with 1. lra. }
    rewrite <- Zlt_Qlt in Hy. lia.
Qed.

End ImageShape.


(** X11. The image steps succeed exactly on bytes that decode to an image whose
    mode is not RGBA, and then give a JPEG of quality 90 in mode RGB. *)
Theorem normalize_succeeds_iff image_data :
  ((∃ out, normalize image_data = Ok out)
   ↔ ∃ fmt q img, image_data = PIL.Encoded fmt q img ∧ PIL.mode img ≠ "RGBA")
  ∧ ∀ out, normalize image_data = Ok out →
      ∃ img, out = PIL.Encoded "JPEG" 90 img ∧ PIL.mode img = "RGB".
Proof.
  destruct image_data as [raw|fmt q [m w h]].
  { split; [split|]; [by intros [? ?]|by intros (? & ? & ? & ? & ?)|done]. }
  rewrite normalize_Encoded. cbv zeta.
  set (m1 := if negb _ then "RGB" else m).
  set (img := {| PIL.mode := m1; PIL.width := w; PIL.height := h |}).
  set (img' := if (1000 <? w)%Z || (1000 <? h)%Z
               then PIL.thumbnail img (1000, 1000) else img).
  assert (PIL.mode img' = m1) as Hmode.
  { subst img'. destruct (_ || _); [by rewrite thumbnail_mode|done]. }
  assert (m ≠ "RGBA" → m1 = "RGB") as Hrgb.
  { intros Hm. subst m1; simpl.
    destruct (String.eqb m "RGB") eqn:E1; simpl.
    { by apply string_eqb_true in E1. }
    destruct (String.eqb m "RGBA") eqn:E2; simpl; [|done].
    by apply string_eqb_true in E2. }
  assert (m = "RGBA" → m1 = "RGBA") as Hrgba.
  { intros ->. done. }
  unfold PIL.save_JPEG. rewrite Hmode. split; [split|].
  - intros [out Hout].
    exists fmt, q, {| PIL.mode := m; PIL.width := w; PIL.height := h |}.
    split; [done|]. simpl. intros Hm.
    rewrite (Hrgba Hm) in Hout. done.
  - intros (? & ? & ? & [= <- <- <-] & Hm). simpl in Hm.
    rewrite (Hrgb Hm). by eexists.
  - intros out Hout. destruct (decide (m = "RGBA")) as [Hm|Hm].
    + by rewrite (Hrgba Hm) in Hout.
    + rewrite (Hrgb Hm) in Hout. injection Hout as <-.
      exists img'. split; [done|]. by rewrite Hmode, Hrgb.
Qed.

(** X12. The image steps never enlarge: the result is no wider and no higher
    than the decoded image, and when the image exceeded 1000 x 1000 its
    longer side is exactly 1000. *)
Theorem normalize_never_enlarges fmt q m w h out :
  (0 < w)%Z → (0 < h)%Z →
  normalize (PIL.Encoded fmt q {| PIL.mode := m; PIL.width := w; PIL.height := h |})
  = Ok out →
  ∃ img, out = PIL.Encoded "JPEG" 90 img
    ∧ (PIL.width img ≤ w)%Z ∧ (PIL.height img ≤ h)%Z
    ∧ ((1000 < w ∨ 1000 < h)%Z → Z.max (PIL.width img) (PIL.height img) = 1000%Z).
Proof.
  intros Hw Hh. rewrite normalize_Encoded. cbv zeta.
  set (m1 := if negb _ then "RGB" else m).
  unfold PIL.save_JPEG.
  destruct ((1000 <? w)%Z || (1000 <? h)%Z) eqn:Hbig.
  - apply orb_true_iff in Hbig. rewrite !Z.ltb_lt in Hbig.
    destruct (existsb _ PIL.RAWMODE); [|done]. intros [= <-].
    eexists. split; [done|].
    destruct (thumbnail_size m1 w h Hw Hh Hbig) as (_ & Hx & Hy & _).
    destruct (thumbnail_shape m1 w h Hw Hh Hbig) as [Hwide Hhigh].
    simpl in *. destruct (Z_le_gt_dec w h) as [Hle|Hgt].
    + destruct (Hwide Hle) as [-> ?]. lia.
    + destruct (Hhigh ltac:(lia)) as [-> ?]. lia.
  - apply orb_false_iff in Hbig. rewrite !Z.ltb_ge in Hbig.
    destruct (existsb _ PIL.RAWMODE); [|done]. intros [= <-].
    eexists. split; [done|]. simpl. lia.
Qed.

(** * Properties of the path handling *)

Section SplitextFacts.

Lemma app_String a s t : String a s +:+ t = String a (s +:+ t).
Proof. reflexivity. Qed.

Lemma app_empty_l t : "" +:+ t = t.
Proof. reflexivity. Qed.

Lemma take_drop n s : Py.take n s +:+ Py.drop n s = s.
Proof.
  revert n. induction s as [|a s IH]; intros [|n]; try done.
  cbn [Py.take Py.drop]. by rewrite app_String, IH.
Qed.

Lemma take_app_length a b : Py.take (String.length a) (a +:+ b) = a.
Proof.
  induction a as [|c a IH]; [by destruct b|].
  rewrite app_String. cbn [String.length Py.take]. by rewrite IH.
Qed.

Lemma drop_app_length a b : Py.drop (String.length a) (a +:+ b) = b.
Proof. induction a as [|c a IH]; [by destruct b|]. by rewrite app_String. Qed.

Lemma get_drop n m s : String.get m (Py.drop n s) = String.get (n + m) s.
Proof.
  revert s. induction n as [|n IH]; intros [|a s]; simpl; auto.
Qed.

Lemma has_char_false_get c s :
  has_char c s = false ↔ ∀ n, String.get n s ≠ Some c.
Proof.
  induction s as [|a s IH]; simpl.
  - split; [by intros _ [|n]|done].
  - rewrite orb_false_iff, IH. split.
    + intros [Ha Hs] [|n]; [|apply Hs]. simpl. intros [= ->].
      by rewrite Ascii.eqb_refl in Ha.
    + intros Hn. split; [|intros n; apply (Hn (S n))].
      destruct (Ascii.eqb a c) eqn:E; [|done].
      apply Ascii.eqb_eq in E. subst. by specialize (Hn 0%nat).
Qed.

Lemma has_char_app c a b : has_char c (a +:+ b) = has_char c a || has_char c b.
Proof.
  induction a as [|x a IH]; [done|].
  rewrite app_String. simpl. by rewrite IH, orb_assoc.
Qed.

(** [rfind] is the position of the last occurrence: the character stands
    there and nowhere after; without occurrence the result is [last]. *)
Lemma rfind_from_spec c s i last :
  (Py.rfind_from c s i last = last ∧ has_char c s = false)
  ∨ ∃ n : nat,
      Py.rfind_from c s i last = (i + Z.of_nat n)%Z
      ∧ String.get n s = Some c
      ∧ has_char c (Py.drop (S n) s) = false.
Proof.
  revert i last. induction s as [|a s IH]; intros i last; simpl; [by left|].
  destruct (IH (i + 1)%Z (if Ascii.eqb a c then i else last))
    as [[Hr Hno]|(n & Hr & Hget & Hno)].
  - rewrite Hr, Hno. destruct (Ascii.eqb a c) eqn:E; [|by left].
    right. exists 0%nat. apply Ascii.eqb_eq in E. subst a.
    split_and!; [lia|done|]. by destruct s.
  - right. exists (S n). rewrite Hr. split_and!; [lia|done|done].
Qed.

Lemma rfind_from_none c s i last :
  has_char c s = false → Py.rfind_from c s i last = last.
Proof.
  revert i last. induction s as [|a s IH]; intros i last; simpl; [done|].
  rewrite orb_false_iff. intros [-> Hs]. by apply IH.
Qed.

Lemma rfind_from_app c a b i last :
  Py.rfind_from c (a +:+ b) i last
  = Py.rfind_from c b (i + Z.of_nat (String.length a))
      (Py.rfind_from c a i last).
Proof.
  revert i last. induction a as [|x a IH]; intros i last.
  - rewrite app_empty_l. simpl. by rewrite Z.add_0_r.
  - rewrite app_String. simpl. rewrite IH. f_equal. lia.
Qed.

Lemma rfind_from_bound c s i last :
  (last < i)%Z →
  (last ≤ Py.rfind_from c s i last < i + Z.of_nat (String.length s))%Z
  ∨ (Py.rfind_from c s i last = last).
Proof.
  intros Hl. destruct (rfind_from_spec c s i last)
    as [[Hr _]|(n & Hr & Hget & _)]; [by right|].
  left. rewrite Hr. split; [lia|].
  assert (n < String.length s)%nat; [|lia].
  revert Hget. clear. revert n.
  induction s as [|a s IH]; intros [|n]; simpl; try done; [lia|].
  intros H. apply IH in H. lia.
Qed.

(** The loop of [splitext] returns from inside as soon as the range holds a
    character other than the dot. *)
Lemma splitext_scan_true p i n j a :
  (i ≤ j < i + n)%nat → String.get j p = Some a → a ≠ "."%char →
  Py.splitext_scan p i n = true.
Proof.
  revert i. induction n as [|n IH]; intros i Hj Hget Ha; [lia|]. simpl.
  destruct (String.get i p) as [b|] eqn:Hb; [|done].
  destruct (Ascii.eqb b ".") eqn:E; simpl; [|done].
  apply Ascii.eqb_eq in E. subst b.
  destruct (decide (i = j)) as [->|Hne]; [congruence|].
  apply IH; [lia|done..].
Qed.

Lemma splitext_scan_get p i n :
  Py.splitext_scan p i n = true →
  ∃ j, (i ≤ j < i + n)%nat ∧ String.get j p ≠ Some "."%char.
Proof.
  revert i. induction n as [|n IH]; intros i; simpl; [done|].
  destruct (String.get i p) as [b|] eqn:Hb.
  - destruct (Ascii.eqb b ".") eqn:E; simpl.
    + intros (j & Hj & Hget)%IH. exists j. split; [lia|done].
    + intros _. exists i. split; [lia|]. rewrite Hb. intros [= ->]. done.
  - intros _. exists i. split; [lia|]. by rewrite Hb.
Qed.

Lemma app_empty_r s : s +:+ "" = s.
Proof. induction s as [|a s IH]; [done|]. by rewrite app_String, IH. Qed.

Lemma drop_get n s c :
  String.get n s = Some c → Py.drop n s = String c (Py.drop (S n) s).
Proof.
  revert s. induction n as [|n IH]; intros [|a s]; simpl; try done.
  - by intros [= ->].
  - intros H. by rewrite (IH _ H).
Qed.

Lemma drop_drop a b s : Py.drop a (Py.drop b s) = Py.drop (b + a) s.
Proof.
  revert s. induction b as [|b IH]; intros [|x s]; simpl; try done.
  by destruct a.
Qed.

Lemma has_char_drop c n s : has_char c s = false → has_char c (Py.drop n s) = false.
Proof.
  rewrite !has_char_false_get. intros H m. rewrite get_drop. apply H.
Qed.

Lemma get_take m n s :
  String.get m (Py.take n s) = if (m <? n)%nat then String.get m s else None.
Proof.
  revert m s. induction n as [|n IH]; intros m [|a s]; simpl; try done.
  - by destruct (m <? S n)%nat.
  - destruct m as [|m]; [done|]. simpl. rewrite IH.
    by destruct (m <? n)%nat eqn:E; destruct (S m <? S n)%nat eqn:E';
      rewrite ?Nat.ltb_lt, ?Nat.ltb_ge in *; try lia.
Qed.

Lemma get_Some_lt n s c :
  String.get n s = Some c → ∀ j, (j ≤ n)%nat → is_Some (String.get j s).
Proof.
  revert s. induction n as [|n IH]; intros [|a s]; simpl; try done.
  - intros _ j Hj. assert (j = 0%nat) as -> by lia. by eexists.
  - intros H [|j] Hj; simpl; [by eexists|]. apply (IH _ H). lia.
Qed.

(** X13. [os.path.splitext] cuts the path in two parts that give it back when
    joined; the second part is empty, or starts with a dot and holds no
    other dot and no slash, and then the name in the first part, after its
    last slash, holds a character other than the dot. *)
Theorem splitext_parts p :
  fst (Py.splitext p) +:+ snd (Py.splitext p) = p
  ∧ (snd (Py.splitext p) = ""
     ∨ ∃ e, snd (Py.splitext p) = String "." e
            ∧ has_char "." e = false ∧ has_char "/" e = false
            ∧ ∃ j a, String.get j (fst (Py.splitext p)) = Some a
                     ∧ a ≠ "."%char
                     ∧ has_char "/" (Py.drop j (fst (Py.splitext p))) = false).
Proof.
  unfold Py.splitext, Py.rfind.
  destruct ((_ <? _)%Z && _) eqn:Hcond; simpl.
  2:{ split; [apply app_empty_r|by left]. }
  split; [apply take_drop|]. right.
  apply andb_true_iff in Hcond as [Hlt Hscan]. apply Z.ltb_lt in Hlt.
  destruct (rfind_from_spec "." p 0 (-1)) as [[Hd _]|(d & Hd & Hget & Hnodot)].
  { exfalso. rewrite Hd in Hlt.
    destruct (rfind_from_spec "/" p 0 (-1)) as [[Hs _]|(n & Hs & _)]; lia. }
  rewrite Hd in *. rewrite Z.add_0_l, Nat2Z.id in *.
  exists (Py.drop (S d) p). split; [by apply drop_get|]. split; [done|].
  apply splitext_scan_get in Hscan as (j & Hj & Hnd).
  assert (-1 ≤ Py.rfind_from "/" p 0 (-1))%Z as Hsep.
  { destruct (rfind_from_spec "/" p 0 (-1)) as [[-> _]|(n & -> & _)]; lia. }
  assert (∀ m, (Z.to_nat (Py.rfind_from "/" p 0 (-1) + 1) ≤ m)%nat →
               String.get m p ≠ Some "/"%char) as Hnoslash.
  { intros m Hm.
    destruct (rfind_from_spec "/" p 0 (-1)) as [[Hs Hno]|(n & Hs & _ & Hno)].
    - by apply has_char_false_get.
    - rewrite Hs in Hm. rewrite has_char_false_get in Hno.
      specialize (Hno (m - S n)%nat). rewrite get_drop in Hno.
      by replace (S n + (m - S n))%nat with m in Hno by lia. }
  assert (j < d)%nat as Hjd by lia.
  split.
  - apply has_char_false_get. intros m. rewrite get_drop.
    apply Hnoslash. lia.
  - destruct (get_Some_lt _ _ _ Hget j ltac:(lia)) as [a Ha].
    exists j, a. split_and!.
    + rewrite get_take. by apply Nat.ltb_lt in Hjd as ->.
    + intros ->. by rewrite Ha in Hnd.
    + apply has_char_false_get. intros m. rewrite get_drop, get_take.
      destruct (j + m <? d)%nat; [|done]. apply Hnoslash. lia.
Qed.

Lemma app_assoc_str a b c : (a +:+ b) +:+ c = a +:+ (b +:+ c).
Proof. induction a as [|x a IH]; [done|]. by rewrite !app_String, IH. Qed.

Lemma length_app_str a b :
  String.length (a +:+ b) = (String.length a + String.length b)%nat.
Proof. induction a as [|x a IH]; [done|]. rewrite app_String. simpl. by rewrite IH. Qed.

Lemma get_app_length a c b : String.get (String.length a) (a +:+ String c b) = Some c.
Proof. induction a as [|x a IH]; [done|]. by rewrite app_String. Qed.

(** A name without dot and slash followed by an extension splits at the
    dot of the extension, whatever directory precedes it. *)
Lemma splitext_app pre u e :
  u ≠ "" → has_char "." u = false → has_char "/" u = false →
  has_char "." e = false → has_char "/" e = false →
  Py.splitext ((pre +:+ u) +:+ String "." e) = (pre +:+ u, String "." e).
Proof.
  intros Hu Hud Hus Hed Hes.
  assert (Py.rfind "." ((pre +:+ u) +:+ String "." e)
          = Z.of_nat (String.length (pre +:+ u))) as Hdot.
  { unfold Py.rfind. rewrite rfind_from_app. simpl.
    by rewrite rfind_from_none. }
  assert (Py.rfind "/" ((pre +:+ u) +:+ String "." e) = Py.rfind "/" pre) as Hsep.
  { unfold Py.rfind. rewrite !rfind_from_app. simpl.
    by rewrite (rfind_from_none "/" e), (rfind_from_none "/" u). }
  assert (-1 ≤ Py.rfind "/" pre < Z.of_nat (String.length pre))%Z as Hbound.
  { unfold Py.rfind.
    destruct (rfind_from_bound "/" pre 0 (-1)) as [H|H]; [lia|lia|].
    rewrite H. lia. }
  destruct u as [|a u']; [done|]. simpl in Hud, Hus.
  apply orb_false_iff in Hud as [Ha _].
  unfold Py.splitext. rewrite Hdot, Hsep.
  rewrite length_app_str in *. simpl String.length in *.
  assert ((Py.rfind "/" pre <? Z.of_nat (String.length pre + S (String.length u')))%Z
          = true) as -> by (apply Z.ltb_lt; lia).
  rewrite (splitext_scan_true _ _ _ (String.length pre) a); simpl.
  - rewrite Nat2Z.id.
    replace (String.length pre + S (String.length u'))%nat
      with (String.length (pre +:+ String a u'))
      by (rewrite length_app_str; done).
    by rewrite take_app_length, drop_app_length.
  - lia.
  - rewrite app_assoc_str. rewrite app_String. apply get_app_length.
  - intros ->. by rewrite Ascii.eqb_refl in Ha.
Qed.

End SplitextFacts.

(** ** The path [handle_audio_file] stores the download at *)

Lemma supported_extension_shape ext :
  In ext SUPPORTED_EXTENSIONS →
  ∃ e, ext = String "." e ∧ has_char "." e = false ∧ has_char "/" e = false
       ∧ Py.lower ext = ext.
Proof.
  intros [<-|[<-|[<-|[<-|[<-|[]]]]]]; by eexists.
Qed.

Lemma ext_of_path_join temp_dir uid e :
  has_char "." e = false → has_char "/" e = false →
  uid ≠ "" → has_char "." uid = false → has_char "/" uid = false →
  ext_of (path_join temp_dir (uid +:+ String "." e)) = Py.lower (String "." e).
Proof.
  intros Hed Hes Hu Hud Hus.
  assert (∀ pre, ext_of (pre +:+ (uid +:+ String "." e))
                 = Py.lower (String "." e)) as Hext.
  { intros pre. unfold ext_of. rewrite <-app_assoc_str.
    by rewrite splitext_app. }
  unfold path_join.
  assert (String.prefix "/" (uid +:+ String "." e) = false) as ->.
  { destruct uid as [|a u']; [done|]. rewrite app_String. simpl in Hus.
    apply orb_false_iff in Hus as [Ha _].
    change (String.prefix "/" (String a (u' +:+ String "." e)))
      with (if ascii_dec "/" a
            then String.prefix "" (u' +:+ String "." e) else false).
    destruct (ascii_dec "/" a) as [<-|]; [|done].
    by rewrite Ascii.eqb_refl in Ha. }
  destruct (_ || _); [apply Hext|].
  rewrite <-app_assoc_str. apply Hext.
Qed.

(** X14. The stored path has the extension it was given: for a supported
    extension and a unique id that is not empty and holds no dot and no
    slash, the methods of [MusicTagEditor] compute from the stored path the
    extension computed from the file name. *)
Theorem stored_path_keeps_extension temp_dir uid ext :
  In ext SUPPORTED_EXTENSIONS →
  uid ≠ "" → has_char "." uid = false → has_char "/" uid = false →
  ext_of (path_join temp_dir (uid +:+ ext)) = ext.
Proof.
  intros (e & -> & Hed & Hes & Hlow)%supported_extension_shape Hu Hud Hus.
  by rewrite ext_of_path_join.
Qed.

Lemma get_tags_ext path1 path2 f :
  ext_of path1 = ext_of path2 → get_tags path1 f = get_tags path2 f.
Proof. intros H. unfold get_tags. by rewrite H. Qed.

Lemma detect_Some_supported filename kind :
  detect filename = Some kind →
  ext_supported (ext_of filename) = true
  ∧ In (ext_of filename) SUPPORTED_EXTENSIONS
  ∧ codec_of_ext (ext_of filename) = Some kind.
Proof.
  unfold detect. destruct (ext_supported _) eqn:Hs; [|done]. intros Hc.
  split_and!; [done| |done].
  apply existsb_exists in Hs as (e & He & Heq).
  apply string_eqb_true in Heq. by subst.
Qed.

(** X15. [handle_audio_file] on an attachment of a supported kind. A failed
    download ends in WAITING_FILE with an error text and [user_data]
    untouched. After a download the file is stored under the temporary
    directory, read with the codec detected from the file name, and
    remembered in [user_data]; the handler goes to SELECTING_TAG showing the
    six values exactly when [get_tags] could read the file, and otherwise
    reports the read error and stays in WAITING_FILE. *)
Theorem handle_audio_file_supported temp_dir message file kind message_id user_data :
  attachment message = Some file →
  detect (file_name file) = Some kind →
  file_unique_id file ≠ "" →
  has_char "." (file_unique_id file) = false →
  has_char "/" (file_unique_id file) = false →
  let ext := ext_of (file_name file) in
  let filepath := path_join temp_dir (file_unique_id file +:+ ext) in
  let remembered := <[FILE_FORMAT := PyStr ext]>
                    (<[CURRENT_FILE := PyStr filepath]> user_data) in
  (∀ e, handle_audio_file temp_dir message (Raise e) message_id user_data
        = (WAITING_FILE, [Reply DownloadingFile; Reply ErrorProcessingFile],
           user_data))
  ∧ ∀ f,
      get_tags filepath f = get_tags (file_name file) f
      ∧ (get_tags (file_name file) f = None →
         handle_audio_file temp_dir message (Ok f) message_id user_data
         = (WAITING_FILE,
            [Reply DownloadingFile; Download filepath; ReadTags filepath;
             Reply ErrorReadingTags], remembered))
      ∧ (∀ tags, get_tags (file_name file) f = Some tags →
           ∃ title artist album year genre has_cover,
             tags = tag_record title artist album year genre has_cover
             ∧ handle_audio_file temp_dir message (Ok f) message_id user_data
               = (SELECTING_TAG,
                  [Reply DownloadingFile; Download filepath; ReadTags filepath;
                   Reply (CurrentTags title artist album year genre has_cover)],
                  <[MENU_MESSAGE_ID := PyInt message_id]> remembered)).
Proof.
  intros Hatt (Hsup & Hin & Hc)%detect_Some_supported Hu Hud Hus ext filepath
    remembered.
  assert (ext_of filepath = ext) as Hext.
  { destruct (supported_extension_shape _ Hin) as (e & He & Hed & Hes & Hlow).
    subst filepath ext. rewrite He in Hlow |- *.
    by rewrite ext_of_path_join. }
  split.
  - intros e. unfold handle_audio_file. rewrite Hatt. cbv zeta. by rewrite Hsup.
  - intros f.
    assert (get_tags filepath f = get_tags (file_name file) f) as Hsame
      by by apply get_tags_ext.
    split; [done|]. unfold handle_audio_file. rewrite Hatt. cbv zeta.
    rewrite Hsup. cbn [negb]. unfold handle_download.
    cbn [mbind result_bind]. fold ext. fold filepath. rewrite Hsame. split.
    + by intros ->.
    + intros tags Htags. rewrite Htags.
      pose proof (get_tags_Some_kind _ _ _ _ Hc Htags) as Hk.
      apply (get_tags_Some _ _ _ _ Hc Hk) in Htags
        as (title & artist & album & year & genre & has_cover
            & _ & _ & _ & _ & _ & _ & ->).
      by exists title, artist, album, year, genre, has_cover.
Qed.

(** ** What a cover write stores *)

Section CoverStored.

Variable b64 : Picture → string.


End CoverStored.

(** * Properties of the other handlers *)

Lemma remove_edit_field k :
  remove_edit_ ("edit_" +:+ tag_name_of k) 0 = tag_name_of k.
Proof. by destruct k. Qed.

Lemma tag_labels_Some name :
  is_Some (tag_labels !! name) ↔ ∃ k, name = tag_name_of k.
Proof.
  unfold tag_labels. split.
  - intros [label H].
    apply lookup_insert_Some in H as [[<- _]|[_ H]]; [by exists Genre|].
    apply lookup_insert_Some in H as [[<- _]|[_ H]]; [by exists Year|].
    apply lookup_insert_Some in H as [[<- _]|[_ H]]; [by exists Album|].
    apply lookup_insert_Some in H as [[<- _]|[_ H]]; [by exists Artist|].
    apply lookup_insert_Some in H as [[<- _]|[_ H]]; [by exists Title|].
    done.
  - intros [k ->]. by destruct k.
Qed.

Lemma current_file_Some disk user_data path f :
  current_file disk user_data = Some (path, f) ↔
  user_str user_data CURRENT_FILE = Some path ∧ path ≠ "" ∧ disk !! path = Some f.
Proof.
  unfold current_file. destruct (user_str user_data CURRENT_FILE) as [p|].
  - destruct (String.eqb p "") eqn:E.
    + apply String.eqb_eq in E as ->. split; [done|]. by intros ([= <-] & ? & _).
    + apply String.eqb_neq in E. destruct (disk !! p) as [g|] eqn:Hp.
      * split; [by intros [= <- <-]|]. intros ([= <-] & _ & Hf). congruence.
      * split; [done|]. intros ([= <-] & _ & Hf). congruence.
  - split; [done|]. by intros (? & _).
Qed.

Lemma current_file_empty disk : current_file disk ∅ = None.
Proof. done. Qed.


Lemma current_file_deleted disk user_data path f :
  current_file disk user_data = Some (path, f) →
  current_file (delete path disk) user_data = None.
Proof.
  intros (Hu & Hne & Hf)%current_file_Some. unfold current_file. rewrite Hu.
  destruct (String.eqb path ""); [done|]. by rewrite lookup_delete_eq.
Qed.

Lemma commit_false f body :
  fst (commit f body) = false → snd (commit f body) = f.
Proof. by destruct body. Qed.

Lemma set_tag_false path tag_name value f :
  fst (set_tag path tag_name value f) = false →
  snd (set_tag path tag_name value f) = f.
Proof. apply commit_false. Qed.

Lemma set_tag_None_false path f :
  fst (set_tag_None path f) = false → snd (set_tag_None path f) = f.
Proof.
  unfold set_tag_None.
  destruct (codec_of_ext (ext_of path)) as [[]|]; try done; apply commit_false.
Qed.

Lemma set_cover_false b64 path image f :
  fst (set_cover b64 path image f) = false →
  snd (set_cover b64 path image f) = f.
Proof. apply commit_false. Qed.



Lemma tag_selection_field k disk user_data :
  ∃ label,
    tag_selection ("edit_" +:+ tag_name_of k) disk user_data
    = {| next := inr EDITING_TAG;
         actions := [Answer; DeleteMessage; Say (AskValue label)];
         files := disk;
         data := <[CURRENT_TAG := PyStr (tag_name_of k)]> user_data |}.
Proof. destruct k; by eexists. Qed.

(** X17. [tag_selection] asks for a value, going to EDITING_TAG, only with
    [CURRENT_TAG] set to one of the five field names, the rest of
    [user_data] and the disk left as they were; each of the five field
    buttons does so. *)
Theorem tag_selection_EDITING_TAG query_data disk user_data :
  let o := tag_selection query_data disk user_data in
  (next o = inr EDITING_TAG →
     ∃ k, remove_edit_ query_data 0 = tag_name_of k
          ∧ user_str (data o) CURRENT_TAG = Some (tag_name_of k)
          ∧ (∀ key, key ≠ CURRENT_TAG → data o !! key = user_data !! key)
          ∧ files o = disk)
  ∧ (∀ k, query_data = "edit_" +:+ tag_name_of k → next o = inr EDITING_TAG).
Proof.
  intros o. subst o. split.
  - unfold tag_selection.
    destruct (String.eqb query_data "edit_more").
    { destruct (current_file _ _) as [[p f]|]; [|done].
      destruct (get_tags p f); [|done]. by destruct (tags_menu _). }
    destruct (String.eqb query_data "done").
    { by destruct (current_file _ _) as [[p f]|]. }
    destruct (String.eqb query_data "edit_cover"); [done|].
    cbv zeta. destruct (tag_labels !! _) eqn:Hl; [|done]. intros _.
    destruct (proj1 (tag_labels_Some _) (mk_is_Some _ _ Hl)) as [k Hk].
    exists k. cbn [data files]. split; [done|]. unfold user_str.
    rewrite lookup_insert_eq, Hk. split; [done|]. split; [|done].
    intros key Hkey. by rewrite lookup_insert_ne.
  - intros k ->. by destruct (tag_selection_field k disk user_data) as [l ->].
Qed.


Lemma rfind_app_no_sep c a b :
  has_char c b = false → Py.rfind c (a +:+ b) = Py.rfind c a.
Proof.
  intros Hb. unfold Py.rfind. rewrite rfind_from_app. by apply rfind_from_none.
Qed.

Lemma rfind_ends_with c pre :
  Py.rfind c (pre +:+ String c "") = Z.of_nat (String.length pre).
Proof.
  unfold Py.rfind. rewrite rfind_from_app. simpl. by rewrite Ascii.eqb_refl.
Qed.

Lemma basename_app_sep pre b :
  has_char "/" b = false → basename ((pre +:+ "/") +:+ b) = b.
Proof.
  intros Hb. unfold basename. rewrite rfind_app_no_sep, rfind_ends_with by done.
  replace (Z.to_nat (Z.of_nat (String.length pre) + 1))
    with (String.length (pre +:+ "/")) by (rewrite length_app_str; simpl; lia).
  apply drop_app_length.
Qed.

(** The name under which "done" sends the file back is the unique id with
    the extension, the last part of the path [handle_audio_file] stored
    it under, whatever the temporary directory. *)
Theorem basename_path_join temp_dir name :
  has_char "/" name = false →
  basename (path_join temp_dir name) = name.
Proof.
  intros Hn. unfold path_join.
  assert (String.prefix "/" name = false) as ->.
  { destruct name as [|a n]; [done|]. simpl in Hn.
    apply orb_false_iff in Hn as [Ha _].
    change (String.prefix "/" (String a n))
      with (if ascii_dec "/" a then String.prefix "" n else false).
    destruct (ascii_dec "/" a) as [<-|]; [|done].
    by rewrite Ascii.eqb_refl in Ha. }
  destruct (String.eqb temp_dir "") eqn:E; simpl.
  { apply String.eqb_eq in E as ->. unfold basename.
    rewrite app_empty_l. unfold Py.rfind. by rewrite rfind_from_none. }
  destruct (String.eqb (Py.drop _ temp_dir) "/") eqn:E2.
  - apply String.eqb_eq in E2.
    rewrite <-(take_drop (String.length temp_dir - 1) temp_dir) at 1.
    rewrite E2. by apply basename_app_sep.
  - rewrite <-app_assoc_str. by apply basename_app_sep.
Qed.

Section Conversation.

Variable b64 : Picture → string.

(** X19. "done" with the file in place sends back the file as it is on disk,
    named by the last part of its path, which for a path built by
    [handle_audio_file] is the unique id with the extension; then the file
    is removed and [user_data] emptied.  With no file in place the query is
    answered and nothing else happens. *)
Theorem done_sends_back_stored_file disk user_data :
  let o := tag_selection "done" disk user_data in
  next o = inr WAITING_FILE
  ∧ (∀ path f,
       current_file disk user_data = Some (path, f) →
       actions o = [Answer; DeleteMessage; Say PreparingFile;
                    SendDocument f (basename path); DeleteMessage;
                    Say SendAnother]
       ∧ files o = delete path disk
       ∧ data o = ∅
       ∧ ∀ temp_dir uid ext,
           path = path_join temp_dir (uid +:+ ext) →
           has_char "/" uid = false → has_char "/" ext = false →
           basename path = uid +:+ ext)
  ∧ (current_file disk user_data = None →
     actions o = [Answer] ∧ files o = disk ∧ data o = user_data).
Proof.
  intros o. subst o. unfold tag_selection. cbn [String.eqb Ascii.eqb Bool.eqb].
  destruct (current_file disk user_data) as [[p g]|]; cbn [next actions files data].
  - split; [done|]. split; [|done]. intros path f [= <- <-].
    split; [done|]. split; [done|]. split; [done|].
    intros temp_dir uid ext -> Hu He. apply basename_path_join.
    by rewrite has_char_app, Hu, He.
  - done.
Qed.

(** X20. After "done" or /cancel with the file in place, the file is off the
    disk and [user_data] is empty, so that every handler that needs the
    file answers that it is not found and changes nothing. *)
Theorem file_forgotten_after_done_or_cancel disk user_data path f o :
  current_file disk user_data = Some (path, f) →
  o = tag_selection "done" disk user_data ∨ o = cancel disk user_data →
  next o = inr WAITING_FILE
  ∧ files o = delete path disk
  ∧ data o = ∅
  ∧ ∀ text message downloaded,
      handle_tag_edit text (files o) (data o)
      = {| next := inr WAITING_FILE; actions := [Say FileNotFound];
           files := files o; data := ∅ |}
      ∧ handle_cover_upload b64 message downloaded (files o) (data o)
        = {| next := inr WAITING_FILE; actions := [Say FileNotFoundAudio];
             files := files o; data := ∅ |}
      ∧ tag_selection "edit_more" (files o) (data o)
        = {| next := inr WAITING_FILE;
             actions := [Answer; DeleteMessage; Say FileNotFound];
             files := files o; data := ∅ |}
      ∧ tag_selection "done" (files o) (data o)
        = {| next := inr WAITING_FILE; actions := [Answer];
             files := files o; data := ∅ |}.
Proof.
  intros Hcur Ho.
  assert (next o = inr WAITING_FILE ∧ files o = delete path disk ∧ data o = ∅)
    as (Hn & Hf & Hd).
  { destruct Ho as [-> | ->].
    - unfold tag_selection. cbn [String.eqb Ascii.eqb Bool.eqb].
      by rewrite Hcur.
    - unfold cancel. cbn [next files data]. by rewrite Hcur. }
  split; [done|]. split; [done|]. split; [done|].
  intros text message downloaded. rewrite Hd.
  unfold handle_tag_edit, handle_cover_upload, tag_selection.
  cbn [String.eqb Ascii.eqb Bool.eqb]. by rewrite current_file_empty.
Qed.

(** X21. No handler touches a file other than the one [CURRENT_FILE] names:
    every other path holds after the call what it held before. *)
Theorem handlers_touch_only_current_file disk user_data o p :
  o = cancel disk user_data
  ∨ (∃ query_data, o = tag_selection query_data disk user_data)
  ∨ (∃ text, o = handle_tag_edit text disk user_data)
  ∨ (∃ message downloaded,
       o = handle_cover_upload b64 message downloaded disk user_data) →
  user_str user_data CURRENT_FILE ≠ Some p →
  files o !! p = disk !! p.
Proof.
  intros Ho Hp.
  assert (∀ path f, current_file disk user_data = Some (path, f) → path ≠ p)
    as Hne.
  { intros path f (Hu & _)%current_file_Some ->. done. }
  destruct Ho as [-> |[[query_data ->]|[[text ->]|(message & downloaded & ->)]]].
  - unfold cancel. cbn [files].
    destruct (current_file disk user_data) as [[path f]|] eqn:Hcur; [|done].
    apply lookup_delete_ne. by eapply Hne.
  - unfold tag_selection.
    destruct (String.eqb query_data "edit_more").
    { destruct (current_file _ _) as [[path f]|]; [|done].
      destruct (get_tags path f); [|done]. by destruct (tags_menu _). }
    destruct (String.eqb query_data "done").
    { destruct (current_file _ _) as [[path f]|] eqn:Hcur; [|done].
      cbn [files]. apply lookup_delete_ne. by eapply Hne. }
    destruct (String.eqb query_data "edit_cover"); [done|].
    cbv zeta. by destruct (tag_labels !! _).
  - unfold handle_tag_edit. cbv zeta.
    destruct (current_file _ _) as [[path f]|] eqn:Hcur; [|done].
    destruct (user_str user_data CURRENT_TAG) as [tag_name|]; cbn [files].
    + apply lookup_insert_ne. by eapply Hne.
    + destruct (fst _); cbn [files]; apply lookup_insert_ne; by eapply Hne.
  - unfold handle_cover_upload.
    destruct (current_file _ _) as [[path f]|] eqn:Hcur; [|done].
    destruct (photo message), (image_document message), downloaded;
      cbn [files]; try done; apply lookup_insert_ne; by eapply Hne.
Qed.

(** X22. A handler that reports a failure, or asks for the input again, has
    left the disk and [user_data] as they were. *)
Theorem reported_failure_leaves_files disk user_data o text :
  (∃ new_value, o = handle_tag_edit new_value disk user_data)
  ∨ (∃ message downloaded,
       o = handle_cover_upload b64 message downloaded disk user_data) →
  In (Say text) (actions o) →
  is_failure text = true →
  files o = disk ∧ data o = user_data.
Proof.
  assert (∀ (path : string) f g, disk !! path = Some f → g = f →
            <[path := g]> disk = disk) as Hid.
  { intros path f g Hf ->. by apply insert_id. }
  assert (∀ l, In (Say text) l → is_failure text = true →
            Forall (λ a, ∀ t, a = Say t → is_failure t = false) l → False)
    as Hno.
  { intros l Hin Ht Hl. rewrite Forall_forall in Hl.
    apply list_elem_of_In in Hin. specialize (Hl _ Hin text eq_refl).
    congruence. }
  intros [[new_value ->]|(message & downloaded & ->)].
  - unfold handle_tag_edit. cbv zeta.
    destruct (current_file _ _) as [[path f]|] eqn:Hcur; [|done].
    apply current_file_Some in Hcur as (_ & _ & Hf).
    destruct (user_str user_data CURRENT_TAG) as [tag_name|].
    + cbn [actions files data].
      destruct (fst (set_tag _ _ _ _)) eqn:Hs.
      * intros Hin Ht. destruct (Hno _ Hin Ht).
        repeat constructor; by intros t [= <-].
      * intros _ _. split; [|done]. eapply Hid; [done|]. by apply set_tag_false.
    + destruct (fst (set_tag_None _ _)) eqn:Hs; cbn [actions files data].
      * by intros [].
      * intros _ _. split; [|done]. eapply Hid; [done|].
        by apply set_tag_None_false.
  - unfold handle_cover_upload.
    destruct (current_file _ _) as [[path f]|] eqn:Hcur; [|done].
    apply current_file_Some in Hcur as (_ & _ & Hf).
    assert (∀ image,
              In (Say text)
                 [Say ProcessingImage;
                  Say (if fst (set_cover b64 path image f)
                       then CoverUpdated
                              (cover_status
                                 (get_tags path
                                    (snd (set_cover b64 path image f))))
                       else CoverFailed); Say WhatNext] →
              is_failure text = true →
              <[path := snd (set_cover b64 path image f)]> disk = disk)
      as Hwrite.
    { intros image. destruct (fst (set_cover b64 path image f)) eqn:Hs.
      - intros Hin Ht. destruct (Hno _ Hin Ht).
        repeat constructor; by intros t [= <-].
      - intros _ _. eapply Hid; [done|]. by apply set_cover_false. }
    destruct (photo message), (image_document message), downloaded;
      cbn [actions files data]; try done;
      intros Hin Ht; (split; [|done]); by eapply Hwrite.
Qed.




End Conversation.

End Properties.

(** * Examples

    The properties above at sample inputs, and the inputs on which the
    claims of the specification fail. *)

Section Examples.

#[local] Existing Instance sample_library.

Lemma detect_extension_case_insensitive_witness :
  detect "Track 01.FlAc" = detect "TRACK 01.flac"
  ∧ handle_audio_file "/tmp"
      {| audio := None;
         document := Some {| file_name := "song.wav"; file_unique_id := "AgAD" |} |}
      (Ok Unparsable) 7 ∅
    = (WAITING_FILE, [Reply UnsupportedFileFormat], ∅).
Proof.
  split.
  - apply (proj1 (proj2 detect_extension_case_insensitive)). reflexivity.
  - eapply (proj2 (proj2 (proj2 (proj2 (proj2 (proj2 (proj2
              detect_extension_case_insensitive)))))));
      reflexivity.
Defined.

Lemma normalize_size_witness :
  (∃ out, normalize (PIL.Encoded "PNG" 6
            {| PIL.mode := "P"; PIL.width := 2000; PIL.height := 1500 |}) = Ok out)
  ∧ (∃ out, normalize (PIL.Encoded "JPEG" 75
              {| PIL.mode := "RGB"; PIL.width := 50; PIL.height := 50 |}) = Ok out).
Proof.
  split.
  - apply (proj1 (normalize_size "PNG" 6 "P" 2000 1500 ltac:(lia) ltac:(lia))).
    discriminate.
  - apply (proj1 (normalize_size "JPEG" 75 "RGB" 50 50 ltac:(lia) ltac:(lia))).
    discriminate.
Defined.

Lemma unsupported_extension_no_codec_witness :
  get_tags "song.wav" Unparsable = Some ∅
  ∧ (∀ tag_name value, set_tag "song.wav" tag_name value Unparsable = (true, Unparsable))
  ∧ (∀ b64 image_data,
       set_cover b64 "song.wav" image_data Unparsable
       = (match normalize image_data with Ok _ => true | Raise _ => false end,
          Unparsable)).
Proof. apply (unsupported_extension_no_codec "song.wav" Unparsable). reflexivity. Defined.

(** C10 as stated fails: with bytes that are no image, [set_cover] on an
    unsupported path returns [False]. *)
Lemma set_cover_unsupported_not_always_true :
  ext_supported (ext_of "song.wav") = false
  ∧ set_cover (fun _ => "") "song.wav" (PIL.Junk "not an image") Unparsable
    = (false, Unparsable).
Proof. split; reflexivity. Qed.



(** A text with characters outside ASCII and the empty text, read back from
    an M4A and an Ogg file. *)
Example set_tag_non_ascii_and_empty :
  read_field "album.m4a" (snd (set_tag "album.m4a" "artist" "Björk" sample_m4a)) "artist"
  = Some (PyStr "Björk")
  ∧ read_field "song.ogg" (snd (set_tag "song.ogg" "title" "" sample_ogg)) "title"
    = Some (PyStr "").
Proof. split; reflexivity. Qed.



Lemma set_tag_fresh_MP3_witness :
  ∃ f',
    set_tag "song.mp3" "title" "Midnight" (MP3File None) = (true, f')
    ∧ ∃ r',
        kind_of_file f' = Some MP3
        ∧ get_tags "song.mp3" f' = Some r'
        ∧ r' !! "title" = Some (PyStr "Midnight")
        ∧ ((Title ≠ Year ∧ Title ≠ Genre ∧ "Midnight" ≠ "")
           ∨ (Title = Year ∧ is_year4 "Midnight" = true) →
           "Midnight" = "Midnight")
        ∧ (∀ k', k' ≠ Title → r' !! tag_name_of k' = Some (PyStr "Not set"))
        ∧ r' !! "has_cover" = Some (PyBool false)
        ∧ ("Midnight" ≠ "Not set" →
           ∃ tags, f' = MP3File (Some tags)
                   ∧ is_Some (tags !! storage_key MP3 Title)).
Proof. exact (set_tag_fresh_MP3 "song.mp3" Title "Midnight" eq_refl). Defined.

(** C9 as stated fails for the year: "Unknown" written to a fresh MP3 file
    holds no number, no time stamp is written, and the year reads back as
    "Not set". *)
Lemma set_tag_fresh_MP3_year_Unknown :
  fst (set_tag "song.mp3" "year" "Unknown" (MP3File None)) = true
  ∧ read_field "song.mp3"
      (snd (set_tag "song.mp3" "year" "Unknown" (MP3File None))) "year"
    = Some (PyStr "Not set")
  ∧ PyStr "Not set" ≠ PyStr "Unknown".
Proof. split_and!; [reflexivity|reflexivity|discriminate]. Qed.

Lemma set_cover_MP3_has_cover_false_witness :
  read_cover (snd (set_cover (λ _, "") "song.mp3" sample_cover sample_mp3)) = Ok false.
Proof.
  apply (set_cover_MP3_has_cover_false (λ _, "") "song.mp3" sample_cover
           (Some (<["APIC:back" := APIC 3 "image/png" 4 "back" sample_cover]>
                  (<["APIC:" := APIC 0 "image/jpeg" 3 "" sample_jpeg]>
                  (<["TDRC" := TDRC 3 "1987-12-28"]>
                  (<["TPE1" := TPE1 3 "Nina"]> ∅))))));
    [reflexivity|reflexivity|reflexivity].
Defined.





Lemma wrong_kind_is_reported_witness :
  get_tags "song.mp3" sample_flac = None
  ∧ set_tag "song.mp3" "title" "Midnight" sample_flac = (false, sample_flac)
  ∧ set_cover (λ _, "") "song.mp3" sample_jpeg sample_flac = (false, sample_flac).
Proof.
  apply (wrong_kind_is_reported (λ _, "") "song.mp3" sample_flac MP3);
    [reflexivity|discriminate].
Defined.

Lemma get_tags_reads_or_empty_atom_witness :
  (∃ r, get_tags "song.ogg" sample_ogg = Some r)
  ∧ get_tags "album.m4a" (MP4File (Some (<["©ART" := Texts []]> ∅))) = None.
Proof.
  split.
  - apply (proj1 (get_tags_reads_or_empty_atom "song.ogg" sample_ogg OggVorbis
                    eq_refl eq_refl)).
    discriminate.
  - apply (proj2 (get_tags_reads_or_empty_atom "album.m4a"
                    (MP4File (Some (<["©ART" := Texts []]> ∅))) MP4
                    eq_refl eq_refl) _ eq_refl).
    exists (<["©ART" := Texts []]> ∅), Artist. split; [reflexivity|].
    left. reflexivity.
Defined.

Lemma set_tag_last_write_wins_witness :
  set_tag "track.flac" "artist" "Nina Simone"
    (snd (set_tag "track.flac" "artist" "N. Simone" sample_flac))
  = set_tag "track.flac" "artist" "Nina Simone" sample_flac.
Proof.
  apply (proj1 (set_tag_last_write_wins "track.flac" sample_flac Artist
                  "N. Simone" "Nina Simone" I)).
  reflexivity.
Defined.

(** A genre the loader refuses: the write returns [True], [get_tags] can
    no longer read the file, and a second write, which alone succeeds,
    returns [False]. *)
Example set_tag_genre_refused :
  let w := set_tag (library := refusing_library) "song.mp3" "genre" "²"
             (MP3File None) in
  w = (true, Unparsable)
  ∧ get_tags "song.mp3" (snd w) = None
  ∧ set_tag (library := refusing_library) "song.mp3" "genre" "Rock" (snd w)
    = (false, Unparsable)
  ∧ fst (set_tag (library := refusing_library) "song.mp3" "genre" "Rock"
           (MP3File None)) = true.
Proof. split_and!; reflexivity. Qed.





Lemma set_tag_vorbis_replaces_all_witness :
  fst (set_tag "track.flac" "artist" "Nina Simone" sample_flac) = true
  ∧ List.filter (key_is "artist")
      (comments_of (snd (set_tag "track.flac" "artist" "Nina Simone" sample_flac)))
    = [("artist", "Nina Simone")]
  ∧ List.filter (λ kv, negb (key_is "artist" kv))
      (comments_of (snd (set_tag "track.flac" "artist" "Nina Simone" sample_flac)))
    = List.filter (λ kv, negb (key_is "artist" kv)) (comments_of sample_flac).
Proof.
  apply (set_tag_vorbis_replaces_all "track.flac" sample_flac FLAC Artist);
    [reflexivity|discriminate|discriminate|reflexivity].
Defined.

Lemma get_tags_vorbis_first_value_witness :
  read_field "track.flac" sample_flac "artist" = Some (PyStr "Nina")
  ∧ read_field "track.flac" sample_flac "genre" = Some (PyStr "Not set").
Proof.
  split.
  - apply (proj1 (get_tags_vorbis_first_value "track.flac" sample_flac FLAC Artist
                    eq_refl ltac:(discriminate) ltac:(discriminate) eq_refl)
             [("TITLE", "Old")] "artist" "Nina" [("ARTIST", "Band")]);
      [reflexivity|reflexivity|].
    intros kv [<-|[]]. discriminate.
  - apply (proj2 (get_tags_vorbis_first_value "track.flac" sample_flac FLAC Genre
                    eq_refl ltac:(discriminate) ltac:(discriminate) eq_refl)).
    intros kv [<-|[<-|[<-|[]]]]; discriminate.
Defined.

Lemma get_tags_MP3_cover_iff_empty_desc_witness :
  read_field "song.mp3"
    (MP3File (Some (<["APIC:back" := APIC 3 "image/png" 4 "back" sample_cover]> ∅)))
    "has_cover"
  = Some (PyBool false).
Proof.
  apply (proj2 (get_tags_MP3_cover_iff_empty_desc "song.mp3"
                  (<["APIC:back" := APIC 3 "image/png" 4 "back" sample_cover]> ∅)
                  ltac:(reflexivity) ltac:(reflexivity))).
  reflexivity.
Defined.

Lemma normalize_succeeds_iff_witness :
  ∃ img,
    PIL.Encoded "JPEG" 90
      {| PIL.mode := "RGB"; PIL.width := 1000; PIL.height := 750 |}
    = PIL.Encoded "JPEG" 90 img
    ∧ PIL.mode img = "RGB".
Proof. apply (proj2 (normalize_succeeds_iff sample_cover)). reflexivity. Defined.

Lemma normalize_never_enlarges_witness :
  ∃ img, PIL.Encoded "JPEG" 90
           {| PIL.mode := "RGB"; PIL.width := 1000; PIL.height := 750 |}
         = PIL.Encoded "JPEG" 90 img
    ∧ (PIL.width img ≤ 2000)%Z ∧ (PIL.height img ≤ 1500)%Z
    ∧ ((1000 < 2000 ∨ 1000 < 1500)%Z
       → Z.max (PIL.width img) (PIL.height img) = 1000%Z).
Proof.
  apply (normalize_never_enlarges "PNG" 6 "P" 2000 1500); [lia|lia|reflexivity].
Defined.

Lemma stored_path_keeps_extension_witness :
  ext_of (path_join "/tmp" ("AgADBQ" +:+ ".flac")) = ".flac".
Proof.
  apply stored_path_keeps_extension; [|discriminate|reflexivity|reflexivity].
  simpl. tauto.
Defined.

Lemma handle_audio_file_supported_witness :
  get_tags (path_join "/tmp" ("AgADBQ" +:+ ext_of "Track 01.FLAC")) sample_flac
  = get_tags "Track 01.FLAC" sample_flac.
Proof.
  eapply (proj1 (proj2 (handle_audio_file_supported "/tmp"
            {| audio := Some {| file_name := "Track 01.FLAC";
                                file_unique_id := "AgADBQ" |};
               document := None |}
            _ FLAC 7 ∅ eq_refl eq_refl ltac:(discriminate) eq_refl eq_refl)
          sample_flac)).
Defined.


(** White space outside ASCII separates the parts of a time stamp. *)
Example stamp_white_space :
  stamp_text (stamp ("2020" +:+ code_units [194; 160]%nat +:+ "5"
                     +:+ code_units [227; 128; 128; 32]%nat +:+ "17"))
  = "2020-05-17".
Proof. reflexivity. Qed.

Example strip_white_space :
  strip (code_units [32; 194; 160; 9]%nat +:+ "Nina Simone"
         +:+ code_units [227; 128; 128; 10]%nat)
  = "Nina Simone".
Proof. reflexivity. Qed.

Lemma tag_selection_EDITING_TAG_witness :
  ∃ k, remove_edit_ "edit_year" 0 = tag_name_of k
       ∧ user_str (data (tag_selection "edit_year" ∅ ∅)) CURRENT_TAG
         = Some (tag_name_of k).
Proof.
  destruct (proj1 (tag_selection_EDITING_TAG "edit_year" ∅ ∅) eq_refl)
    as (k & Hk & Hu & _).
  by exists k.
Defined.


Lemma done_sends_back_stored_file_witness :
  let path := path_join "/tmp" ("AgADBQ" +:+ ".flac") in
  actions (tag_selection "done" {[ path := sample_flac ]}
             {[ CURRENT_FILE := PyStr path ]})
  = [Answer; DeleteMessage; Say PreparingFile;
     SendDocument sample_flac (basename path); DeleteMessage; Say SendAnother]
  ∧ basename path = "AgADBQ.flac".
Proof.
  intros path.
  pose proof (done_sends_back_stored_file
                ({[ path := sample_flac ]} : Disk)
                ({[ CURRENT_FILE := PyStr path ]} : gmap string PyVal))
    as (_ & H & _).
  destruct (H path sample_flac) as (Ha & _ & _ & Hb); [reflexivity|].
  split; [exact Ha|]. apply (Hb "/tmp" "AgADBQ" ".flac"); reflexivity.
Defined.

Lemma file_forgotten_after_done_or_cancel_witness :
  let o := cancel {[ "/tmp/AgADBQ.mp3" := sample_mp3 ]}
             {[ CURRENT_FILE := PyStr "/tmp/AgADBQ.mp3" ]} in
  files o = delete "/tmp/AgADBQ.mp3" {[ "/tmp/AgADBQ.mp3" := sample_mp3 ]}
  ∧ data o = ∅.
Proof.
  intros o.
  destruct (file_forgotten_after_done_or_cancel (λ _, "")
              ({[ "/tmp/AgADBQ.mp3" := sample_mp3 ]} : Disk)
              ({[ CURRENT_FILE := PyStr "/tmp/AgADBQ.mp3" ]} : gmap string PyVal)
              "/tmp/AgADBQ.mp3" sample_mp3 o)
    as (_ & Hf & Hd & _); [reflexivity|by right|].
  by split.
Defined.

Lemma handlers_touch_only_current_file_witness :
  files (handle_tag_edit "Nina"
           {[ "/tmp/a.flac" := sample_flac; "/tmp/b.mp3" := sample_mp3 ]}
           {[ CURRENT_FILE := PyStr "/tmp/a.flac";
              CURRENT_TAG := PyStr "artist" ]}) !! "/tmp/b.mp3"
  = Some sample_mp3.
Proof.
  rewrite (handlers_touch_only_current_file (λ _, "")
             ({[ "/tmp/a.flac" := sample_flac; "/tmp/b.mp3" := sample_mp3 ]} : Disk)
             ({[ CURRENT_FILE := PyStr "/tmp/a.flac";
                 CURRENT_TAG := PyStr "artist" ]} : gmap string PyVal)
             _ "/tmp/b.mp3"
             (or_intror (or_intror (or_introl (ex_intro _ "Nina" eq_refl))))).
  - reflexivity.
  - discriminate.
Defined.

Lemma reported_failure_leaves_files_witness :
  let disk : Disk := {[ "/tmp/AgADBQ.mp3" := sample_flac ]} in
  let user_data : gmap string PyVal :=
    {[ CURRENT_FILE := PyStr "/tmp/AgADBQ.mp3"; CURRENT_TAG := PyStr "title" ]} in
  files (handle_tag_edit "Midnight" disk user_data) = disk
  ∧ data (handle_tag_edit "Midnight" disk user_data) = user_data.
Proof.
  intros disk user_data.
  apply (reported_failure_leaves_files (λ _, "") disk user_data _
           (TagFailed (Some "title"))).
  - left. by exists "Midnight".
  - left. reflexivity.
  - reflexivity.
Defined.


End Examples.
